(** * botbuilder-lg: the template collection and the evaluator

    A shallow embedding of [libraries/botbuilder-lg/src/evaluator.ts]
    (class [Evaluator]) and of the template collection (class [Templates]),
    with the properties the specification states about them.

    Conventions of the embedding.
    - JavaScript values are the inductive type [value]; an object is the
      list of its own properties in insertion order, and its prototype is
      [Object.prototype]: the operator [in] also finds the names that the
      object inherits from it.  An assignment that replaces the prototype
      of an object is not followed: the run has no outcome in the model.
    - A method that mutates [this] is a function from the state of [this]
      to an outcome and the state afterwards; a thrown exception keeps the
      state reached when it was thrown.
    - The host expression language (package adaptive-expressions), the
      generated parser, [TemplateErrors], [TemplateExtensions],
      [EvaluationTarget.getId] and [EvaluationOptions] are outside the
      files at hand; they are the fields of the classes of section
      "Collaborators" and every statement holds for all of them. *)

From Stdlib Require Import ZArith Ascii String DecimalString.
From stdpp Require Import gmap strings list.

#[local] Set Warnings "-register-all".
Local Open Scope string_scope.

(** ** Strings *)

Module Str.

Definition lf : ascii := Ascii.ascii_of_nat 10.
Definition cr : ascii := Ascii.ascii_of_nat 13.

(** [String.prototype.endsWith] and [startsWith]. *)
Definition startsWith (s p : string) : bool := String.prefix p s.

Fixpoint endsWith (s p : string) : bool :=
  String.eqb s p
  || match s with
     | EmptyString => false
     | String _ rest => endsWith rest p
     end.

(** [s.substr(0, n)]. *)
Definition substr0 (n : nat) (s : string) : string := String.substring 0 n s.

(** [s.substring(n)]. *)
Definition substringFrom (n : nat) (s : string) : string :=
  String.substring n (String.length s - n) s.

(** [parts.join(sep)] on strings. *)
Fixpoint join (sep : string) (parts : list string) : string :=
  match parts with
  | [] => ""
  | [p] => p
  | p :: rest => p +:+ sep +:+ join sep rest
  end.

(** [String.prototype.toLowerCase], on the ASCII letters the lexer admits
    in an identifier. *)
Definition isUpper (c : ascii) : bool :=
  let n := Ascii.nat_of_ascii c in (65 <=? n)%nat && (n <=? 90)%nat.

Definition lowerChar (c : ascii) : ascii :=
  if isUpper c then Ascii.ascii_of_nat (Ascii.nat_of_ascii c + 32) else c.

Fixpoint toLowerCase (s : string) : string :=
  match s with
  | EmptyString => EmptyString
  | String c rest => String (lowerChar c) (toLowerCase rest)
  end.

(** [String.prototype.trim] and [trimLeft], on ASCII white space: a
    string is a string of bytes here, and the white space that Unicode
    has outside ASCII is not removed. *)
Definition isSpace (c : ascii) : bool :=
  let n := Ascii.nat_of_ascii c in
  (n =? 32)%nat || ((9 <=? n)%nat && (n <=? 13)%nat).

Fixpoint trimLeft (s : string) : string :=
  match s with
  | EmptyString => EmptyString
  | String c rest => if isSpace c then trimLeft rest else s
  end.

Definition trim (s : string) : string :=
  String.rev (trimLeft (String.rev (trimLeft s))).

(** [s.replace(/(\r?\n)/g, '$1$1')]: the scan goes from left to right; at
    each position the pattern matches either CR LF or LF, and the match is
    written twice. *)
Fixpoint doubleNewLines (s : string) : string :=
  match s with
  | EmptyString => EmptyString
  | String c rest =>
      if Ascii.eqb c lf then String lf (String lf (doubleNewLines rest))
      else if Ascii.eqb c cr then
        match rest with
        | String c' rest' =>
            if Ascii.eqb c' lf
            then String cr (String lf (String cr (String lf (doubleNewLines rest'))))
            else String c (doubleNewLines rest)
        | EmptyString => String c EmptyString
        end
      else String c (doubleNewLines rest)
  end.

(** Number of line feeds of a string: every match of [/(\r?\n)/g] ends
    with exactly one. *)
Fixpoint countNewLines (s : string) : nat :=
  match s with
  | EmptyString => 0
  | String c rest =>
      (if Ascii.eqb c lf then 1 else 0) + countNewLines rest
  end.

(** [s.replace(/\\\|/g, '|')]: every backslash followed by a bar becomes
    a bar. *)
Fixpoint unescapeBar (s : string) : string :=
  match s with
  | EmptyString => EmptyString
  | String c rest =>
      match rest with
      | String c' rest' =>
          if Ascii.eqb c "\"%char && Ascii.eqb c' "|"%char
          then String "|"%char (unescapeBar rest')
          else String c (unescapeBar rest)
      | EmptyString => String c EmptyString
      end
  end.

End Str.

(** ** JavaScript values *)

Inductive value : Type :=
| VUndefined
| VNull
| VBool (b : bool)
| VNumber (n : Z)
| VString (s : string)
| VArray (items : list value)
| VObject (props : list (string * value)).

(** Exceptions: [Error] objects thrown by the library and the [TypeError]s
    of the runtime; both carry a message. *)
Inductive exn : Type :=
| Error (message : string)
| TypeError (message : string).

Definition message (e : exn) : string :=
  match e with Error m | TypeError m => m end.

Module Js.

(** Own properties of an object, in insertion order. *)
Definition object := list (string * value).

Fixpoint get (o : object) (k : string) : option value :=
  match o with
  | [] => None
  | (k', v) :: rest => if String.eqb k' k then Some v else get rest k
  end.

(** The names of the members of [Object.prototype], which every plain
    object inherits. *)
Definition prototypeNames : list string :=
  ["constructor"; "__defineGetter__"; "__defineSetter__"; "hasOwnProperty";
   "__lookupGetter__"; "__lookupSetter__"; "isPrototypeOf"; "propertyIsEnumerable";
   "toString"; "valueOf"; "__proto__"; "toLocaleString"].

Definition inherited (k : string) : bool := bool_decide (k ∈ prototypeNames).

(** [o.hasOwnProperty(k)], the method being that of [Object.prototype]. *)
Definition hasOwnProperty (o : object) (k : string) : bool :=
  match get o k with Some _ => true | None => false end.

(** [k in o]: an own property, or a member of [Object.prototype]. *)
Definition has (o : object) (k : string) : bool :=
  hasOwnProperty o k || inherited k.

(** [o[k] = v]: an existing property keeps its place, a new one goes
    last. *)
Fixpoint set (o : object) (k : string) (v : value) : object :=
  match o with
  | [] => [(k, v)]
  | (k', v') :: rest =>
      if String.eqb k' k then (k', v) :: rest else (k', v') :: set rest k v
  end.

(** [Object.keys(o)] *)
Definition keys (o : object) : list string := map fst o.

(** [o[k]] as an expression, for an own property or a name that
    [Object.prototype] does not have: a missing property reads as
    [undefined]. *)
Definition read (o : object) (k : string) : value :=
  match get o k with Some v => v | None => VUndefined end.

(** [typeof v === 'string'] and [typeof v === 'object']. *)
Definition isString (v : value) : bool :=
  match v with VString _ => true | _ => false end.

Definition isObjectType (v : value) : bool :=
  match v with VNull | VArray _ | VObject _ => true | _ => false end.

(** The statement [o[k] = v].  The name [__proto__] is an accessor of
    [Object.prototype]: unless the object has a property of this name of
    its own, the assignment stores nothing; it leaves the object as it is
    when [v] is neither an object nor [null], and it replaces the
    prototype of the object otherwise, which is not followed ([None]). *)
Definition assign (o : object) (k : string) (v : value) : option object :=
  if String.eqb k "__proto__" && negb (hasOwnProperty o k)
  then if isObjectType v then None else Some o
  else Some (set o k v).

(** [!v] is false: the value is truthy. *)
Definition truthy (v : value) : bool :=
  match v with
  | VUndefined | VNull => false
  | VBool b => b
  | VNumber n => negb (n =? 0)%Z
  | VString s => negb (String.eqb s "")
  | VArray _ | VObject _ => true
  end.

(** [Number.prototype.toString] on the numbers of the model, which are
    the integers: all the decimal digits, as JavaScript prints an integer
    below [10^21]; from there on JavaScript prints an exponent. *)
Definition numberToString (n : Z) : string :=
  NilZero.string_of_int (Z.to_int n).

(** The abstract operation ToString, used by [+] on a string and by
    [Array.prototype.join]. *)
Fixpoint ToString (v : value) : string :=
  match v with
  | VUndefined => "undefined"
  | VNull => "null"
  | VBool true => "true"
  | VBool false => "false"
  | VNumber n => numberToString n
  | VString s => s
  | VArray items =>
      Str.join ","
        (map (fun i => match i with
                       | VUndefined | VNull => ""
                       | _ => ToString i
                       end) items)
  | VObject _ => "[object Object]"
  end.

(** The method call [v.toString()]: [undefined] and [null] have no
    properties. *)
Definition toString (v : value) : exn + string :=
  match v with
  | VUndefined => inl (TypeError "Cannot read property 'toString' of undefined")
  | VNull => inl (TypeError "Cannot read property 'toString' of null")
  | _ => inr (ToString v)
  end.

End Js.

(** ** Parse trees

    The contexts of the generated parser [LGTemplateParser], with the
    accessors the evaluator calls.  [..._text] is the [text] of a context,
    the source text it spans. *)

Module lp.

Inductive TokenType : Type :=
| MULTILINE_PREFIX | MULTILINE_SUFFIX | DASH
| ESCAPE_CHARACTER | EXPRESSION | TEXT
| ESCAPE_CHARACTER_IN_STRUCTURE_BODY | EXPRESSION_IN_STRUCTURE_BODY
| TEXT_IN_STRUCTURE_BODY.

(** [node.symbol.type] and [node.text]. *)
Record TerminalNode : Type :=
  { symbol_type : TokenType; text : string }.

Record NormalTemplateStringContext : Type :=
  { nts_children : list TerminalNode; nts_text : string }.

(** A template string is a normal one or an erroneous one, for which
    [normalTemplateString()] is [undefined]. *)
Record TemplateStringContext : Type :=
  { normalTemplateString : option NormalTemplateStringContext }.

Record NormalTemplateBodyContext : Type :=
  { templateString : list TemplateStringContext }.

Record IfConditionContext : Type :=
  { ic_EXPRESSION : list TerminalNode; ic_text : string }.

Record IfConditionRuleContext : Type :=
  { ifCondition : IfConditionContext;
    icr_normalTemplateBody : option NormalTemplateBodyContext }.

(** [DEFAULT()] is a terminal or [undefined]: here, whether it is there. *)
Record SwitchCaseStatContext : Type :=
  { DEFAULT : bool; sc_EXPRESSION : list TerminalNode; sc_text : string }.

Record SwitchCaseRuleContext : Type :=
  { switchCaseStat : SwitchCaseStatContext;
    scr_normalTemplateBody : option NormalTemplateBodyContext }.

Record KeyValueStructureValueContext : Type :=
  { kv_children : list TerminalNode }.

Record KeyValueStructureLineContext : Type :=
  { STRUCTURE_IDENTIFIER : string;
    keyValueStructureValue : list KeyValueStructureValueContext;
    kvl_text : string }.

(** A content line of a structured body: [keyValueStructureLine()] or
    [objectStructureLine()] is defined. *)
Inductive StructuredBodyContentLineContext : Type :=
| keyValueStructureLine (kv : KeyValueStructureLineContext)
| objectStructureLine (text : string).

Record StructuredTemplateBodyContext : Type :=
  { STRUCTURE_NAME : string;
    structuredBodyContentLine : list StructuredBodyContentLineContext }.

(** The four alternatives of the rule [body], on which [visit]
    dispatches. *)
Inductive BodyContext : Type :=
| NormalBodyContext (normalTemplateBody : NormalTemplateBodyContext)
| IfElseBodyContext (ifConditionRule : list IfConditionRuleContext)
| SwitchCaseBodyContext (switchCaseRule : list SwitchCaseRuleContext)
| StructuredBodyContext (structuredTemplateBody : StructuredTemplateBodyContext).

End lp.

(** ** Templates, diagnostics, scopes *)

Record Position : Type := { line : nat; character : nat }.
Record Range : Type := { range_start : Position; range_end : Position }.
Record SourceRange : Type := { range : Range; source : string }.

(** [template_ref] and [diagnostic_ref] stand for the identity of the
    JavaScript object, which is what [new Set] compares. *)
Record Template : Type :=
  { template_ref : nat;
    name : string;
    parameters : list string;
    templateBodyParseTree : lp.BodyContext;
    sourceRange : SourceRange }.

Inductive DiagnosticSeverity : Type :=
| SeverityError | SeverityWarning | SeverityInformation | SeverityHint.

Record Diagnostic : Type :=
  { diagnostic_ref : nat;
    severity : DiagnosticSeverity;
    diagnostic_range : Range;
    diagnostic_message : string }.

Definition isError (s : DiagnosticSeverity) : bool :=
  match s with SeverityError => true | _ => false end.

Record TemplateImport : Type :=
  { description : string; import_id : string }.

(** [SimpleObjectMemory.wrap(o)]: a memory over an object. *)
Record SimpleObjectMemory : Type := wrap { memory : value }.

(** [CustomizedMemory]: a local layer over a global layer, either of which
    may be missing. *)
Record CustomizedMemory : Type :=
  { globalMemory : option SimpleObjectMemory;
    localMemory : option SimpleObjectMemory }.

Inductive LGLineBreakStyle : Type := Default | Markdown.

Record EvaluationOptions : Type :=
  { strictMode : bool;
    nullSubstitution : option (string -> value);
    LineBreakStyle : LGLineBreakStyle }.

(** The result of parsing an expression, once given a scope: what its
    evaluation does, as seen from the evaluator.  It ends with the pair
    [{value, error}] of [tryEvaluate], or it calls a function obtained from
    the evaluator lookup, with evaluated arguments, and goes on with what
    the call yields. *)
Inductive Expression : Type :=
| Done (value : value) (error : option string)
| Invoke (type : string) (args : list value)
         (next : value -> option string -> Expression).

(** A standard function of the expression language. *)
Definition StandardFunction : Type := list value -> exn + value.

(** [ExpressionParser]: what the evaluator uses of it is its evaluator
    lookup. *)
Record ExpressionParser : Type :=
  { EvaluatorLookup : string -> option StandardFunction }.

Definition ImportResolverDelegate : Type := string -> string -> string * string.

(** The collection.  [references] holds the collections of all the files
    reached through imports, as the parser leaves them. *)
Inductive Templates : Type :=
  mkTemplates
    { items : list Template;
      imports : list TemplateImport;
      diagnostics : list Diagnostic;
      references : list Templates;
      content : string;
      id : string;
      expressionParser : ExpressionParser;
      importResolver : option ImportResolverDelegate;
      options : list string }.

(** ** Collaborators *)

(** The messages of [TemplateErrors]. *)
Class TemplateErrors : Type :=
  { templateNotExist : string -> string;
    templateExist : string -> string;
    loopDetected : string;
    invalidMemory : string;
    nullExpression : string -> string;
    errorExpression : string -> string -> string -> string }.

(** The helpers of [TemplateExtensions] and [EvaluationTarget.getId]. *)
Class TemplateExtensions : Type :=
  { trimExpression : string -> string;
    evalEscape : string -> string;
    readLine : string -> list string;
    isPureExpression : lp.KeyValueStructureValueContext -> option string;
    getPrefixErrorMessage : lp.NormalTemplateStringContext -> string;
    getId : string -> CustomizedMemory -> string }.

(** The expression language, the parser of template files, the classes
    [Expander] and [Analyzer], and the runtime. *)
Class Host : Type :=
  { (** [expressionParser.parse(exp)] throws or yields an expression, which
        [tryEvaluate(scope, opt)] runs *)
    parse : string -> exn + (CustomizedMemory -> EvaluationOptions -> Expression);
    (** the message of the error raised for a function without evaluator *)
    noEvaluator : string -> string;
    (** [TemplatesParser.parseText(content, id, importResolver)] *)
    parseText : string -> string -> option ImportResolverDelegate -> Templates;
    (** [new EvaluationOptions(options)] and [opt.merge(other)] *)
    newEvaluationOptions : list string -> EvaluationOptions;
    merge : EvaluationOptions -> EvaluationOptions -> EvaluationOptions;
    (** [diagnostic.toString()] *)
    diagnosticToString : Diagnostic -> string;
    (** [JSON.stringify(v)]; [None] when it yields [undefined] *)
    JSON_stringify : value -> option string;
    (** the n-th draw of [Math.random()], scaled: any natural number,
        reduced modulo the number of candidates *)
    Math_random : nat -> nat;
    (** [new Expander(...).expandTemplate(name, scope)] and
        [new Analyzer(...).analyzeTemplate(name)] *)
    Expander_expandTemplate :
      list Template -> ExpressionParser -> EvaluationOptions ->
      string -> value -> exn + list value;
    Analyzer_analyzeTemplate :
      list Template -> ExpressionParser -> string -> exn + value }.

(** ** The evaluation monad

    The evaluator is stateful (its stack of evaluation targets, the
    memoization maps of the targets, the random source) and it throws.  A
    computation takes the state and yields an outcome and the state
    reached.  [OutOfFuel] is not an outcome of the program: it marks a run
    that the bound on nested calls cut short, or that has left the part
    of JavaScript that the model follows. *)

Inductive outcome (A : Type) : Type :=
| Returns (a : A)
| Throws (e : exn)
| OutOfFuel.

Arguments Returns {A} a.
Arguments Throws {A} e.
Arguments OutOfFuel {A}.

(** An evaluation target: a template name, a scope, and a reference to its
    [Map] of evaluated children (the frame itself is never mutated, its map
    is). *)
Record EvaluationTarget : Type :=
  { templateName : string;
    scope : CustomizedMemory;
    evaluatedChildren : nat }.

(** [evaluationTargetStack] is the array of the class, the most recent
    target last; [mapStore] holds the [Map] objects allocated so far, by
    reference; [randomCalls] counts the calls of [Math.random]. *)
Record State : Type :=
  { evaluationTargetStack : list EvaluationTarget;
    mapStore : gmap nat (gmap string value);
    allocated : nat;
    randomCalls : nat }.

Definition initialState : State :=
  {| evaluationTargetStack := []; mapStore := ∅; allocated := 0; randomCalls := 0 |}.

Definition M (A : Type) : Type := State -> outcome A * State.

Definition ret {A} (a : A) : M A := fun st => (Returns a, st).

Definition throw {A} (e : exn) : M A := fun st => (Throws e, st).

Definition bind {A B} (m : M A) (k : A -> M B) : M B :=
  fun st =>
    match m st with
    | (Returns a, st') => k a st'
    | (Throws e, st') => (Throws e, st')
    | (OutOfFuel, st') => (OutOfFuel, st')
    end.

Notation "x <- m ;; k" := (bind m (fun x => k))
  (at level 100, m at next level, right associativity).
Notation "m ;;; k" := (bind m (fun _ => k))
  (at level 100, right associativity).

(** A value or a thrown exception, with no effect on the state. *)
Definition lift {A} (r : exn + A) : M A :=
  match r with inl e => throw e | inr a => ret a end.

(** A run that is not followed any further, and the result of an
    operation that may not be followed. *)
Definition unmodelled {A} : M A := fun st => (OutOfFuel, st).

Definition followed {A} (r : option A) : M A :=
  match r with Some a => ret a | None => unmodelled end.

(** [try { value = m } catch (e) { error = e.message }], the wrapper of
    [ExpressionFunctions.apply]. *)
Definition tryCatch (m : M value) : M (value * option string) :=
  fun st =>
    match m st with
    | (Returns v, st') => (Returns (v, None), st')
    | (Throws e, st') => (Returns (VUndefined, Some (message e)), st')
    | (OutOfFuel, st') => (OutOfFuel, st')
    end.

Definition getStack : M (list EvaluationTarget) :=
  fun st => (Returns (evaluationTargetStack st), st).

Definition setStack (s : list EvaluationTarget) : M unit :=
  fun st =>
    (Returns tt,
     {| evaluationTargetStack := s; mapStore := mapStore st;
        allocated := allocated st; randomCalls := randomCalls st |}).

(** [stack.push(t)], [stack.pop()], [stack.reverse()]: all in place. *)
Definition push (t : EvaluationTarget) : M unit :=
  s <- getStack ;; setStack (s ++ [t]).

Definition pop : M unit :=
  s <- getStack ;; setStack (removelast s).

Definition reverseInPlace : M (list EvaluationTarget) :=
  s <- getStack ;; setStack (rev s) ;;; ret (rev s).

(** [new Map()] *)
Definition newMap : M nat :=
  fun st =>
    (Returns (allocated st),
     {| evaluationTargetStack := evaluationTargetStack st;
        mapStore := <[allocated st := ∅]> (mapStore st);
        allocated := S (allocated st); randomCalls := randomCalls st |}).

Definition mapOf (st : State) (r : nat) : gmap string value :=
  default ∅ (mapStore st !! r).

(** [map.has(k)] with [map.get(k)], and [map.set(k, v)]. *)
Definition mapGet (r : nat) (k : string) : M (option value) :=
  fun st => (Returns (mapOf st r !! k), st).

Definition mapSet (r : nat) (k : string) (v : value) : M unit :=
  fun st =>
    (Returns tt,
     {| evaluationTargetStack := evaluationTargetStack st;
        mapStore := <[r := <[k := v]> (mapOf st r)]> (mapStore st);
        allocated := allocated st; randomCalls := randomCalls st |}).

(** [Math.floor(Math.random() * n)] *)
Definition randomBelow `{Host} (n : nat) : M nat :=
  fun st =>
    (Returns (if (n =? 0)%nat then 0%nat else (Math_random (randomCalls st) mod n)%nat),
     {| evaluationTargetStack := evaluationTargetStack st;
        mapStore := mapStore st;
        allocated := allocated st; randomCalls := S (randomCalls st) |}).

(** ** The evaluator *)

(** The fields of an [Evaluator] object.  [baseLookup] is the evaluator
    lookup of the parser handed to the constructor, which
    [customizedEvaluatorLookup] extends. *)
Record Evaluator : Type :=
  { templates : list Template;
    templateMap : gmap string Template;
    baseLookup : string -> option StandardFunction;
    lgOptions : EvaluationOptions }.

(** lodash's [keyBy]: a plain object with a property of its own for the
    name of every template; of two templates of the same name the later
    stays.  The map holds the own properties. *)
Definition keyBy (ts : list Template) : gmap string Template :=
  foldl (fun m t => <[name t := t]> m) ∅ ts.

(** [name in this.templateMap]: the names of the templates and the names
    that the object inherits.  For a name that it only inherits,
    [this.templateMap[name]] is a value that is no template: its fields
    [parameters] and [templateBodyParseTree] read as [undefined], which
    is [None] as the result of the lookup in the map. *)
Definition inTemplateMap (this : Evaluator) (name : string) : bool :=
  bool_decide (is_Some (templateMap this !! name)) || Js.inherited name.

Definition newEvaluator (ts : list Template) (p : ExpressionParser)
    (opt : EvaluationOptions) : Evaluator :=
  {| templates := ts; templateMap := keyBy ts;
     baseLookup := EvaluatorLookup p; lgOptions := opt |}.

Definition LGType : string := "lgType".
Definition activityAttachmentFunctionName : string := "ActivityAttachment".
Definition fromFileFunctionName : string := "fromFile".
Definition templateFunctionName : string := "template".
Definition isTemplateFunctionName : string := "isTemplate".
Definition ReExecuteSuffix : string := "!".

(** The scope handed to [evaluateTemplate]: any value, or already a
    [CustomizedMemory]. *)
Definition ScopeArgument : Type := value + CustomizedMemory.

(** [scope instanceof CustomizedMemory ? scope
     : new CustomizedMemory(SimpleObjectMemory.wrap(scope))] *)
Definition toCustomizedMemory (s : ScopeArgument) : CustomizedMemory :=
  match s with
  | inr m => m
  | inl v => {| globalMemory := Some (wrap v); localMemory := None |}
  end.

Definition parseTemplateName (templateName : string) : exn + (bool * string) :=
  if String.eqb templateName "" then inl (Error "template name is empty.")
  else if Str.endsWith templateName ReExecuteSuffix
  then inr (true, Str.substr0 (String.length templateName - String.length ReExecuteSuffix)
                   templateName)
  else inr (false, templateName).

Definition concatErrorMsg (firstError secondError : string) : string :=
  if String.eqb firstError "" then secondError
  else if String.eqb secondError "" then firstError
  else firstError +:+ " " +:+ secondError.

(** A string that is there and not empty: what [if (error)] tests. *)
Definition given (error : option string) : bool :=
  match error with Some m => negb (String.eqb m "") | None => false end.

(** [checkExpressionResult] always throws; this is what it throws. *)
Definition checkExpressionResult `{TemplateErrors}
    (exp : string) (error : option string) (result : value)
    (templateName : string) (context : option string) (errorPrefix : string) : exn :=
  let childErrorMsg :=
    if given error then concatErrorMsg "" (default "" error)
    else if negb (Js.truthy result) then concatErrorMsg "" (nullExpression exp)
    else "" in
  let errorMsg :=
    match context with
    | Some text => concatErrorMsg "" (errorExpression text templateName errorPrefix)
    | None => ""
    end in
  Error (concatErrorMsg childErrorMsg errorMsg).

(** [this.currentTarget()], and the reading of a property of what it
    yields, which throws on an empty stack. *)
Definition currentTarget : M (option EvaluationTarget) :=
  s <- getStack ;; ret (last s).

Definition currentTargetField {A} (field : EvaluationTarget -> A) (what : string) : M A :=
  t <- currentTarget ;;
  match t with
  | Some t => ret (field t)
  | None => throw (TypeError ("Cannot read property '" +:+ what +:+ "' of undefined"))
  end.

(** [parameters.map((e, i) => newScope[e] = args[i])] *)
Fixpoint bindParameters (newScope : Js.object) (parameters : list string)
    (i : nat) (args : list value) : option Js.object :=
  match parameters with
  | [] => Some newScope
  | e :: rest =>
      match Js.assign newScope e (default VUndefined (args !! i)) with
      | Some newScope => bindParameters newScope rest (S i) args
      | None => None
      end
  end.

(** [constructScope].  The scope of a frame is always a [CustomizedMemory]
    ([evaluateTemplate] wraps what it is given), so the test [!memory] that
    throws [invalidMemory] never holds. *)
Definition constructScope `{TemplateErrors} (this : Evaluator)
    (inputTemplateName : string) (args : list value) : M CustomizedMemory :=
  parsed <- lift (parseTemplateName inputTemplateName) ;;
  let templateName := snd parsed in
  if negb (inTemplateMap this templateName)
  then throw (Error (templateNotExist templateName))
  else
    let parameters := option_map parameters (templateMap this !! templateName) in
    currentScope <- currentTargetField scope "scope" ;;
    if (length args =? 0)%nat then ret currentScope
    else
      match parameters with
      | None => throw (TypeError "Cannot read property 'map' of undefined")
      | Some parameters =>
          newScope <- followed (bindParameters [] parameters 0 args) ;;
          ret {| globalMemory := globalMemory currentScope;
                 localMemory := Some (wrap (VObject newScope)) |}
      end.

(** The merge of a referenced object into the result of a structured
    template: [for (const key of Object.keys(propertyObject))
    if (propertyObject.hasOwnProperty(key) && !(key in result))
    result[key] = propertyObject[key]]. *)
Fixpoint mergeKeys (result : Js.object) (propertyObject : Js.object)
    (keys : list string) : Js.object :=
  match keys with
  | [] => result
  | key :: rest =>
      if Js.hasOwnProperty propertyObject key && negb (Js.has result key)
      then mergeKeys (Js.set result key (Js.read propertyObject key)) propertyObject rest
      else mergeKeys result propertyObject rest
  end.

(** [typeof o === 'object' && LGType in o && o[LGType].toString() === typeName]
    and the merge it guards.  The object has at least the key [lgType]
    then, so that the loop calls [propertyObject.hasOwnProperty]: a
    property of this name of the object itself is no function. *)
Definition mergeReference (result : Js.object) (typeName : string)
    (propertyObject : value) : exn + Js.object :=
  match propertyObject with
  | VNull => inl (TypeError "Cannot use 'in' operator to search for 'lgType' in null")
  | VObject o =>
      if Js.has o LGType then
        match Js.toString (Js.read o LGType) with
        | inl e => inl e
        | inr s =>
            if String.eqb s typeName then
              if Js.hasOwnProperty o "hasOwnProperty"
              then inl (TypeError "propertyObject.hasOwnProperty is not a function")
              else inr (mergeKeys result o (Js.keys o))
            else inr result
        end
      else inr result
  | _ => inr result
  end.

Section Visitor.

Context `{TemplateErrors} `{TemplateExtensions} `{Host}.

Variable this : Evaluator.

(** The method [evaluateTemplate] itself, for the calls made from
    expressions while a template body is visited. *)
Variable evaluateTemplate : string -> ScopeArgument -> M value.

(** *** The functions added to the expression language *)

Definition templateEvaluator (templateName : string) (args : list value) : M value :=
  newScope <- constructScope this templateName args ;;
  evaluateTemplate templateName (inr newScope).

Definition templateFunction (args : list value) : M value :=
  match args with
  | VString templateName :: rest =>
      newScope <- constructScope this templateName rest ;;
      evaluateTemplate templateName (inr newScope)
  | v :: _ =>
      if Js.truthy v then throw (TypeError "templateName.endsWith is not a function")
      else throw (Error "template name is empty.")
  | [] => throw (Error "template name is empty.")
  end.

Definition isTemplate (args : list value) : M value :=
  match args with
  | arg :: _ =>
      templateName <- lift (Js.toString arg) ;;
      ret (VBool (inTemplateMap this templateName))
  | [] => throw (TypeError "Cannot read property 'toString' of undefined")
  end.

Definition activityAttachment (args : list value) : M value :=
  contenttype <- lift (Js.toString (default VUndefined (args !! 1%nat))) ;;
  ret (VObject [(LGType, VString "attachment");
                ("contenttype", VString contenttype);
                ("content", default VUndefined (args !! 0%nat))]).

(** [customizedEvaluatorLookup(baseLookup)(name)]: the function the
    evaluator found for [name] applies, if there is one.  [fromFile]
    reads the file system and is left out. *)
Definition customizedEvaluatorLookup (name : string)
    : exn + option (list value -> M value) :=
  match baseLookup this name with
  | Some standardFunction => inr (Some (fun args => lift (standardFunction args)))
  | None =>
      let name := if Str.startsWith name "lg." then Str.substringFrom 3 name else name in
      match parseTemplateName name with
      | inl e => inl e
      | inr (_, templateName) =>
          if inTemplateMap this templateName
          then inr (Some (templateEvaluator name))
          else if String.eqb name templateFunctionName
          then inr (Some templateFunction)
          else if String.eqb name activityAttachmentFunctionName
          then inr (Some activityAttachment)
          else if String.eqb name isTemplateFunctionName
          then inr (Some isTemplate)
          else inr None
      end
  end.

(** [tryEvaluate]: a call goes to the function of the lookup, wrapped by
    [ExpressionFunctions.apply], which turns what it throws into the
    [error] of the pair. *)
Fixpoint tryEvaluate (e : Expression) : M (value * option string) :=
  match e with
  | Done value error => ret (value, error)
  | Invoke type args next =>
      match customizedEvaluatorLookup type with
      | inl e => throw e
      | inr None => throw (Error (noEvaluator type))
      | inr (Some f) =>
          r <- tryCatch (f args) ;;
          tryEvaluate (next (fst r) (snd r))
      end
  end.

Definition evalByAdaptiveExpression (exp : string) (scope : CustomizedMemory)
    : M (value * option string) :=
  match parse exp with
  | inl e => throw e
  | inr expression => tryEvaluate (expression scope (lgOptions this))
  end.

(** *** Expressions in a template body *)

Definition evalExpression (exp : string) (context : option string)
    (errorPrefix : string) : M value :=
  let exp := trimExpression exp in
  scope <- currentTargetField scope "scope" ;;
  r <- evalByAdaptiveExpression exp scope ;;
  let '(result, error) := r in
  let isUndefined := match result with VUndefined => true | _ => false end in
  if given error || (isUndefined && strictMode (lgOptions this)) then
    templateName <- currentTargetField templateName "templateName" ;;
    stack <- getStack ;;
    (if (0 <? length stack)%nat then pop else ret tt) ;;;
    throw (checkExpressionResult exp error result templateName context errorPrefix)
  else if isUndefined && negb (strictMode (lgOptions this)) then
    ret (VString "null")
  else ret result.

Definition evalExpressionInCondition (exp : string) (context : option string)
    (errorPrefix : string) : M bool :=
  let exp := trimExpression exp in
  scope <- currentTargetField scope "scope" ;;
  r <- evalByAdaptiveExpression exp scope ;;
  let '(result, error) := r in
  if strictMode (lgOptions this) && (given error || negb (Js.truthy result)) then
    templateName <- currentTargetField templateName "templateName" ;;
    stack <- getStack ;;
    (if (0 <? length stack)%nat then pop else ret tt) ;;;
    throw (checkExpressionResult exp error result templateName context errorPrefix)
  else if given error || negb (Js.truthy result) then ret false
  else ret true.

Definition evalCondition (condition : lp.IfConditionContext) : M bool :=
  match lp.ic_EXPRESSION condition with
  | [] => ret true
  | expression :: _ =>
      evalExpressionInCondition (lp.text expression) (Some (lp.ic_text condition))
        ("Condition '" +:+ lp.text expression +:+ "':")
  end.

(** *** The visitors *)

Definition visitUndefined {A} : M A :=
  throw (TypeError "Cannot read property 'accept' of undefined").

(** The loop of [visitNormalTemplateString], which fills [result]. *)
Fixpoint normalTemplateStringPieces (ctx : lp.NormalTemplateStringContext)
    (prefixErrorMsg : string) (children : list lp.TerminalNode)
    (result : list value) : M (list value) :=
  match children with
  | [] => ret result
  | innerNode :: rest =>
      match lp.symbol_type innerNode with
      | lp.MULTILINE_SUFFIX | lp.MULTILINE_PREFIX | lp.DASH =>
          normalTemplateStringPieces ctx prefixErrorMsg rest result
      | lp.ESCAPE_CHARACTER =>
          normalTemplateStringPieces ctx prefixErrorMsg rest
            (result ++ [VString (evalEscape (lp.text innerNode))])
      | lp.EXPRESSION =>
          v <- evalExpression (lp.text innerNode) (Some (lp.nts_text ctx)) prefixErrorMsg ;;
          normalTemplateStringPieces ctx prefixErrorMsg rest (result ++ [v])
      | _ =>
          normalTemplateStringPieces ctx prefixErrorMsg rest
            (result ++ [VString (lp.text innerNode)])
      end
  end.

Definition pieceToString (u : value) : string :=
  match u with
  | VString s => s
  | _ => default "" (JSON_stringify u)
  end.

Definition visitNormalTemplateString (ctx : lp.NormalTemplateStringContext) : M value :=
  let prefixErrorMsg := getPrefixErrorMessage ctx in
  result <- normalTemplateStringPieces ctx prefixErrorMsg (lp.nts_children ctx) [] ;;
  match result with
  | [u] => if Js.isString u then ret (VString (pieceToString u)) else ret u
  | _ => ret (VString (Str.join "" (map pieceToString result)))
  end.

Definition visitNormalTemplateBody (ctx : lp.NormalTemplateBodyContext) : M value :=
  let normalTemplateStrs := lp.templateString ctx in
  randomNumber <- randomBelow (length normalTemplateStrs) ;;
  match normalTemplateStrs !! randomNumber with
  | None => throw (TypeError "Cannot read property 'normalTemplateString' of undefined")
  | Some str =>
      match lp.normalTemplateString str with
      | Some s => visitNormalTemplateString s
      | None => visitUndefined
      end
  end.

Fixpoint visitIfElseBody (ifRules : list lp.IfConditionRuleContext) : M value :=
  match ifRules with
  | [] => ret VUndefined
  | ifRule :: rest =>
      c <- evalCondition (lp.ifCondition ifRule) ;;
      match c, lp.icr_normalTemplateBody ifRule with
      | true, Some body => visitNormalTemplateBody body
      | _, _ => visitIfElseBody rest
      end
  end.

(** The loop of [visitSwitchCaseBody]; [idx] counts the nodes passed and
    [length] is the number of nodes, the switch statement included. *)
Fixpoint switchCaseLoop (length idx : nat) (switchExprResult : string)
    (nodes : list lp.SwitchCaseRuleContext) : M value :=
  match nodes with
  | [] => ret VUndefined
  | caseNode :: rest =>
      if (idx =? 0)%nat then switchCaseLoop length (S idx) switchExprResult rest
      else if (idx =? length - 1)%nat && lp.DEFAULT (lp.switchCaseStat caseNode) then
        match lp.scr_normalTemplateBody caseNode with
        | Some defaultBody => visitNormalTemplateBody defaultBody
        | None => ret VUndefined
        end
      else
        match lp.sc_EXPRESSION (lp.switchCaseStat caseNode) with
        | [] => throw (TypeError "Cannot read property 'text' of undefined")
        | caseExpr :: _ =>
            let caseErrorPrefix := "Case '" +:+ lp.text caseExpr +:+ "': " in
            v <- evalExpression (lp.text caseExpr)
                   (Some (lp.sc_text (lp.switchCaseStat caseNode))) caseErrorPrefix ;;
            caseExprResult <- lift (Js.toString v) ;;
            if String.eqb switchExprResult caseExprResult then
              match lp.scr_normalTemplateBody caseNode with
              | Some body => visitNormalTemplateBody body
              | None => visitUndefined
              end
            else switchCaseLoop length (S idx) switchExprResult rest
        end
  end.

Definition visitSwitchCaseBody (switchcaseNodes : list lp.SwitchCaseRuleContext)
    : M value :=
  match switchcaseNodes with
  | [] => throw (TypeError "Cannot read property 'switchCaseStat' of undefined")
  | switchNode :: _ =>
      match lp.sc_EXPRESSION (lp.switchCaseStat switchNode) with
      | [] => throw (TypeError "Cannot read property 'text' of undefined")
      | switchExpr :: _ =>
          let switchErrorPrefix := "Switch '" +:+ lp.text switchExpr +:+ "': " in
          v <- evalExpression (lp.text switchExpr)
                 (Some (lp.sc_text (lp.switchCaseStat switchNode))) switchErrorPrefix ;;
          switchExprResult <- lift (Js.toString v) ;;
          switchCaseLoop (length switchcaseNodes) 0 switchExprResult switchcaseNodes
      end
  end.

(** The loop over the children of one value of a key/value line. *)
Fixpoint structureValueItem (ctx : lp.KeyValueStructureLineContext)
    (children : list lp.TerminalNode) (itemStringResult : string) : M string :=
  match children with
  | [] => ret itemStringResult
  | node :: rest =>
      match lp.symbol_type node with
      | lp.ESCAPE_CHARACTER_IN_STRUCTURE_BODY =>
          structureValueItem ctx rest
            (itemStringResult +:+ evalEscape (Str.unescapeBar (lp.text node)))
      | lp.EXPRESSION_IN_STRUCTURE_BODY =>
          let errorPrefix := "Property '" +:+ lp.STRUCTURE_IDENTIFIER ctx +:+ "':" in
          v <- evalExpression (lp.text node) (Some (lp.kvl_text ctx)) errorPrefix ;;
          structureValueItem ctx rest (itemStringResult +:+ Js.ToString v)
      | _ => structureValueItem ctx rest (itemStringResult +:+ lp.text node)
      end
  end.

Fixpoint structureValueItems (ctx : lp.KeyValueStructureLineContext)
    (values : list lp.KeyValueStructureValueContext) (result : list value)
    : M (list value) :=
  match values with
  | [] => ret result
  | item :: rest =>
      match isPureExpression item with
      | Some expression =>
          v <- evalExpression expression (Some (lp.kvl_text ctx)) "" ;;
          structureValueItems ctx rest (result ++ [v])
      | None =>
          itemStringResult <- structureValueItem ctx (lp.kv_children item) "" ;;
          structureValueItems ctx rest (result ++ [VString (Str.trim itemStringResult)])
      end
  end.

Definition visitStructureValue (ctx : lp.KeyValueStructureLineContext) : M value :=
  result <- structureValueItems ctx (lp.keyValueStructureValue ctx) [] ;;
  match result with
  | [v] => ret v
  | _ => ret (VArray result)
  end.

(** One turn of the loop of [visitStructuredTemplateBody]. *)
Definition structuredBodyLine (typeName : string) (result : Js.object)
    (body : lp.StructuredBodyContentLineContext) : M Js.object :=
  match body with
  | lp.keyValueStructureLine kv =>
      let property := Str.toLowerCase (lp.STRUCTURE_IDENTIFIER kv) in
      value <- visitStructureValue kv ;;
      followed (Js.assign result property value)
  | lp.objectStructureLine text =>
      propertyObject <- evalExpression text (Some text) "" ;;
      lift (mergeReference result typeName propertyObject)
  end.

Fixpoint structuredBodyLines (typeName : string) (result : Js.object)
    (bodys : list lp.StructuredBodyContentLineContext) : M Js.object :=
  match bodys with
  | [] => ret result
  | body :: rest =>
      result' <- structuredBodyLine typeName result body ;;
      structuredBodyLines typeName result' rest
  end.

Definition visitStructuredTemplateBody (ctx : lp.StructuredTemplateBodyContext)
    : M value :=
  let typeName := lp.STRUCTURE_NAME ctx in
  let result := Js.set [] LGType (VString typeName) in
  result' <- structuredBodyLines typeName result (lp.structuredBodyContentLine ctx) ;;
  ret (VObject result').

(** [this.visit(tree)]: the dispatch on the alternative of the body. *)
Definition visit (tree : lp.BodyContext) : M value :=
  match tree with
  | lp.NormalBodyContext body => visitNormalTemplateBody body
  | lp.IfElseBodyContext ifRules => visitIfElseBody ifRules
  | lp.SwitchCaseBodyContext nodes => visitSwitchCaseBody nodes
  | lp.StructuredBodyContext ctx => visitStructuredTemplateBody ctx
  end.

End Visitor.

(** [stack.some(u => u.templateName === n)] *)
Definition someNamed (stack : list EvaluationTarget) (n : string) : bool :=
  existsb (fun u => String.eqb (templateName u) n) stack.

(** [reversed.map(u => u.templateName).join(' => ')], the chain of the
    message thrown when a loop is found. *)
Definition loopChain (reversed : list EvaluationTarget) : string :=
  Str.join " => " (map templateName reversed).

(** [result.replace(this.newLineRegex, '$1$1')] under the Markdown style. *)
Definition normalizeLineBreaks (opt : EvaluationOptions) (result : value) : value :=
  match LineBreakStyle opt, result with
  | Markdown, VString s => VString (Str.doubleNewLines s)
  | _, _ => result
  end.

(** [evaluateTemplate]; [fuel] bounds the depth of nested calls. *)
Fixpoint evaluateTemplate `{TemplateErrors} `{TemplateExtensions} `{Host}
    (fuel : nat) (this : Evaluator)
    (inputTemplateName : string) (scope : ScopeArgument) : M value :=
  match fuel with
  | O => fun st => (OutOfFuel, st)
  | S fuel =>
      parsed <- lift (parseTemplateName inputTemplateName) ;;
      let '(reExecute, templateName) := parsed in
      if negb (inTemplateMap this templateName)
      then throw (Error (templateNotExist templateName))
      else
        stack <- getStack ;;
        if someNamed stack templateName then
          reversed <- reverseInPlace ;;
          throw (Error (loopDetected +:+ " " +:+ loopChain reversed))
        else
          let scope := toCustomizedMemory scope in
          children <- newMap ;;
          let templateTarget :=
            {| templateName := templateName; scope := scope;
               evaluatedChildren := children |} in
          let currentEvulateId := getId templateName scope in
          stack <- getStack ;;
          let previousEvaluateTarget := last stack in
          cached <-
            match previousEvaluateTarget with
            | Some previous =>
                if negb reExecute
                then mapGet (evaluatedChildren previous) currentEvulateId
                else ret None
            | None => ret None
            end ;;
          match cached with
          | Some v => ret v
          | None =>
              push templateTarget ;;;
              result <-
                match templateMap this !! templateName with
                | Some template =>
                    visit this (evaluateTemplate fuel this)
                      (templateBodyParseTree template)
                | None => visitUndefined
                end ;;
              match previousEvaluateTarget with
              | Some previous =>
                  mapSet (evaluatedChildren previous) currentEvulateId result
              | None => ret tt
              end ;;;
              pop ;;;
              ret (normalizeLineBreaks (lgOptions this) result)
          end
  end.

(** The state in which the body of a template is visited: its frame, with
    a new map, is on the stack. *)
Definition entered (st : State) (n : string) (scope : ScopeArgument) : State :=
  {| evaluationTargetStack :=
       (evaluationTargetStack st
        ++ [{| templateName := n; scope := toCustomizedMemory scope;
               evaluatedChildren := allocated st |}])%list;
     mapStore := <[allocated st := ∅]> (mapStore st);
     allocated := S (allocated st);
     randomCalls := randomCalls st |}.

(** ** Reading of a switch statement

    The string of the switch statement or of a case: its first expression
    is evaluated, with the error prefix of its kind, and [toString] is
    called on the value.  This is what [visitSwitchCaseBody] computes for
    [switchExprResult] and [caseExprResult]. *)

Section SwitchReading.

Context `{TemplateErrors} `{TemplateExtensions} `{Host}.

Variable this : Evaluator.
Variable evaluateTemplate : string -> ScopeArgument -> M value.

Definition statementString (kind : string) (node : lp.SwitchCaseRuleContext) : M string :=
  match lp.sc_EXPRESSION (lp.switchCaseStat node) with
  | [] => throw (TypeError "Cannot read property 'text' of undefined")
  | expr :: _ =>
      v <- evalExpression this evaluateTemplate (lp.text expr)
             (Some (lp.sc_text (lp.switchCaseStat node)))
             (kind +:+ " '" +:+ lp.text expr +:+ "': ") ;;
      lift (Js.toString v)
  end.

(** The cases of a list are evaluated one after the other, from the first
    state to the second, and none yields the string [s]. *)
Inductive noneMatches (s : string) : list lp.SwitchCaseRuleContext -> State -> State -> Prop :=
| noneMatches_nil st : noneMatches s [] st st
| noneMatches_cons node rest st st1 st2 s' :
    statementString "Case" node st = (Returns s', st1) ->
    s' <> s ->
    noneMatches s rest st1 st2 ->
    noneMatches s (node :: rest) st st2.

End SwitchReading.

(** ** The collection: class [Templates]

    The methods below are those the properties are about.  The registry of
    exported functions ([injectToExpressionFunction], a table shared by the
    whole process), [evaluateText] and the iterator are left out. *)

Section Collection.

Context `{TemplateErrors} `{TemplateExtensions} `{Host}.

Definition newLine : string := String Str.cr (String Str.lf EmptyString).

(** [Array.from(new Set(l))]: the first occurrence of every object
    stays. *)
Fixpoint uniqueFrom {A} (ref : A -> nat) (seen : list nat) (l : list A) : list A :=
  match l with
  | [] => []
  | x :: rest =>
      if bool_decide (ref x ∈ seen) then uniqueFrom ref seen rest
      else x :: uniqueFrom ref (ref x :: seen) rest
  end.

Definition allTemplates (this : Templates) : list Template :=
  let result := foldl (fun result ref => (result ++ items ref)%list) (items this) (references this) in
  uniqueFrom template_ref [] result.

Definition allDiagnostics (this : Templates) : list Diagnostic :=
  let result :=
    foldl (fun result ref => (result ++ diagnostics ref)%list) (diagnostics this) (references this) in
  uniqueFrom diagnostic_ref [] result.

(** [checkErrors]: [Some e] when it throws [e]. *)
Definition checkErrors (this : Templates) : option exn :=
  let errors := filter (fun u => isError (severity u) = true) (allDiagnostics this) in
  if negb (length errors =? 0)%nat
  then Some (Error (Str.join newLine (map diagnosticToString errors)))
  else None.

Definition Templates_lgOptions (this : Templates) : EvaluationOptions :=
  newEvaluationOptions (options this).

Definition evalOptions (this : Templates) (opt : option EvaluationOptions)
    : EvaluationOptions :=
  match opt with
  | Some opt => merge opt (Templates_lgOptions this)
  | None => Templates_lgOptions this
  end.

(** [evaluate(templateName, scope, opt)]; the evaluator is a fresh object,
    dropped at the end. *)
Definition evaluate (fuel : nat) (this : Templates) (templateName : string)
    (scope : value) (opt : option EvaluationOptions) : outcome value :=
  match checkErrors this with
  | Some e => Throws e
  | None =>
      let evalOpt := evalOptions this opt in
      let evaluator := newEvaluator (allTemplates this) (expressionParser this) evalOpt in
      match evaluateTemplate fuel evaluator templateName (inl scope) initialState with
      | (Returns result, _) => Returns (normalizeLineBreaks evalOpt result)
      | (Throws e, _) => Throws e
      | (OutOfFuel, _) => OutOfFuel
      end
  end.

Definition expandTemplate (this : Templates) (templateName : string)
    (scope : value) (opt : option EvaluationOptions) : exn + list value :=
  match checkErrors this with
  | Some e => inl e
  | None =>
      Expander_expandTemplate (allTemplates this) (expressionParser this)
        (evalOptions this opt) templateName scope
  end.

Definition analyzeTemplate (this : Templates) (templateName : string) : exn + value :=
  match checkErrors this with
  | Some e => inl e
  | None => Analyzer_analyzeTemplate (allTemplates this) (expressionParser this) templateName
  end.

(** [globalTemplateFunction(templateName)(args)], the function registered
    for a template that a file exports: a fresh evaluator builds the scope
    and evaluates the template. *)
Definition globalTemplateFunction (fuel : nat) (this : Templates) (templateName : string)
    (args : list value) : outcome value :=
  let evaluator :=
    newEvaluator (allTemplates this) (expressionParser this) (Templates_lgOptions this) in
  fst ((newScope <- constructScope evaluator templateName args ;;
        evaluateTemplate fuel evaluator templateName (inr newScope)) initialState).

(** [this.items.find(u => u.name === templateName)] *)
Definition findTemplate (this : Templates) (templateName : string) : option Template :=
  List.find (fun u => String.eqb (name u) templateName) (items this).

(** [replaceRangeContent]; [replaceString] is [undefined] for a deletion
    and [join] writes an empty string for it. *)
Definition replaceRangeContent (originString : string) (startLine stopLine : Z)
    (replaceString : option string) : exn + string :=
  let originList := readLine originString in
  if (startLine <? 0)%Z || (stopLine <? startLine)%Z
     || (Z.of_nat (length originList) <=? stopLine)%Z
  then inl (Error "index out of range.")
  else
    let destList : list string :=
      (take (Z.to_nat startLine) originList
       ++ [default "" replaceString]
       ++ drop (Z.to_nat (stopLine + 1)) originList)%list in
    inr (Str.join newLine destList).

Definition convertTemplateBody (templateBody : string) : string :=
  if String.eqb templateBody "" then ""
  else
    let replaceList := readLine templateBody in
    let destList :=
      map (fun u => if Str.startsWith (Str.trimLeft u) "#"
                    then "- " +:+ Str.trimLeft u else u) replaceList in
    Str.join newLine destList.

Definition buildTemplateNameLine (templateName : string)
    (parameters : option (list string)) : string :=
  match parameters with
  | None => "# " +:+ templateName
  | Some parameters => "# " +:+ templateName +:+ "(" +:+ Str.join ", " parameters +:+ ")"
  end.

(** [initialize(templates)]: every field of [this] is taken from the
    collection just parsed. *)
Definition initialize (this templates : Templates) : Templates :=
  {| items := items templates; imports := imports templates;
     diagnostics := diagnostics templates; references := references templates;
     content := content templates; id := id templates;
     expressionParser := expressionParser templates;
     importResolver := importResolver templates; options := options templates |}.

(** The editing methods return [this]; their result here is what they
    throw, if they throw, and the state of [this] when they end. *)
Definition updateTemplate (this : Templates) (templateName newTemplateName : string)
    (parameters : option (list string)) (templateBody : string)
    : option exn * Templates :=
  match findTemplate this templateName with
  | None => (None, this)
  | Some template =>
      let templateNameLine := buildTemplateNameLine newTemplateName parameters in
      let newTemplateBody := convertTemplateBody templateBody in
      let content' := templateNameLine +:+ newLine +:+ newTemplateBody in
      let startLine := (Z.of_nat (line (range_start (range (sourceRange template)))) - 1)%Z in
      let stopLine := (Z.of_nat (line (range_end (range (sourceRange template)))) - 1)%Z in
      match replaceRangeContent (content this) startLine stopLine (Some content') with
      | inl e => (Some e, this)
      | inr newContent =>
          (None, initialize this (parseText newContent (id this) (importResolver this)))
      end
  end.

Definition addTemplate (this : Templates) (templateName : string)
    (parameters : option (list string)) (templateBody : string)
    : option exn * Templates :=
  match findTemplate this templateName with
  | Some _ => (Some (Error (templateExist templateName)), this)
  | None =>
      let templateNameLine := buildTemplateNameLine templateName parameters in
      let newTemplateBody := convertTemplateBody templateBody in
      let newContent :=
        content this +:+ newLine +:+ templateNameLine +:+ newLine +:+ newTemplateBody in
      (None, initialize this (parseText newContent (id this) (importResolver this)))
  end.

Definition deleteTemplate (this : Templates) (templateName : string)
    : option exn * Templates :=
  match findTemplate this templateName with
  | None => (None, this)
  | Some template =>
      let startLine := (Z.of_nat (line (range_start (range (sourceRange template)))) - 1)%Z in
      let stopLine := (Z.of_nat (line (range_end (range (sourceRange template)))) - 1)%Z in
      match replaceRangeContent (content this) startLine stopLine None with
      | inl e => (Some e, this)
      | inr newContent =>
          (None, initialize this (parseText newContent (id this) (importResolver this)))
      end
  end.

End Collection.

(** ** A concrete instance

    One choice of the collaborators, to run the definitions on concrete
    templates: the messages of the library, expressions that are a call
    [name()] without arguments, a call [name(x)] with a variable of the
    scope, or the name of a variable of the scope, and a random source
    that always draws the first candidate. *)

Module Example.

#[export] Instance errors : TemplateErrors :=
  {| templateNotExist n := "No such template '" +:+ n +:+ "'";
     templateExist n := "template " +:+ n +:+ " already exists.";
     loopDetected := "Loop detected:";
     invalidMemory := "Scope is not a LG customized memory.";
     nullExpression e := "'" +:+ e +:+ "' evaluated to null.";
     errorExpression text templateName prefix :=
       "[" +:+ templateName +:+ "] " +:+ prefix
       +:+ " Error occurred when evaluating '" +:+ text +:+ "'." |}.

(** [${ exp }] without its delimiters. *)
Definition trimDelimiters (exp : string) : string :=
  let e := Str.trim exp in
  if Str.startsWith e "${" && Str.endsWith e "}"
  then Str.trim (String.substring 2 (String.length e - 3) e)
  else e.

(** [\n] is a line feed; any other escaped character is itself. *)
Definition unescape (s : string) : string :=
  match s with
  | String "\" (String "n" EmptyString) => String Str.lf EmptyString
  | String "\" rest => rest
  | _ => s
  end.

(** The lines of a text, cut at line feeds. *)
Fixpoint linesFrom (current : string) (s : string) : list string :=
  match s with
  | EmptyString => [String.rev current]
  | String c rest =>
      if Ascii.eqb c Str.lf then String.rev current :: linesFrom "" rest
      else if Ascii.eqb c Str.cr then linesFrom current rest
      else linesFrom (String c current) rest
  end.

Definition pureExpression (item : lp.KeyValueStructureValueContext) : option string :=
  match lp.kv_children item with
  | [node] =>
      match lp.symbol_type node with
      | lp.EXPRESSION_IN_STRUCTURE_BODY => Some (lp.text node)
      | _ => None
      end
  | _ => None
  end.

(** Modelled from the spec: [CustomizedMemory.getValue] is outside the
    files at hand; the scope is "own variables over an inherited/global
    layer".  A variable is read in the local layer and, when it is not
    defined there, in the global layer. *)
Definition layerValue (m : option SimpleObjectMemory) (path : string) : value :=
  match m with
  | Some (wrap (VObject o)) => Js.read o path
  | _ => VUndefined
  end.

Definition getValue (scope : CustomizedMemory) (path : string) : value :=
  match layerValue (localMemory scope) path with
  | VUndefined => layerValue (globalMemory scope) path
  | v => v
  end.

(** The fingerprint of a call: the name and the local layer. *)
Definition fingerprint (templateName : string) (scope : CustomizedMemory) : string :=
  match localMemory scope with
  | Some (wrap v) => templateName +:+ Js.ToString v
  | None => templateName
  end.

#[export] Instance extensions : TemplateExtensions :=
  {| trimExpression := trimDelimiters;
     evalEscape := unescape;
     readLine := linesFrom "";
     isPureExpression := pureExpression;
     getPrefixErrorMessage _ := "";
     getId := fingerprint |}.

(** [name(x)] cut into [name] and [x]: the text before the first
    parenthesis, and the text after it without its last character. *)
Fixpoint callOf (exp : string) : option (string * string) :=
  match exp with
  | EmptyString => None
  | String c rest =>
      if Ascii.eqb c "("%char
      then Some (EmptyString, Str.substr0 (String.length rest - 1) rest)
      else match callOf rest with
           | Some (name, x) => Some (String c name, x)
           | None => None
           end
  end.

(** An expression [name()] calls [name] without arguments, an expression
    [name(x)] calls it with the value of the variable [x], and either
    yields what the call yields; any other text is a variable. *)
Definition parseExpression (exp : string)
    : exn + (CustomizedMemory -> EvaluationOptions -> Expression) :=
  if String.eqb exp "" then inl (Error "empty expression")
  else if Str.endsWith exp "()" then
    inr (fun _ _ =>
           Invoke (Str.substr0 (String.length exp - 2) exp) []
                  (fun v error => Done v error))
  else
    match (if Str.endsWith exp ")" then callOf exp else None) with
    | Some (name, x) =>
        inr (fun scope _ =>
               Invoke name [getValue scope x] (fun v error => Done v error))
    | None => inr (fun scope _ => Done (getValue scope exp) None)
    end.

Definition emptyParser : ExpressionParser := {| EvaluatorLookup _ := None |}.

Definition emptyTemplates : Templates :=
  {| items := []; imports := []; diagnostics := []; references := [];
     content := ""; id := ""; expressionParser := emptyParser;
     importResolver := None; options := [] |}.

(** The options of a file: the Markdown style and the strict mode are
    asked for by one option line each. *)
Definition readOptions (options : list string) : EvaluationOptions :=
  {| strictMode := bool_decide ("@strict = true" ∈ options);
     nullSubstitution := None;
     LineBreakStyle :=
       if bool_decide ("@lineBreakStyle = markdown" ∈ options) then Markdown else Default |}.

Definition quote : ascii := Ascii.ascii_of_nat 34.

Definition stringify (v : value) : option string :=
  match v with
  | VUndefined => None
  | VString s => Some (String quote s +:+ String quote EmptyString)
  | _ => Some (Js.ToString v)
  end.

#[export] Instance host : Host :=
  {| parse := parseExpression;
     noEvaluator type := type +:+ " does not have an evaluator";
     parseText _ _ _ := emptyTemplates;
     newEvaluationOptions := readOptions;
     merge opt _ := opt;
     diagnosticToString := diagnostic_message;
     JSON_stringify := stringify;
     Math_random _ := 0%nat;
     Expander_expandTemplate _ _ _ _ _ := inr [];
     Analyzer_analyzeTemplate _ _ _ := inr VUndefined |}.

(** Parse trees of small templates. *)
Definition token (t : lp.TokenType) (s : string) : lp.TerminalNode :=
  {| lp.symbol_type := t; lp.text := s |}.

(** [- text], where [nodes] are the tokens after the dash. *)
Definition normalString (nodes : list lp.TerminalNode) : lp.TemplateStringContext :=
  let children := token lp.DASH "-" :: nodes in
  {| lp.normalTemplateString :=
       Some {| lp.nts_children := children;
               lp.nts_text := Str.join "" (map lp.text children) |} |}.

Definition normalBody (candidates : list (list lp.TerminalNode)) : lp.NormalTemplateBodyContext :=
  {| lp.templateString := map normalString candidates |}.

Definition nowhere : SourceRange :=
  {| range := {| range_start := {| line := 1; character := 0 |};
                 range_end := {| line := 1; character := 0 |} |};
     source := "" |}.

Definition template (ref : nat) (n : string) (ps : list string) (body : lp.BodyContext)
    : Template :=
  {| template_ref := ref; name := n; parameters := ps;
     templateBodyParseTree := body; sourceRange := nowhere |}.

(** A template whose single candidate is the expression [${callee()}]. *)
Definition calling (ref : nat) (n callee : string) : Template :=
  template ref n []
    (lp.NormalBodyContext
       (normalBody [[token lp.EXPRESSION ("${" +:+ callee +:+ "()}")]])).

Definition collection (ts : list Template) (opts : list string) : Templates :=
  {| items := ts; imports := []; diagnostics := []; references := [];
     content := ""; id := ""; expressionParser := emptyParser;
     importResolver := None; options := opts |}.

Definition plain : EvaluationOptions :=
  {| strictMode := false; nullSubstitution := None; LineBreakStyle := Default |}.

Definition target (n : string) (ref : nat) : EvaluationTarget :=
  {| templateName := n;
     scope := {| globalMemory := None; localMemory := None |};
     evaluatedChildren := ref |}.

(** [- IF: ${cond}] or [- ELSE:], with one candidate under it. *)
Definition ifRule (cond : option string) (nodes : list lp.TerminalNode)
    : lp.IfConditionRuleContext :=
  {| lp.ifCondition :=
       {| lp.ic_EXPRESSION :=
            match cond with Some e => [token lp.EXPRESSION e] | None => [] end;
          lp.ic_text :=
            match cond with Some e => "IF: " +:+ e | None => "ELSE:" end |};
     lp.icr_normalTemplateBody := Some (normalBody [nodes]) |}.

(** A template that is [yes] when [${callee()}] holds and [no]
    otherwise. *)
Definition asking (ref : nat) (n callee yes no : string) : Template :=
  template ref n []
    (lp.IfElseBodyContext
       [ifRule (Some ("${" +:+ callee +:+ "()}")) [token lp.TEXT yes];
        ifRule None [token lp.TEXT no]]).

(** The first word of a switch node, and a node. *)
Definition switchRule (isDefault : bool) (keyword : string) (expr : option string)
    (nodes : list lp.TerminalNode) : lp.SwitchCaseRuleContext :=
  {| lp.switchCaseStat :=
       {| lp.DEFAULT := isDefault;
          lp.sc_EXPRESSION :=
            match expr with Some e => [token lp.EXPRESSION e] | None => [] end;
          lp.sc_text := keyword +:+ default "" expr |};
     lp.scr_normalTemplateBody :=
       match nodes with [] => None | _ => Some (normalBody [nodes]) end |}.

(** [- SWITCH: ${x}], [- CASE: ${p}] with [first], [- CASE: ${q}] with
    [second], [- DEFAULT:] with [other]. *)
Definition switching : list lp.SwitchCaseRuleContext :=
  [switchRule false "SWITCH:" (Some "${x}") [];
   switchRule false "CASE:" (Some "${p}") [token lp.TEXT "first"];
   switchRule false "CASE:" (Some "${q}") [token lp.TEXT "second"];
   switchRule true "DEFAULT:" None [token lp.TEXT "other"]].

(** A key/value line [key = text]. *)
Definition keyValue (key text : string) : lp.KeyValueStructureLineContext :=
  {| lp.STRUCTURE_IDENTIFIER := key;
     lp.keyValueStructureValue :=
       [{| lp.kv_children := [token lp.TEXT_IN_STRUCTURE_BODY text] |}];
     lp.kvl_text := key +:+ " = " +:+ text |}.

(** [[Card] with the lines [Title = x] and [title = y]. *)
Definition card : lp.StructuredTemplateBodyContext :=
  {| lp.STRUCTURE_NAME := "Card";
     lp.structuredBodyContentLine :=
       [lp.keyValueStructureLine (keyValue "Title" "x");
        lp.keyValueStructureLine (keyValue "title" "y")] |}.

Definition scopeOf (global local : Js.object) : CustomizedMemory :=
  {| globalMemory := Some (wrap (VObject global));
     localMemory := Some (wrap (VObject local)) |}.

(** A state whose stack holds frames of the given names, the first the
    oldest, with maps [0], [1], ... *)
Definition running (names : list string) (sc : CustomizedMemory) : State :=
  {| evaluationTargetStack :=
       imap (fun i n => {| templateName := n; scope := sc; evaluatedChildren := i |}) names;
     mapStore := ∅;
     allocated := length names;
     randomCalls := 0 |}.

Definition noScope : CustomizedMemory := {| globalMemory := None; localMemory := None |}.

(** [A] is [${B()}] and [B] is [${A()}]. *)
Definition looping : Evaluator :=
  newEvaluator [calling 1 "A" "B"; calling 2 "B" "A"] emptyParser plain.

(** [A] asks [B] and [B] asks [A], in conditions. *)
Definition askingEachOther : Evaluator :=
  newEvaluator [asking 1 "A" "B" "x" "y"; asking 2 "B" "A" "p" "q"] emptyParser plain.

Definition nl : string := String Str.lf EmptyString.

(** A template of two lines: [a], an escaped line feed, [b]. *)
Definition twoLines : Template :=
  template 3 "N" []
    (lp.NormalBodyContext
       (normalBody [[token lp.TEXT "a"; token lp.ESCAPE_CHARACTER "\n"; token lp.TEXT "b"]])).

(** [# greet(name)] with the body [- Hello, ${name}!]. *)
Definition greet : Template :=
  template 4 "greet" ["name"]
    (lp.NormalBodyContext
       (normalBody [[token lp.TEXT "Hello, "; token lp.EXPRESSION "${name}";
                     token lp.TEXT "!"]])).

Definition greeting : Evaluator := newEvaluator [greet] emptyParser plain.

(** The variables of the switch of [switching]. *)
Definition letters : CustomizedMemory :=
  scopeOf [("x", VString "b"); ("p", VString "a"); ("q", VString "b")] [].

(** A frame of [A] whose map holds a result for [B]. *)
Definition remembering : State :=
  {| evaluationTargetStack := [target "A" 0];
     mapStore := {[ 0%nat := {[ "B" := VString "kept" ]} ]};
     allocated := 1;
     randomCalls := 0 |}.

(** The scope of a call of [evaluate] without scope, and the frames of such
    a run. *)
Definition topScope : CustomizedMemory := toCustomizedMemory (inl VUndefined).

Definition frame (n : string) (ref : nat) : EvaluationTarget :=
  {| templateName := n; scope := topScope; evaluatedChildren := ref |}.

(** The state in which the body of [A] is visited when the evaluation
    starts with [A], and the state in which the body of [B] is visited when
    [A] calls it from there. *)
Definition insideA : State := entered initialState "A" (inl VUndefined).
Definition insideB : State := entered insideA "B" (inr topScope).

(** [A] asks [B] and, when [B] holds, calls itself. *)
Definition recalling : Template :=
  template 1 "A" []
    (lp.IfElseBodyContext
       [ifRule (Some "${B()}") [token lp.EXPRESSION "${A()}"];
        ifRule None [token lp.TEXT "y"]]).

Definition failed : Diagnostic :=
  {| diagnostic_ref := 1; severity := SeverityError;
     diagnostic_range := range nowhere; diagnostic_message := "duplicate template" |}.

Definition warned : Diagnostic :=
  {| diagnostic_ref := 2; severity := SeverityWarning;
     diagnostic_range := range nowhere; diagnostic_message := "empty template" |}.

(** A collection without error of its own, which imports a file with one. *)
Definition importing (ds : list Diagnostic) : Templates :=
  {| items := [calling 1 "A" "B"]; imports := []; diagnostics := [warned];
     references := [{| items := []; imports := []; diagnostics := ds; references := [];
                       content := ""; id := "imported"; expressionParser := emptyParser;
                       importResolver := None; options := [] |}];
     content := ""; id := ""; expressionParser := emptyParser;
     importResolver := None; options := [] |}.

End Example.

(** * More of the evaluator and of the collection

    The methods of the two classes that the sections above leave out, as
    far as they stay within the files at hand. *)

(** ** Validation of a template reference *)

(** The message of [TemplateErrors] for a call with the wrong number of
    arguments. *)
Class ValidationErrors : Type :=
  { argumentMismatch : string -> nat -> nat -> string }.

(** [checkTemplateReference(templateName, children)]: [Some e] when it
    throws [e]. *)
Definition checkTemplateReference `{TemplateErrors} `{ValidationErrors}
    (this : Evaluator) (templateName : string) (children : list Expression)
    : option exn :=
  if negb (inTemplateMap this templateName)
  then Some (Error (templateNotExist templateName))
  else
    match templateMap this !! templateName with
    | None => Some (TypeError "Cannot read property 'length' of undefined")
    | Some template =>
        let expectedArgsCount := length (parameters template) in
        let actualArgsCount := length children in
        if negb (actualArgsCount =? 0)%nat && negb (expectedArgsCount =? actualArgsCount)%nat
        then Some (Error (argumentMismatch templateName expectedArgsCount actualArgsCount))
        else None
    end.

(** ** Options of a file *)

(** [s.indexOf(c)] for a character; [None] stands for [-1]. *)
Fixpoint indexOf (c : ascii) (s : string) : option nat :=
  match s with
  | EmptyString => None
  | String c' rest =>
      if Ascii.eqb c' c then Some 0%nat
      else match indexOf c rest with Some i => Some (S i) | None => None end
  end.

(** One turn of the loop of [extractOptionByKey]. *)
Definition extractOptionStep (nameOfKey : string) (result : option string)
    (anOption : string) : option string :=
  if negb (String.eqb nameOfKey "") then
    match indexOf "="%char anOption with
    | Some index =>
        let key := Str.toLowerCase (Str.trim (Str.substr0 index anOption)) in
        let value := Str.trim (Str.substringFrom (index + 1) anOption) in
        if String.eqb key nameOfKey then Some value else result
    | None => result
    end
  else result.

(** [extractOptionByKey(nameOfKey, options)]; [None] is [undefined]. *)
Definition extractOptionByKey (nameOfKey : string) (options : list string)
    : option string :=
  foldl (extractOptionStep nameOfKey) None options.

(** ** Lines of a template body *)

(** What [convertTemplateBody] does to one line. *)
Definition convertLine (u : string) : string :=
  if Str.startsWith (Str.trimLeft u) "#" then "- " +:+ Str.trimLeft u else u.

(** ** Text of a template string *)

(** The pieces that [visitNormalTemplateString] pushes for the tokens that
    are no expression. *)
Fixpoint literalPieces `{TemplateExtensions} (children : list lp.TerminalNode)
    : list string :=
  match children with
  | [] => []
  | node :: rest =>
      match lp.symbol_type node with
      | lp.MULTILINE_SUFFIX | lp.MULTILINE_PREFIX | lp.DASH => literalPieces rest
      | lp.ESCAPE_CHARACTER => evalEscape (lp.text node) :: literalPieces rest
      | _ => lp.text node :: literalPieces rest
      end
  end.

(** A template string without expression. *)
Definition textOnly (children : list lp.TerminalNode) : Prop :=
  forall node, node ∈ children -> lp.symbol_type node <> lp.EXPRESSION.

(** ** Inline text *)

(** [TemplatesParser.parseTextWithRef(content, lg)] *)
Class TemplatesParserWithRef : Type :=
  { parseTextWithRef : string -> Templates -> Templates }.

(** [s.includes('\n')] *)
Fixpoint includesLineFeed (s : string) : bool :=
  match s with
  | EmptyString => false
  | String c rest => Ascii.eqb c Str.lf || includesLineFeed rest
  end.

(** The text of [evaluateText] between its checks and the parser: the
    inline string, put between marks of a multi-line text unless it has
    them, under the name of a template. *)
Definition wrapInline (inlineStr : string) : string :=
  let fakeTemplateId := "__temp__" in
  let multiLineMark := "```" in
  let inlineStr :=
    if negb (Str.startsWith (Str.trim inlineStr) multiLineMark && includesLineFeed inlineStr)
    then multiLineMark +:+ inlineStr +:+ multiLineMark
    else inlineStr in
  "#" +:+ fakeTemplateId +:+ " " +:+ newLine +:+ " - " +:+ inlineStr.

(** [evaluateText(inlineStr, scope, opt)]; [None] is an [undefined] inline
    string. *)
Definition evaluateText `{TemplateErrors} `{TemplateExtensions} `{Host}
    `{TemplatesParserWithRef} (fuel : nat) (this : Templates)
    (inlineStr : option string) (scope : value) (opt : option EvaluationOptions)
    : outcome value :=
  match inlineStr with
  | None => Throws (Error "inline string is empty")
  | Some inlineStr =>
      match checkErrors this with
      | Some e => Throws e
      | None =>
          let newContent := wrapInline inlineStr in
          let newTemplates := parseTextWithRef newContent this in
          let evalOpt := evalOptions this opt in
          evaluate fuel newTemplates "__temp__" scope (Some evalOpt)
      end
  end.

(** ** Reading of a conditional body

    The rules of a list are tried one after the other, from the first state
    to the second, and none applies: its condition is false, or it has no
    body. *)

Section ConditionReading.

Context `{TemplateErrors} `{TemplateExtensions} `{Host}.

Variable this : Evaluator.
Variable evaluateTemplate : string -> ScopeArgument -> M value.

Inductive noRuleApplies : list lp.IfConditionRuleContext -> State -> State -> Prop :=
| noRuleApplies_nil st : noRuleApplies [] st st
| noRuleApplies_cons rule rest st st1 st2 c :
    evalCondition this evaluateTemplate (lp.ifCondition rule) st = (Returns c, st1) ->
    c = false \/ lp.icr_normalTemplateBody rule = None ->
    noRuleApplies rest st1 st2 ->
    noRuleApplies (rule :: rest) st st2.

End ConditionReading.

(** ** Invariants of the state of the evaluator *)

(** A computation keeps a property of the state: it holds after the
    computation, whatever its outcome, when it holds before. *)
Definition keeps {A} (I : State -> Prop) (m : M A) : Prop :=
  forall st r st', I st -> m st = (r, st') -> I st'.

(** A property that the operations of the evaluator on its state keep:
    [pop], [reverse], the allocation of a map, [set] on a map, a random
    draw, and the entry into a template whose name is in the template map
    and is not on the stack. *)
Record Invariant (this : Evaluator) (I : State -> Prop) : Prop :=
  { inv_pop : forall st, I st -> I (snd (pop st));
    inv_reverse : forall st, I st -> I (snd (reverseInPlace st));
    inv_newMap : forall st, I st -> I (snd (newMap st));
    inv_mapSet : forall st r k v, I st -> I (snd (mapSet r k v st));
    inv_random :
      forall st, I st ->
        I {| evaluationTargetStack := evaluationTargetStack st;
             mapStore := mapStore st; allocated := allocated st;
             randomCalls := S (randomCalls st) |};
    inv_enter :
      forall st n scope,
        I st -> someNamed (evaluationTargetStack st) n = false ->
        inTemplateMap this n = true ->
        I (entered st n scope) }.

(** The frames of the stack have names that differ from one another and
    that are in the template map (in the sense of [in]), and maps that
    differ from one another and that are allocated. *)
Definition wellFormed (this : Evaluator) (st : State) : Prop :=
  NoDup (map templateName (evaluationTargetStack st))
  /\ (forall u, u ∈ evaluationTargetStack st ->
                inTemplateMap this (templateName u) = true)
  /\ NoDup (map evaluatedChildren (evaluationTargetStack st))
  /\ (forall u, u ∈ evaluationTargetStack st -> evaluatedChildren u < allocated st).

(** ** The templates a file exports *)

Definition namespaceKey : string := "@namespace".
Definition exportsKey : string := "@exports".

(** [s.split(c)] for a separator of one character. *)
Fixpoint split (c : ascii) (s : string) : list string :=
  match s with
  | EmptyString => [EmptyString]
  | String c' rest =>
      if Ascii.eqb c' c then EmptyString :: split c rest
      else
        match split c rest with
        | first :: others => String c' first :: others
        | [] => [String c' EmptyString]
        end
  end.

(** [getGlobalFunctionTable(options)] *)
Definition getGlobalFunctionTable (options : list string) : list string :=
  match extractOptionByKey exportsKey options with
  | Some value =>
      if negb (String.eqb value "") then map Str.trim (split ","%char value) else []
  | None => []
  end.

(** ** The collection as a sequence *)

(** [toArray()] and [push(...args)]; [push] changes the templates of the
    collection and nothing else. *)
Definition toArray (this : Templates) : list Template := items this.

Definition Templates_push (this : Templates) (args : list Template) : Templates :=
  foldl (fun this t =>
           {| items := (items this ++ [t])%list; imports := imports this;
              diagnostics := diagnostics this; references := references this;
              content := content this; id := id this;
              expressionParser := expressionParser this;
              importResolver := importResolver this; options := options this |})
        this args.

(** The iterator of the collection is its index; [next] reads the
    templates the collection has when it is called. *)
Record IteratorResult : Type :=
  { iterator_done : bool; iterator_value : option Template }.

Definition iterator_next (this : Templates) (index : nat) : IteratorResult * nat :=
  if (index <? length (items this))%nat
  then ({| iterator_done := false; iterator_value := items this !! index |}, S index)
  else ({| iterator_done := true; iterator_value := None |}, index).

(** A loop [for (const t of templates)] that gathers the values it is
    given; [fuel] bounds the number of its turns. *)
Fixpoint forOf (fuel : nat) (this : Templates) (index : nat) : list (option Template) :=
  match fuel with
  | O => []
  | S fuel =>
      let '(result, index) := iterator_next this index in
      if iterator_done result then []
      else iterator_value result :: forOf fuel this index
  end.

(** ** The functions a file registers

    [Expression.functions] is a table of the expression language, shared
    by the whole process: [add] puts a function under a name, in the
    place of the one that the name had.  The table is a map here, from a
    name to the function handed to [ExpressionFunctions.apply];
    [isAbsolute] and [basename] are those of the module [path]. *)

Class PathModule : Type :=
  { isAbsolute : string -> bool;
    basename : string -> string }.

Abbreviation FunctionTable := (gmap string (list value -> outcome value)).

Section Registration.

Context `{TemplateErrors} `{TemplateExtensions} `{Host} `{PathModule}.

(** [extractNamespace(options)] *)
Definition extractNamespace (this : Templates) (options : list string) : exn + string :=
  let result := extractOptionByKey namespaceKey options in
  if negb (String.eqb (default "" result) "") then inr (default "" result)
  else if isAbsolute (id this)
  then inr (default "" (head (split "."%char (basename (id this)))))
  else inl (Error ("namespace is required or the id should be an absoulte path!"
                   +:+ String (Ascii.ascii_of_nat 34) EmptyString)).

(** The getter [namespace]. *)
Definition Templates_namespace (this : Templates) : exn + string :=
  extractNamespace this (options this).

(** The inner loop of [injectToExpressionFunction], over the exported
    names of one collection; [fuel] is that of the evaluations that the
    registered functions start. *)
Fixpoint addGlobalFunctions (fuel : nat) (this curTemplates : Templates)
    (globalFuncs : list string) (functions : FunctionTable)
    : option exn * FunctionTable :=
  match globalFuncs with
  | [] => (None, functions)
  | templateName :: rest =>
      match findTemplate curTemplates templateName with
      | Some _ =>
          match Templates_namespace curTemplates with
          | inl e => (Some e, functions)
          | inr namespace =>
              let newGlobalName := namespace +:+ "." +:+ templateName in
              addGlobalFunctions fuel this curTemplates rest
                (<[newGlobalName := globalTemplateFunction fuel this templateName]> functions)
          end
      | None => addGlobalFunctions fuel this curTemplates rest functions
      end
  end.

(** The outer loop, over the collection and its references. *)
Fixpoint injectInto (fuel : nat) (this : Templates) (totalTemplates : list Templates)
    (functions : FunctionTable) : option exn * FunctionTable :=
  match totalTemplates with
  | [] => (None, functions)
  | curTemplates :: rest =>
      let globalFuncs := getGlobalFunctionTable (options curTemplates) in
      match addGlobalFunctions fuel this curTemplates globalFuncs functions with
      | (Some e, functions) => (Some e, functions)
      | (None, functions) => injectInto fuel this rest functions
      end
  end.

(** [injectToExpressionFunction()], which the constructor and the parsing
    functions call: what it throws, if it throws, and the table when it
    ends. *)
Definition injectToExpressionFunction (fuel : nat) (this : Templates)
    (functions : FunctionTable) : option exn * FunctionTable :=
  injectInto fuel this (this :: references this) functions.

(** What a table holds under a name after a registration started from
    [functions]: what it held, or the function of an exported name that
    is a template of its file, under the namespace of the file. *)
Definition registered (fuel : nat) (this : Templates) (functions table : FunctionTable)
    (name : string) : Prop :=
  table !! name = functions !! name
  \/ exists curTemplates templateName namespace,
      curTemplates ∈ this :: references this
      /\ templateName ∈ getGlobalFunctionTable (options curTemplates)
      /\ is_Some (findTemplate curTemplates templateName)
      /\ Templates_namespace curTemplates = inr namespace
      /\ name = namespace +:+ "." +:+ templateName
      /\ table !! name = Some (globalTemplateFunction fuel this templateName).

End Registration.

(** ** More concrete instances *)

Module Samples.

Import Example.

#[export] Instance validation : ValidationErrors :=
  {| argumentMismatch n expected actual :=
       "arguments mismatch for template '" +:+ n +:+ "'" |}.

(** A parser of inline texts that makes one template of the text after
    the first line, with the templates of the collection as references. *)
Definition inlineTemplates (newContent : string) (lg : Templates) : Templates :=
  {| items :=
       [template 9 "__temp__" []
          (lp.NormalBodyContext
             (normalBody [[token lp.TEXT (Str.join "" (tail (linesFrom "" newContent)))]]))];
     imports := []; diagnostics := []; references := lg :: references lg;
     content := newContent; id := "inline"; expressionParser := expressionParser lg;
     importResolver := importResolver lg; options := options lg |}.

#[export] Instance inlineParser : TemplatesParserWithRef :=
  {| parseTextWithRef := inlineTemplates |}.

(** Paths as on a POSIX system; the base name of an id is taken to be the
    id. *)
#[export] Instance paths : PathModule :=
  {| isAbsolute s := Str.startsWith s "/"; basename s := s |}.

(** A file that exports [greet] and [other] under the namespace [my], and
    has the template [greet]. *)
Definition exporting : Templates :=
  collection [greet] ["@namespace = my"; "@exports = greet, other"].

Definition strict : EvaluationOptions :=
  {| strictMode := true; nullSubstitution := None; LineBreakStyle := Default |}.

(** [A] is [yes] when [${flag}] holds and [no] otherwise, in strict mode. *)
Definition choosing : Evaluator :=
  newEvaluator
    [template 1 "A" []
       (lp.IfElseBodyContext
          [ifRule (Some "${flag}") [token lp.TEXT "yes"];
           ifRule None [token lp.TEXT "no"]])]
    emptyParser strict.

Definition flagged (b : bool) : CustomizedMemory := scopeOf [("flag", VBool b)] [].

(** Two candidates without expression. *)
Definition hello : lp.NormalTemplateBodyContext :=
  normalBody [[token lp.TEXT "Hi"; token lp.ESCAPE_CHARACTER "\!"];
              [token lp.TEXT "Hello"]].

(** Two templates of one name. *)
Definition twice : list Template :=
  [template 1 "A" [] (lp.NormalBodyContext (normalBody [[token lp.TEXT "old"]]));
   template 2 "A" ["x"] (lp.NormalBodyContext (normalBody [[token lp.TEXT "new"]]))].

(** A text of three lines. *)
Definition threeLines : string := "# A" +:+ nl +:+ "- a" +:+ nl +:+ "# B".

(** [- ELSEIF: ${cond}], with one candidate under it. *)
Definition elseIfRule (e : string) (nodes : list lp.TerminalNode)
    : lp.IfConditionRuleContext :=
  {| lp.ifCondition :=
       {| lp.ic_EXPRESSION := [token lp.EXPRESSION e];
          lp.ic_text := "ELSEIF: " +:+ e |};
     lp.icr_normalTemplateBody := Some (normalBody [nodes]) |}.

(** [A] is [${B()}].  [B] asks [C], then [A], then [C] once more, and is
    [none] when none of them holds.  [C] is [${f}]. *)
Definition asksTwice : list Template :=
  [calling 1 "A" "B";
   template 2 "B" []
     (lp.IfElseBodyContext
        [ifRule (Some "${C()}") [token lp.TEXT "first"];
         elseIfRule "${A()}" [token lp.TEXT "loop"];
         elseIfRule "${C()}" [token lp.TEXT "second"];
         ifRule None [token lp.TEXT "none"]]);
   template 3 "C" [] (lp.NormalBodyContext (normalBody [[token lp.EXPRESSION "${f}"]]))].

Definition askingTwice : Evaluator := newEvaluator asksTwice emptyParser plain.

(** The scope of a call of [evaluate] with [f] false, and the state in
    which the body of [B] is visited when the evaluation starts with [A]
    in this scope: the frame of [A], the draw of the candidate of [A],
    the frame of [B]. *)
Definition unset : value := VObject [("f", VBool false)].
Definition unsetScope : CustomizedMemory := toCustomizedMemory (inl unset).
Definition enteredB : State :=
  entered (snd (randomBelow 1 (entered initialState "A" (inl unset)))) "B"
    (inr unsetScope).

(** [T] is [${A(n)}].  [A(y)] asks [T] and is [${B(m)}] when [T] does not
    hold.  [B(x)] asks [A] and is [${y}] when [A] does not hold. *)
Definition borrowing : list Template :=
  [template 1 "T" []
     (lp.NormalBodyContext (normalBody [[token lp.EXPRESSION "${A(n)}"]]));
   template 2 "A" ["y"]
     (lp.IfElseBodyContext
        [ifRule (Some "${T()}") [token lp.TEXT "p"];
         ifRule None [token lp.EXPRESSION "${B(m)}"]]);
   template 3 "B" ["x"]
     (lp.IfElseBodyContext
        [ifRule (Some "${A()}") [token lp.TEXT "q"];
         ifRule None [token lp.EXPRESSION "${y}"]])].

(** The same without the questions: [A(y)] is [${B(m)}] and [B(x)] is
    [${y}]. *)
Definition passing : list Template :=
  [template 1 "T" []
     (lp.NormalBodyContext (normalBody [[token lp.EXPRESSION "${A(n)}"]]));
   template 2 "A" ["y"]
     (lp.NormalBodyContext (normalBody [[token lp.EXPRESSION "${B(m)}"]]));
   template 3 "B" ["x"]
     (lp.NormalBodyContext (normalBody [[token lp.EXPRESSION "${y}"]]))].

Definition numbers : value := VObject [("n", VNumber 5); ("m", VNumber 1)].



(** [[Card] with the lines [Title = x] and [__proto__ = y]. *)
Definition protoCard : lp.StructuredTemplateBodyContext :=
  {| lp.STRUCTURE_NAME := "Card";
     lp.structuredBodyContentLine :=
       [lp.keyValueStructureLine (keyValue "Title" "x");
        lp.keyValueStructureLine (keyValue "__proto__" "y")] |}.

End Samples.

(** * Properties *)

(** ** Objects *)

Module JsFacts.

Lemma get_set_eq (o : Js.object) k v : Js.get (Js.set o k v) k = Some v.
Proof.
  induction o as [|[k' v'] o IH]; simpl.
  - by rewrite String.eqb_refl.
  - destruct (String.eqb k' k) eqn:E; simpl; rewrite E; [done | apply IH].
Qed.

Lemma get_set_ne (o : Js.object) k k' v :
  k ≠ k' → Js.get (Js.set o k v) k' = Js.get o k'.
Proof.
  intros Hne. induction o as [|[k0 v0] o IH]; simpl.
  - destruct (String.eqb k k') eqn:E; [|done].
    apply String.eqb_eq in E. contradiction.
  - destruct (String.eqb k0 k) eqn:E; simpl.
    + apply String.eqb_eq in E. subst k0.
      destruct (String.eqb k k') eqn:E'; [|done].
      apply String.eqb_eq in E'. contradiction.
    + destruct (String.eqb k0 k'); [done | apply IH].
Qed.

Lemma hasOwnProperty_true (o : Js.object) k :
  Js.hasOwnProperty o k = true ↔ is_Some (Js.get o k).
Proof.
  unfold Js.hasOwnProperty. destruct (Js.get o k); split; intros Hx; eauto; try done.
  all: by destruct Hx.
Qed.

Lemma has_false (o : Js.object) k :
  Js.has o k = false ↔ Js.get o k = None ∧ Js.inherited k = false.
Proof.
  unfold Js.has, Js.hasOwnProperty. rewrite orb_false_iff.
  destruct (Js.get o k); split; intros [? ?]; done.
Qed.

Lemma inherited_true k : Js.inherited k = true ↔ k ∈ Js.prototypeNames.
Proof. unfold Js.inherited. apply bool_decide_eq_true. Qed.

Lemma assign_other (o o' : Js.object) k v k' :
  Js.assign o k v = Some o' → k' ≠ k → Js.get o' k' = Js.get o k'.
Proof.
  unfold Js.assign. intros Hassign Hne.
  destruct (String.eqb k "__proto__" && negb (Js.hasOwnProperty o k)).
  - destruct (Js.isObjectType v); [done|]. by injection Hassign as <-.
  - injection Hassign as <-. apply get_set_ne. by intros ->.
Qed.

Lemma assign_stores (o o' : Js.object) k v :
  Js.assign o k v = Some o' → k ≠ "__proto__" → Js.get o' k = Some v.
Proof.
  unfold Js.assign. intros Hassign Hne.
  rewrite (proj2 (String.eqb_neq _ _) Hne) in Hassign. injection Hassign as <-.
  apply get_set_eq.
Qed.

Lemma assign_proto (o o' : Js.object) v :
  Js.get o "__proto__" = None → Js.assign o "__proto__" v = Some o' → o' = o.
Proof.
  unfold Js.assign, Js.hasOwnProperty. intros ->. cbn.
  destruct (Js.isObjectType v); [done|]. by intros [= <-].
Qed.

Lemma mergeKeys_keeps (result o : Js.object) keys k v :
  Js.get result k = Some v → Js.get (mergeKeys result o keys) k = Some v.
Proof.
  revert result. induction keys as [|key keys IH]; intros result Hk; simpl; [done|].
  destruct (Js.hasOwnProperty o key && negb (Js.has result key)) eqn:E; [|by apply IH].
  apply IH. apply andb_true_iff in E as [_ E]. apply negb_true_iff in E.
  apply has_false in E as [E _].
  rewrite get_set_ne; [done|]. intros ->. by rewrite Hk in E.
Qed.

Lemma mergeReference_keeps result typeName propertyObject result' k v :
  mergeReference result typeName propertyObject = inr result' →
  Js.get result k = Some v → Js.get result' k = Some v.
Proof.
  unfold mergeReference. intros Hm Hk.
  destruct propertyObject; try (injection Hm as <-; done); try done.
  destruct (Js.has props LGType); [|by injection Hm as <-].
  destruct (Js.toString _); [done|].
  destruct (String.eqb _ _); [|by injection Hm as <-].
  destruct (Js.hasOwnProperty props "hasOwnProperty"); [done|].
  injection Hm as <-. by apply mergeKeys_keeps.
Qed.

Lemma mergeKeys_inherited (result o : Js.object) keys k :
  Js.inherited k = true → Js.get (mergeKeys result o keys) k = Js.get result k.
Proof.
  intros Hk. revert result. induction keys as [|key keys IH]; intros result; [done|].
  cbn [mergeKeys].
  destruct (Js.hasOwnProperty o key && negb (Js.has result key)) eqn:E; [|apply IH].
  rewrite IH. apply get_set_ne. intros ->.
  apply andb_true_iff in E as [_ E]. apply negb_true_iff, has_false in E as [_ E].
  congruence.
Qed.

Lemma mergeReference_inherited result typeName propertyObject result' k :
  mergeReference result typeName propertyObject = inr result' →
  Js.inherited k = true → Js.get result' k = Js.get result k.
Proof.
  unfold mergeReference. intros Hm Hk.
  destruct propertyObject; try (injection Hm as <-; done); try done.
  destruct (Js.has props LGType); [|by injection Hm as <-].
  destruct (Js.toString _); [done|].
  destruct (String.eqb _ _); [|by injection Hm as <-].
  destruct (Js.hasOwnProperty props "hasOwnProperty"); [done|].
  injection Hm as <-. by apply mergeKeys_inherited.
Qed.

End JsFacts.

Module StrFacts.

Lemma lowerChar_not_upper c : Str.isUpper (Str.lowerChar c) = false.
Proof. destruct c as [[] [] [] [] [] [] [] []]; reflexivity. Qed.

Lemma toLowerCase_no_upper s c :
  c ∈ list_ascii_of_string (Str.toLowerCase s) → Str.isUpper c = false.
Proof.
  induction s as [|c0 s IH]; simpl.
  - by intros ?%elem_of_nil.
  - intros [->|Hin]%elem_of_cons; [apply lowerChar_not_upper | by apply IH].
Qed.

Lemma toLowerCase_not_LGType s : Str.toLowerCase s ≠ LGType.
Proof.
  intros Heq.
  assert (Hin : ("T"%char : ascii) ∈ list_ascii_of_string (Str.toLowerCase s)).
  { rewrite Heq. vm_compute. set_solver. }
  apply toLowerCase_no_upper in Hin. discriminate.
Qed.

End StrFacts.

(** ** The collection *)

Section CollectionFacts.

Context `{TemplateErrors} `{TemplateExtensions} `{Host}.

Lemma findTemplate_None (this : Templates) n :
  (∀ t, t ∈ items this → name t ≠ n) → findTemplate this n = None.
Proof.
  unfold findTemplate. induction (items this) as [|t ts IH]; intros Hall; simpl; [done|].
  destruct (String.eqb (name t) n) eqn:E.
  - apply String.eqb_eq in E. exfalso. apply (Hall t); [left | done].
  - apply IH. intros t' Hin. apply Hall. by right.
Qed.

Lemma findTemplate_Some (this : Templates) n :
  (∃ t, t ∈ items this ∧ name t = n) → is_Some (findTemplate this n).
Proof.
  unfold findTemplate. intros (t & Hin & Hn).
  induction (items this) as [|t0 ts IH]; simpl.
  - by apply elem_of_nil in Hin.
  - destruct (String.eqb (name t0) n) eqn:E; [by eexists|].
    apply elem_of_cons in Hin as [->|Hin]; [|by apply IH].
    apply String.eqb_neq in E. contradiction.
Qed.

(** C8.  For a name that no template of the collection has,
    [updateTemplate] and [deleteTemplate] end without throwing and leave
    every field of the collection as it was (the collection returned is
    the receiver); for a name that a template of the collection has,
    [addTemplate] throws the template-exists error and leaves the
    collection as it was. *)
Theorem edit_of_missing_or_existing_name (this : Templates) (n : string) :
  ((∀ t, t ∈ items this → name t ≠ n) →
     (∀ newName parameters body,
        updateTemplate this n newName parameters body = (None, this))
     ∧ deleteTemplate this n = (None, this))
  ∧ ((∃ t, t ∈ items this ∧ name t = n) →
     ∀ parameters body,
       addTemplate this n parameters body = (Some (Error (templateExist n)), this)).
Proof.
  split.
  - intros Hno. apply findTemplate_None in Hno.
    unfold updateTemplate, deleteTemplate. rewrite Hno. done.
  - intros Hex parameters body. apply findTemplate_Some in Hex as [t Ht].
    unfold addTemplate. by rewrite Ht.
Qed.

Lemma elem_of_uniqueFrom {A} (ref : A → nat) (seen : list nat) (l : list A) (x : A) :
  (∀ a b, a ∈ l → b ∈ l → ref a = ref b → a = b) →
  x ∈ uniqueFrom ref seen l ↔ x ∈ l ∧ ref x ∉ seen.
Proof.
  revert seen. induction l as [|a l IH]; intros seen Hinj; simpl.
  - split; [by intros ?%elem_of_nil | by intros [?%elem_of_nil _]].
  - assert (Hinj' : ∀ a b, a ∈ l → b ∈ l → ref a = ref b → a = b).
    { intros u v Hu Hv. apply Hinj; by right. }
    case_bool_decide as Hseen; cbv iota.
    + split.
      * intros [Hin Hns]%IH; [|done]. split; [by right | done].
      * intros [[->|Hin]%elem_of_cons Hns]; [contradiction|]. by apply IH.
    + split.
      * intros [->|[Hin Hns]%IH]%elem_of_cons; [by split; [left|] | | done].
        split; [by right|]. intros Hs. apply Hns. by right.
      * intros [[->|Hin]%elem_of_cons Hns]; [by left|].
        destruct (decide (ref x = ref a)) as [Heq|Hne].
        -- assert (x = a) as -> by (apply Hinj; [by right | by left | done]).
           by left.
        -- right. apply IH; [done|]. split; [done|]. by intros [?|?]%elem_of_cons.
Qed.

Lemma elem_of_foldl_app {A B} (f : B → list A) (init : list A) (l : list B) (x : A) :
  x ∈ foldl (fun result r => (result ++ f r)%list) init l
  ↔ x ∈ init ∨ ∃ r, r ∈ l ∧ x ∈ f r.
Proof.
  revert init. induction l as [|b l IH]; intros init; simpl.
  - split; [by left | intros [?|(r & ?%elem_of_nil & _)]; done].
  - split.
    + intros [[?|?]%elem_of_app|(r & Hr & Hx)]%IH;
        [by left | right; exists b; split; [by left | done] |].
      right. exists r. split; [by right | done].
    + intros Hx. apply IH.
      destruct Hx as [?|(r & [->|Hr]%elem_of_cons & Hx)].
      * left. apply elem_of_app. by left.
      * left. apply elem_of_app. by right.
      * right. by exists r.
Qed.

(** The diagnostics gathered by [allDiagnostics] are those of the
    collection and of its references, when [diagnostic_ref] tells the
    objects apart. *)
Lemma elem_of_allDiagnostics (this : Templates) (d : Diagnostic) :
  (∀ a b,
     a ∈ foldl (fun result r => (result ++ diagnostics r)%list)
           (diagnostics this) (references this) →
     b ∈ foldl (fun result r => (result ++ diagnostics r)%list)
           (diagnostics this) (references this) →
     diagnostic_ref a = diagnostic_ref b → a = b) →
  d ∈ allDiagnostics this
  ↔ d ∈ diagnostics this ∨ ∃ r, r ∈ references this ∧ d ∈ diagnostics r.
Proof.
  intros Hinj. unfold allDiagnostics. split.
  - intros [Hd _]%elem_of_uniqueFrom; [|done]. by apply elem_of_foldl_app in Hd.
  - intros Hd. apply elem_of_uniqueFrom; [done|].
    split; [by apply elem_of_foldl_app | by intros ?%elem_of_nil].
Qed.

Lemma checkErrors_Some (this : Templates) :
  (∃ d, d ∈ allDiagnostics this ∧ severity d = SeverityError) →
  is_Some (checkErrors this).
Proof.
  intros (d & Hin & Hsev). unfold checkErrors.
  assert (Hd : d ∈ filter (fun u => isError (severity u) = true) (allDiagnostics this)).
  { apply list_elem_of_filter. split; [by rewrite Hsev | done]. }
  destruct (filter _ _) as [|e errors]; [by apply elem_of_nil in Hd|].
  simpl. by eexists.
Qed.

Lemma checkErrors_None (this : Templates) :
  (∀ d, d ∈ allDiagnostics this → severity d ≠ SeverityError) →
  checkErrors this = None.
Proof.
  intros Hall. unfold checkErrors.
  destruct (filter _ _) as [|e errors] eqn:E; [done|].
  assert (He : e ∈ filter (fun u => isError (severity u) = true) (allDiagnostics this)).
  { rewrite E. by left. }
  apply list_elem_of_filter in He as [Hsev Hin].
  exfalso. apply (Hall e Hin). by destruct (severity e).
Qed.

(** C9.  When the diagnostics of the collection and of its references
    hold one of severity Error, [evaluate], [expandTemplate] and
    [analyzeTemplate] throw the same error whatever the template, the
    scope and the options are, and whatever the evaluator, the expander
    and the analyzer would do: nothing of them is run.  When they hold
    none, the check passes and each operation is the run of its
    evaluator, expander or analyzer on all the templates. *)
Theorem checkErrors_guards_the_operations (this : Templates) :
  ((∃ d, d ∈ allDiagnostics this ∧ severity d = SeverityError) →
     ∃ e, checkErrors this = Some e
          ∧ (∀ fuel n scope opt, evaluate fuel this n scope opt = Throws e)
          ∧ (∀ n scope opt, expandTemplate this n scope opt = inl e)
          ∧ (∀ n, analyzeTemplate this n = inl e))
  ∧ ((∀ d, d ∈ allDiagnostics this → severity d ≠ SeverityError) →
     checkErrors this = None
     ∧ (∀ fuel n scope opt,
          evaluate fuel this n scope opt =
          match evaluateTemplate fuel
                  (newEvaluator (allTemplates this) (expressionParser this)
                     (evalOptions this opt))
                  n (inl scope) initialState with
          | (Returns result, _) =>
              Returns (normalizeLineBreaks (evalOptions this opt) result)
          | (Throws e, _) => Throws e
          | (OutOfFuel, _) => OutOfFuel
          end)
     ∧ (∀ n scope opt,
          expandTemplate this n scope opt =
          Expander_expandTemplate (allTemplates this) (expressionParser this)
            (evalOptions this opt) n scope)
     ∧ (∀ n,
          analyzeTemplate this n =
          Analyzer_analyzeTemplate (allTemplates this) (expressionParser this) n)).
Proof.
  split.
  - intros Hex. apply checkErrors_Some in Hex as [e He]. exists e.
    unfold evaluate, expandTemplate, analyzeTemplate. rewrite He. done.
  - intros Hall. apply checkErrors_None in Hall.
    unfold evaluate, expandTemplate, analyzeTemplate. rewrite Hall. done.
Qed.

End CollectionFacts.


(** ** Steps of the evaluation monad *)

Lemma bind_Returns {A B} (m : M A) (k : A → M B) st a st' :
  m st = (Returns a, st') → bind m k st = k a st'.
Proof. unfold bind. by intros ->. Qed.

Lemma bind_Throws {A B} (m : M A) (k : A → M B) st e st' :
  m st = (Throws e, st') → bind m k st = (Throws e, st').
Proof. unfold bind. by intros ->. Qed.

Lemma bind_inv {A B} (m : M A) (k : A → M B) st b st' :
  bind m k st = (Returns b, st') →
  ∃ a st1, m st = (Returns a, st1) ∧ k a st1 = (Returns b, st').
Proof.
  unfold bind. destruct (m st) as [[a| |] st1]; [|done..]. intros Hk. by exists a, st1.
Qed.

Lemma followed_Returns {A} (r : option A) st a st' :
  followed r st = (Returns a, st') → r = Some a ∧ st' = st.
Proof. destruct r as [x|]; [|done]. by intros [= <- <-]. Qed.

Lemma currentTargetField_Some {A} (field : EvaluationTarget → A) what st t :
  last (evaluationTargetStack st) = Some t →
  currentTargetField field what st = (Returns (field t), st).
Proof.
  intros Hlast. unfold currentTargetField, currentTarget.
  unfold bind at 1. unfold bind, getStack, ret. by rewrite Hlast.
Qed.

(** ** Scopes of template calls *)

Section ScopeFacts.

Context `{TemplateErrors} `{TemplateExtensions} `{Host}.

Lemma bindParameters_other (o o' : Js.object) ps i args p :
  bindParameters o ps i args = Some o' → p ∉ ps → Js.get o' p = Js.get o p.
Proof.
  revert o i. induction ps as [|e ps IH]; intros o i Hbind Hp; cbn in Hbind.
  - by injection Hbind as <-.
  - destruct (Js.assign o e _) as [o1|] eqn:Hassign; [|done].
    rewrite (IH _ _ Hbind) by (intros ?; apply Hp; by right).
    eapply JsFacts.assign_other; [exact Hassign|]. intros ->. apply Hp. by left.
Qed.

Lemma bindParameters_last (o o' : Js.object) ps i args k p :
  bindParameters o ps i args = Some o' →
  ps !! k = Some p → p ≠ "__proto__" → (∀ j, k < j → ps !! j ≠ Some p) →
  Js.get o' p = Some (default VUndefined (args !! (i + k))).
Proof.
  revert o i k. induction ps as [|e ps IH]; intros o i k Hbind Hk Hp Hlast; [done|].
  cbn in Hbind. destruct (Js.assign o e _) as [o1|] eqn:Hassign; [|done].
  destruct k as [|k]; simpl in Hk.
  - injection Hk as ->. rewrite (bindParameters_other _ _ _ _ _ _ Hbind).
    + rewrite Nat.add_0_r. by eapply JsFacts.assign_stores.
    + intros [j Hj]%list_elem_of_lookup. apply (Hlast (S j)); [lia | done].
  - rewrite (IH _ (S i) k Hbind Hk Hp).
    + by replace (S i + k) with (i + S k) by lia.
    + intros j Hj. apply (Hlast (S j)). lia.
Qed.

Lemma bindParameters_keys (o o' : Js.object) ps i args x :
  bindParameters o ps i args = Some o' →
  is_Some (Js.get o' x) → x ∈ ps ∨ is_Some (Js.get o x).
Proof.
  revert o i. induction ps as [|e ps IH]; intros o i Hbind Hx; cbn in Hbind.
  - injection Hbind as <-. by right.
  - destruct (Js.assign o e _) as [o1|] eqn:Hassign; [|done].
    apply (IH _ _ Hbind) in Hx as [Hx|Hx]; [left; by right|].
    destruct (decide (x = e)) as [->|Hne]; [left; by left|].
    right. by rewrite (JsFacts.assign_other _ _ _ _ _ Hassign Hne) in Hx.
Qed.

Lemma bindParameters_followed (o : Js.object) ps i args :
  "__proto__" ∉ ps → is_Some (bindParameters o ps i args).
Proof.
  revert o i. induction ps as [|e ps IH]; intros o i Hp; cbn; [by eexists|].
  unfold Js.assign.
  assert (String.eqb e "__proto__" = false) as ->.
  { apply String.eqb_neq. intros ->. apply Hp. by left. }
  cbn. apply IH. intros ?. apply Hp. by right.
Qed.

Lemma inTemplateMap_own (this : Evaluator) n template :
  templateMap this !! n = Some template → inTemplateMap this n = true.
Proof. intros Hmap. unfold inTemplateMap. by rewrite Hmap, bool_decide_true. Qed.

(** X30.  The scope that [constructScope] yields for a template, when a
    frame is on top of the stack, and with it the scope in which a
    template called by its name and a template called through
    [template(name, ...)] are evaluated.  Without argument it is the
    scope of the frame on top as it is.  With arguments it is a new scope
    whose global layer is the global layer of this frame and whose local
    layer is a new object that binds the declared parameters to the
    arguments by position ([undefined] past the last argument; of two
    parameters of the same name the later one counts) and holds nothing
    else: it is the same whatever the local layer of the frame holds.
    The frame on top is that of the caller as long as the stack is in the
    order of the invocations.  No parameter is named [__proto__]. *)
Theorem constructScope_layers (this : Evaluator)
    (evaluateTemplate : string → ScopeArgument → M value)
    (input : string) (args : list value) (st : State)
    (reExecute : bool) (n : string) (template : Template) (top : EvaluationTarget) :
  parseTemplateName input = inr (reExecute, n) →
  templateMap this !! n = Some template →
  "__proto__" ∉ parameters template →
  last (evaluationTargetStack st) = Some top →
  (args = [] →
     constructScope this input args st = (Returns (scope top), st)
     ∧ templateEvaluator this evaluateTemplate input args st
       = evaluateTemplate input (inr (scope top)) st
     ∧ templateFunction this evaluateTemplate (VString input :: args) st
       = evaluateTemplate input (inr (scope top)) st)
  ∧ (args ≠ [] →
     ∃ newScope,
       let callee :=
         {| globalMemory := globalMemory (scope top);
            localMemory := Some (wrap (VObject newScope)) |} in
       constructScope this input args st = (Returns callee, st)
       ∧ templateEvaluator this evaluateTemplate input args st
         = evaluateTemplate input (inr callee) st
       ∧ (∀ i p,
            parameters template !! i = Some p →
            (∀ j, i < j → parameters template !! j ≠ Some p) →
            Js.get newScope p = Some (default VUndefined (args !! i)))
       ∧ (∀ x, is_Some (Js.get newScope x) → x ∈ parameters template)
       ∧ (∀ st' top',
            last (evaluationTargetStack st') = Some top' →
            globalMemory (scope top') = globalMemory (scope top) →
            constructScope this input args st' = (Returns callee, st'))
       ∧ templateFunction this evaluateTemplate (VString input :: args) st
         = evaluateTemplate input (inr callee) st).
Proof.
  intros Hname Hmap Hproto Hlast.
  destruct (bindParameters_followed [] (parameters template) 0 args Hproto)
    as [bound Hbound].
  assert (Hrun : ∀ st0 c, last (evaluationTargetStack st0) = Some c →
            constructScope this input args st0 =
            (Returns (if (length args =? 0)%nat then scope c
                      else {| globalMemory := globalMemory (scope c);
                              localMemory := Some (wrap (VObject bound)) |}),
             st0)).
  { intros st0 c Hc. unfold constructScope.
    rewrite Hname. erewrite bind_Returns by reflexivity. cbn [snd].
    rewrite (inTemplateMap_own _ _ _ Hmap), Hmap. cbn [negb option_map].
    rewrite (bind_Returns _ _ _ _ _ (currentTargetField_Some scope _ st0 c Hc)).
    destruct (length args =? 0)%nat; [done|]. by rewrite Hbound. }
  split.
  - intros ->. split; [by rewrite (Hrun st top Hlast)|]. split.
    + unfold templateEvaluator, bind. by rewrite (Hrun st top Hlast).
    + unfold templateFunction, bind. by rewrite (Hrun st top Hlast).
  - intros Hargs. exists bound.
    assert (Hlen : (length args =? 0)%nat = false).
    { destruct args; [done | reflexivity]. }
    cbv zeta. repeat apply conj.
    + by rewrite (Hrun st top Hlast), Hlen.
    + unfold templateEvaluator, bind. by rewrite (Hrun st top Hlast), Hlen.
    + intros i p Hi Hlater.
      rewrite (bindParameters_last [] bound _ 0 args i p Hbound Hi); [done | | done].
      intros ->. apply Hproto. by eapply list_elem_of_lookup_2.
    + intros x Hx.
      apply (bindParameters_keys _ _ _ _ _ _ Hbound) in Hx as [Hx|[v Hx]];
        [done | discriminate].
    + intros st' top' Hlast' Hglobal. by rewrite (Hrun st' top' Hlast'), Hlen, Hglobal.
    + unfold templateFunction, bind. by rewrite (Hrun st top Hlast), Hlen.
Qed.

(** The function registered for an exported template builds its scope on
    an evaluator whose stack is empty: for a template that exists, reading
    the scope of the current target throws, whatever the arguments are. *)
Lemma globalTemplateFunction_throws (fuel : nat) (this : Templates) (input : string)
    (args : list value) (reExecute : bool) (n : string) (template : Template) :
  parseTemplateName input = inr (reExecute, n) →
  templateMap (newEvaluator (allTemplates this) (expressionParser this)
                 (Templates_lgOptions this)) !! n = Some template →
  globalTemplateFunction fuel this input args
  = Throws (TypeError "Cannot read property 'scope' of undefined").
Proof.
  intros Hname Hmap. unfold globalTemplateFunction.
  erewrite bind_Throws; [reflexivity|].
  unfold constructScope. rewrite Hname. erewrite bind_Returns by reflexivity.
  cbn [snd]. rewrite (inTemplateMap_own _ _ _ Hmap). cbn [negb].
  erewrite bind_Throws; reflexivity.
Qed.

End ScopeFacts.

(** ** Structured templates *)

Section StructuredFacts.

Context `{TemplateErrors} `{TemplateExtensions} `{Host}.

Variable this : Evaluator.
Variable evaluateTemplate : string → ScopeArgument → M value.

#[local] Abbreviation bodyLine := (structuredBodyLine this evaluateTemplate).
#[local] Abbreviation bodyLines := (structuredBodyLines this evaluateTemplate).

(** What a line does to a key that is set: a key/value line of another
    key and a merged reference leave it as it is. *)
Lemma structuredBodyLine_keeps typeName result body st result' st' k v :
  bodyLine typeName result body st = (Returns result', st') →
  Js.get result k = Some v →
  (∀ kv, body = lp.keyValueStructureLine kv →
         Str.toLowerCase (lp.STRUCTURE_IDENTIFIER kv) ≠ k) →
  Js.get result' k = Some v.
Proof.
  intros Hrun Hk Hother. destruct body as [kv|text]; simpl in Hrun.
  - apply bind_inv in Hrun as (value & st1 & _ & Hret).
    apply followed_Returns in Hret as [Hassign _].
    rewrite (JsFacts.assign_other _ _ _ _ k Hassign); [done|].
    intros ->. by apply (Hother kv).
  - apply bind_inv in Hrun as (propertyObject & st1 & _ & Hmerge).
    unfold lift in Hmerge.
    destruct (mergeReference result typeName propertyObject) as [e|r] eqn:E; [done|].
    injection Hmerge as <- _. by eapply JsFacts.mergeReference_keeps.
Qed.

Lemma structuredBodyLines_keeps typeName result bodys st result' st' k v :
  bodyLines typeName result bodys st = (Returns result', st') →
  Js.get result k = Some v →
  (∀ kv, lp.keyValueStructureLine kv ∈ bodys →
         Str.toLowerCase (lp.STRUCTURE_IDENTIFIER kv) ≠ k) →
  Js.get result' k = Some v.
Proof.
  revert result st. induction bodys as [|body bodys IH];
    intros result st Hrun Hk Hother; simpl in Hrun.
  - by injection Hrun as <- _.
  - apply bind_inv in Hrun as (r1 & st1 & Hline & Hrest).
    eapply IH; [exact Hrest | | intros kv Hkv; apply Hother; by right].
    eapply structuredBodyLine_keeps; [exact Hline | exact Hk |].
    intros kv ->. apply Hother. by left.
Qed.

Lemma structuredBodyLines_keeps_tag typeName result bodys st result' st' v :
  bodyLines typeName result bodys st = (Returns result', st') →
  Js.get result LGType = Some v →
  Js.get result' LGType = Some v.
Proof.
  intros Hrun Hk. eapply structuredBodyLines_keeps; [exact Hrun | exact Hk |].
  intros kv _. apply StrFacts.toLowerCase_not_LGType.
Qed.

Lemma visitStructuredTemplateBody_tag ctx st r st' :
  visitStructuredTemplateBody this evaluateTemplate ctx st = (Returns r, st') →
  ∃ o, r = VObject o ∧ Js.get o LGType = Some (VString (lp.STRUCTURE_NAME ctx)).
Proof.
  intros Hrun. unfold visitStructuredTemplateBody in Hrun.
  apply bind_inv in Hrun as (o & st1 & Hlines & Hret). injection Hret as <- _.
  exists o. split; [done|].
  eapply structuredBodyLines_keeps_tag; [exact Hlines|]. reflexivity.
Qed.

(** The evaluation of a structured template is the loop over its lines,
    and the loop over a list of lines is the loop over the lines before
    one of them, this line, and the loop over the lines after it. *)
Lemma visitStructuredTemplateBody_lines ctx st r st' :
  visitStructuredTemplateBody this evaluateTemplate ctx st = (Returns r, st') →
  ∃ o, r = VObject o
       ∧ bodyLines (lp.STRUCTURE_NAME ctx)
           (Js.set [] LGType (VString (lp.STRUCTURE_NAME ctx)))
           (lp.structuredBodyContentLine ctx) st
         = (Returns o, st').
Proof.
  intros Hrun. unfold visitStructuredTemplateBody in Hrun.
  apply bind_inv in Hrun as (o & st1 & Hlines & Hret). injection Hret as <- <-.
  by exists o.
Qed.

Lemma structuredBodyLines_split typeName result before body after st o st' :
  bodyLines typeName result (before ++ body :: after)%list st = (Returns o, st') →
  ∃ r1 st1 r2 st2,
    bodyLines typeName result before st = (Returns r1, st1)
    ∧ bodyLine typeName r1 body st1 = (Returns r2, st2)
    ∧ bodyLines typeName r2 after st2 = (Returns o, st').
Proof.
  revert result st. induction before as [|line before IH]; intros result st Hrun.
  - cbn [app structuredBodyLines] in Hrun.
    apply bind_inv in Hrun as (r2 & st2 & Hline & Hrest).
    by exists result, st, r2, st2.
  - cbn [app structuredBodyLines] in Hrun.
    apply bind_inv in Hrun as (r0 & st0 & Hline & Hrest).
    destruct (IH _ _ Hrest) as (r1 & st1 & r2 & st2 & Hbefore & Hbody & Hafter).
    exists r1, st1, r2, st2. split; [|done].
    cbn [structuredBodyLines]. by rewrite (bind_Returns _ _ _ _ _ Hline).
Qed.

(** A key/value line evaluates its value and assigns it to the
    identifier in lower case. *)
Lemma structuredBodyLine_keyValue typeName result kv st result' st' :
  bodyLine typeName result (lp.keyValueStructureLine kv) st = (Returns result', st') →
  ∃ value,
    visitStructureValue this evaluateTemplate kv st = (Returns value, st')
    ∧ Js.assign result (Str.toLowerCase (lp.STRUCTURE_IDENTIFIER kv)) value
      = Some result'.
Proof.
  intros Hrun. simpl in Hrun.
  apply bind_inv in Hrun as (value & st1 & Hvalue & Hret).
  apply followed_Returns in Hret as [Hassign ->]. by exists value.
Qed.

(** No line gives the result a property [__proto__] of its own. *)
Lemma structuredBodyLine_proto typeName result body st result' st' :
  bodyLine typeName result body st = (Returns result', st') →
  Js.get result "__proto__" = None → Js.get result' "__proto__" = None.
Proof.
  intros Hrun Hnone. destruct body as [kv|text].
  - apply structuredBodyLine_keyValue in Hrun as (value & _ & Hassign).
    destruct (decide (Str.toLowerCase (lp.STRUCTURE_IDENTIFIER kv) = "__proto__"))
      as [Heq|Hne].
    + rewrite Heq in Hassign. by rewrite (JsFacts.assign_proto _ _ _ Hnone Hassign).
    + rewrite (JsFacts.assign_other _ _ _ _ "__proto__" Hassign); [done|].
      by intros Heq.
  - simpl in Hrun. apply bind_inv in Hrun as (propertyObject & st1 & _ & Hmerge).
    unfold lift in Hmerge.
    destruct (mergeReference result typeName propertyObject) as [e|r] eqn:E; [done|].
    injection Hmerge as <- _.
    by rewrite (JsFacts.mergeReference_inherited _ _ _ _ "__proto__" E).
Qed.

Lemma structuredBodyLines_proto typeName result bodys st result' st' :
  bodyLines typeName result bodys st = (Returns result', st') →
  Js.get result "__proto__" = None → Js.get result' "__proto__" = None.
Proof.
  revert result st. induction bodys as [|body bodys IH]; intros result st Hrun Hnone;
    simpl in Hrun.
  - by injection Hrun as <- _.
  - apply bind_inv in Hrun as (r1 & st1 & Hline & Hrest).
    eapply IH; [exact Hrest|]. by eapply structuredBodyLine_proto.
Qed.


(** The key/value lines, on the whole evaluation of a structured
    template.  Every key/value line of the template is evaluated in its
    turn and its value is stored under the identifier in lower case: the
    result holds it there when the line is done, and at the end unless a
    later key/value line has the same key in lower case.  The line
    changes no other key, so that nothing is stored under the spelling of
    the source when it has an upper-case letter.  Under the identifier
    [__proto__] nothing is stored.  The type tag of the object returned
    is the declared type name as it is written. *)
Lemma structured_keys_lowercased
    (ctx : lp.StructuredTemplateBodyContext) (st st' : State) (r : value) :
  visitStructuredTemplateBody this evaluateTemplate ctx st = (Returns r, st') →
  let typeName := lp.STRUCTURE_NAME ctx in
  ∃ o,
    r = VObject o
    ∧ Js.get o LGType = Some (VString typeName)
    ∧ ∀ before kv after,
        lp.structuredBodyContentLine ctx
        = (before ++ lp.keyValueStructureLine kv :: after)%list →
        let property := Str.toLowerCase (lp.STRUCTURE_IDENTIFIER kv) in
        ∃ r1 st1 value st2 r2,
          bodyLines typeName (Js.set [] LGType (VString typeName)) before st
          = (Returns r1, st1)
          ∧ visitStructureValue this evaluateTemplate kv st1 = (Returns value, st2)
          ∧ bodyLines typeName r2 after st2 = (Returns o, st')
          ∧ (property ≠ "__proto__" → Js.get r2 property = Some value)
          ∧ (property = "__proto__" → r2 = r1)
          ∧ (∀ k, k ≠ property → Js.get r2 k = Js.get r1 k)
          ∧ (lp.STRUCTURE_IDENTIFIER kv ≠ property →
             Js.get r2 (lp.STRUCTURE_IDENTIFIER kv)
             = Js.get r1 (lp.STRUCTURE_IDENTIFIER kv))
          ∧ (property ≠ "__proto__" →
             (∀ kv', lp.keyValueStructureLine kv' ∈ after →
                     Str.toLowerCase (lp.STRUCTURE_IDENTIFIER kv') ≠ property) →
             Js.get o property = Some value).
Proof.
  intros Hrun typeName.
  destruct (visitStructuredTemplateBody_tag _ _ _ _ Hrun) as (o & -> & Htag).
  apply visitStructuredTemplateBody_lines in Hrun as (o' & [= <-] & Hlines).
  exists o. split; [done|]. split; [exact Htag|].
  intros before kv after Hsplit property. fold typeName in Hlines.
  rewrite Hsplit in Hlines.
  apply structuredBodyLines_split in Hlines
    as (r1 & st1 & r2 & st2 & Hbefore & Hbody & Hafter).
  apply structuredBodyLine_keyValue in Hbody as (value & Hvalue & Hassign).
  fold property in Hassign.
  assert (Hproto : Js.get r1 "__proto__" = None)
    by (eapply structuredBodyLines_proto; [exact Hbefore | reflexivity]).
  assert (Hothers : ∀ k, k ≠ property → Js.get r2 k = Js.get r1 k)
    by (intros k Hk; by eapply JsFacts.assign_other).
  exists r1, st1, value, st2, r2.
  split; [exact Hbefore|]. split; [exact Hvalue|]. split; [exact Hafter|].
  split; [intros Hne; by eapply JsFacts.assign_stores|].
  split; [intros Heq; rewrite Heq in Hassign; by eapply JsFacts.assign_proto|].
  split; [exact Hothers|]. split; [apply Hothers|].
  intros Hne Hlater.
  eapply structuredBodyLines_keeps; [exact Hafter | | exact Hlater].
  by eapply JsFacts.assign_stores.
Qed.

End StructuredFacts.

(** ** Loops and memoization in [evaluateTemplate] *)

Module StrSuffix.

Lemma endsWith_append s p : Str.endsWith (s +:+ p) p = true.
Proof.
  induction s as [|c s IH]; simpl.
  - destruct p; simpl; [done|]. by rewrite Ascii.eqb_refl, String.eqb_refl.
  - rewrite IH. apply orb_true_r.
Qed.

Lemma length_append s p : String.length (s +:+ p) = String.length s + String.length p.
Proof. induction s as [|c s IH]; simpl; [done | by rewrite IH]. Qed.

Lemma substr0_append s p : Str.substr0 (String.length s) (s +:+ p) = s.
Proof.
  unfold Str.substr0. induction s as [|c s IH]; simpl.
  - by destruct p.
  - by rewrite IH.
Qed.

Lemma parseTemplateName_marker n :
  parseTemplateName (n +:+ ReExecuteSuffix) = inr (true, n).
Proof.
  unfold parseTemplateName.
  destruct (String.eqb (n +:+ ReExecuteSuffix) "") eqn:E.
  - apply String.eqb_eq in E. by destruct n.
  - rewrite endsWith_append.
    replace (String.length (n +:+ ReExecuteSuffix) - String.length ReExecuteSuffix)
      with (String.length n) by (rewrite length_append; lia).
    by rewrite substr0_append.
Qed.

End StrSuffix.

Section CallFacts.

Context `{TemplateErrors} `{TemplateExtensions} `{Host}.

Lemma someNamed_elem_of stack n :
  someNamed stack n = true → n ∈ map templateName stack.
Proof.
  unfold someNamed. intros Hex. apply existsb_exists in Hex as (u & Hu & Heq).
  apply String.eqb_eq in Heq. subst n.
  apply list_elem_of_In. apply in_map_iff. by exists u.
Qed.

(** C1, as the code has it.  An invocation of [evaluateTemplate] for a
    template whose name a frame of the evaluation stack has throws the
    loop-detected error.  The chain of its message is made of the names
    of the frames of the stack, each frame once; the name invoked is not
    added to them.  So the name is in the chain, once when the frames
    have different names. *)
Theorem loop_detected_chain (fuel : nat) (this : Evaluator) (input : string)
    (scope : ScopeArgument) (st : State) (reExecute : bool) (n : string)
    (template : Template) :
  parseTemplateName input = inr (reExecute, n) →
  templateMap this !! n = Some template →
  someNamed (evaluationTargetStack st) n = true →
  ∃ chain st',
    evaluateTemplate (S fuel) this input scope st
    = (Throws (Error (loopDetected +:+ " " +:+ Str.join " => " chain)), st')
    ∧ chain ≡ₚ map templateName (evaluationTargetStack st)
    ∧ n ∈ chain
    ∧ (NoDup (map templateName (evaluationTargetStack st)) → NoDup chain).
Proof.
  intros Hname Hmap Hloop.
  assert (Hperm : map templateName (rev (evaluationTargetStack st))
                  ≡ₚ map templateName (evaluationTargetStack st)).
  { rewrite map_rev. symmetry. apply Permutation_rev. }
  exists (map templateName (rev (evaluationTargetStack st))). eexists.
  split; [|split; [exact Hperm | split]].
  - cbn [evaluateTemplate]. rewrite Hname. erewrite bind_Returns by reflexivity.
    cbv beta iota. rewrite (inTemplateMap_own _ _ _ Hmap). cbn [negb].
    erewrite bind_Returns by reflexivity. rewrite Hloop. reflexivity.
  - rewrite Hperm. by apply someNamed_elem_of.
  - intros Hnodup. by rewrite Hperm.
Qed.

Lemma mapOf_allocated st r :
  r ≠ allocated st →
  default ∅ (<[allocated st := ∅]> (mapStore st) !! r) = mapOf st r.
Proof. intros Hr. unfold mapOf. by rewrite lookup_insert_ne. Qed.

(** X29.  Memoization, in the map of the frame on top of the stack.  A call
    made while a frame is on the stack, for a template that exists and
    is not on the stack.  Without the marker [!], when the map of the
    frame on top holds a value for the fingerprint of the call, this
    value is returned and the body is not visited: the stack, the maps
    and the number of random draws are as before.  Otherwise the body is
    visited with the new frame on the stack and, when it returns, its
    result is stored in the map of the frame that was on top under the
    fingerprint and returned (after the treatment of line breaks); what
    the body throws is thrown on.  A name with the marker is the name
    without it, to be computed again.  The frame on top is that of the
    caller as long as the stack is in the order of the invocations. *)
Theorem evaluateTemplate_memoization (fuel : nat) (this : Evaluator) (input : string)
    (scope : ScopeArgument) (st : State) (reExecute : bool) (n : string)
    (template : Template) (previous : EvaluationTarget) :
  parseTemplateName input = inr (reExecute, n) →
  templateMap this !! n = Some template →
  someNamed (evaluationTargetStack st) n = false →
  last (evaluationTargetStack st) = Some previous →
  evaluatedChildren previous < allocated st →
  let currentEvulateId := getId n (toCustomizedMemory scope) in
  let cache := mapOf st (evaluatedChildren previous) in
  (∀ v,
     reExecute = false → cache !! currentEvulateId = Some v →
     ∃ st',
       evaluateTemplate (S fuel) this input scope st = (Returns v, st')
       ∧ evaluationTargetStack st' = evaluationTargetStack st
       ∧ randomCalls st' = randomCalls st
       ∧ ∀ r, r < allocated st → mapOf st' r = mapOf st r)
  ∧ (reExecute = true ∨ cache !! currentEvulateId = None →
     (∀ result st2,
        visit this (evaluateTemplate fuel this) (templateBodyParseTree template)
          (entered st n scope) = (Returns result, st2) →
        ∃ st3,
          evaluateTemplate (S fuel) this input scope st
          = (Returns (normalizeLineBreaks (lgOptions this) result), st3)
          ∧ mapOf st3 (evaluatedChildren previous) !! currentEvulateId = Some result)
     ∧ (∀ e st2,
          visit this (evaluateTemplate fuel this) (templateBodyParseTree template)
            (entered st n scope) = (Throws e, st2) →
          evaluateTemplate (S fuel) this input scope st = (Throws e, st2)))
  ∧ (∀ m, parseTemplateName (m +:+ ReExecuteSuffix) = inr (true, m)).
Proof.
  intros Hname Hmap Hloop Hlast Hprev currentEvulateId cache.
  assert (Hcache : mapOf {| evaluationTargetStack := evaluationTargetStack st;
                            mapStore := <[allocated st := ∅]> (mapStore st);
                            allocated := S (allocated st);
                            randomCalls := randomCalls st |}
                     (evaluatedChildren previous) = cache).
  { unfold mapOf at 1. simpl. apply mapOf_allocated. lia. }
  split; [|split; [intros Hmiss; split|]].
  - intros v -> Hv.
    exists {| evaluationTargetStack := evaluationTargetStack st;
              mapStore := <[allocated st := ∅]> (mapStore st);
              allocated := S (allocated st);
              randomCalls := randomCalls st |}.
    split; [|split; [reflexivity | split; [reflexivity|]]].
    + cbn [evaluateTemplate]. rewrite Hname. erewrite bind_Returns by reflexivity.
      cbv beta iota. rewrite (inTemplateMap_own _ _ _ Hmap). cbn [negb].
    erewrite bind_Returns by reflexivity. rewrite Hloop.
      erewrite bind_Returns by reflexivity.
      erewrite bind_Returns by reflexivity.
      simpl evaluationTargetStack. rewrite Hlast. simpl negb. cbv iota.
      erewrite bind_Returns; [| unfold mapGet; rewrite Hcache; fold currentEvulateId;
                                 rewrite Hv; reflexivity].
      reflexivity.
    + intros r Hr. simpl. unfold mapOf at 1. simpl. apply mapOf_allocated. lia.
  - intros result st2 Hbody.
    eexists. split.
    + cbn [evaluateTemplate]. rewrite Hname. erewrite bind_Returns by reflexivity.
      cbv beta iota. rewrite (inTemplateMap_own _ _ _ Hmap). cbn [negb].
    erewrite bind_Returns by reflexivity. rewrite Hloop.
      erewrite bind_Returns by reflexivity.
      erewrite bind_Returns by reflexivity.
      simpl evaluationTargetStack. rewrite Hlast.
      erewrite (bind_Returns _ _ _ None).
      2:{ destruct Hmiss as [-> | Hnone]; simpl; [reflexivity|].
          destruct reExecute; simpl; [reflexivity|].
          unfold mapGet. rewrite Hcache. fold currentEvulateId. by rewrite Hnone. }
      cbv iota. erewrite bind_Returns by reflexivity.
      rewrite Hmap. erewrite bind_Returns by exact Hbody.
      erewrite bind_Returns by reflexivity.
      erewrite bind_Returns by reflexivity.
      reflexivity.
    + simpl. unfold mapOf at 1. simpl. rewrite lookup_insert_eq. simpl.
      apply lookup_insert_eq.
  - intros e st2 Hbody.
    cbn [evaluateTemplate]. rewrite Hname. erewrite bind_Returns by reflexivity.
    cbv beta iota. rewrite (inTemplateMap_own _ _ _ Hmap). cbn [negb].
    erewrite bind_Returns by reflexivity. rewrite Hloop.
    erewrite bind_Returns by reflexivity.
    erewrite bind_Returns by reflexivity.
    simpl evaluationTargetStack. rewrite Hlast.
    erewrite (bind_Returns _ _ _ None).
    2:{ destruct Hmiss as [-> | Hnone]; simpl; [reflexivity|].
        destruct reExecute; simpl; [reflexivity|].
        unfold mapGet. rewrite Hcache. fold currentEvulateId. by rewrite Hnone. }
    cbv iota. erewrite bind_Returns by reflexivity.
    rewrite Hmap. erewrite bind_Throws by exact Hbody. reflexivity.
  - apply StrSuffix.parseTemplateName_marker.
Qed.

End CallFacts.

(** ** Switch bodies *)

Section SwitchFacts.

Context `{TemplateErrors} `{TemplateExtensions} `{Host}.

Variable this : Evaluator.
Variable evaluateTemplate : string → ScopeArgument → M value.

#[local] Abbreviation loop := (switchCaseLoop this evaluateTemplate).
#[local] Abbreviation stringOf := (statementString this evaluateTemplate).
#[local] Abbreviation misses := (noneMatches this evaluateTemplate).
#[local] Abbreviation visitBody := (visitNormalTemplateBody this evaluateTemplate).

(** One turn of the loop on a case that is not taken as the default. *)
Lemma switchCaseLoop_case (len idx : nat) s node rest st s' st1 :
  idx ≠ 0 →
  (idx =? len - 1)%nat && lp.DEFAULT (lp.switchCaseStat node) = false →
  stringOf "Case" node st = (Returns s', st1) →
  loop len idx s (node :: rest) st
  = if String.eqb s s' then
      match lp.scr_normalTemplateBody node with
      | Some body => visitBody body st1
      | None => visitUndefined st1
      end
    else loop len (S idx) s rest st1.
Proof.
  intros Hidx Hdefault Hstring. cbn [switchCaseLoop].
  destruct (idx =? 0)%nat eqn:E; [apply Nat.eqb_eq in E; contradiction|].
  rewrite Hdefault. unfold statementString in Hstring.
  destruct (lp.sc_EXPRESSION (lp.switchCaseStat node)) as [|expr exprs]; [done|].
  destruct (evalExpression this evaluateTemplate (lp.text expr)
              (Some (lp.sc_text (lp.switchCaseStat node)))
              ("Case" +:+ " '" +:+ lp.text expr +:+ "': ") st) as [[v| |] st'] eqn:Ev;
    unfold bind in Hstring; rewrite Ev in Hstring; [|done..].
  change ("Case '" +:+ lp.text expr +:+ "': ")
    with ("Case" +:+ " '" +:+ lp.text expr +:+ "': ").
  erewrite bind_Returns by exact Ev.
  erewrite bind_Returns by exact Hstring.
  destruct (String.eqb s s'); [|done]. by destruct (lp.scr_normalTemplateBody node).
Qed.

(** The turn of the loop on a DEFAULT in the last place. *)
Lemma switchCaseLoop_default (len idx : nat) s node rest st :
  idx ≠ 0 → idx = len - 1 → lp.DEFAULT (lp.switchCaseStat node) = true →
  loop len idx s (node :: rest) st
  = match lp.scr_normalTemplateBody node with
    | Some body => visitBody body st
    | None => (Returns VUndefined, st)
    end.
Proof.
  intros Hidx Hlast Hdefault. cbn [switchCaseLoop].
  destruct (idx =? 0)%nat eqn:E; [apply Nat.eqb_eq in E; contradiction|].
  rewrite (proj2 (Nat.eqb_eq idx (len - 1)) Hlast), Hdefault. simpl.
  by destruct (lp.scr_normalTemplateBody node).
Qed.

(** The loop passes the cases that do not match. *)
Lemma switchCaseLoop_misses (len idx : nat) s pre rest st st1 :
  idx ≠ 0 →
  (idx + length pre ≤ len - 1)%nat
  ∨ (∀ c, c ∈ pre → lp.DEFAULT (lp.switchCaseStat c) = false) →
  misses s pre st st1 →
  loop len idx s (pre ++ rest)%list st = loop len (idx + length pre) s rest st1.
Proof.
  intros Hidx Hnodefault Hmiss. revert idx Hidx Hnodefault.
  induction Hmiss as [st|node pre st st1 st2 s' Hstring Hne Hmiss IH];
    intros idx Hidx Hnodefault.
  - simpl. by rewrite Nat.add_0_r.
  - simpl app. rewrite (switchCaseLoop_case len idx s node _ st s' st1 Hidx); [|  | done].
    + destruct (String.eqb s s') eqn:E; [apply String.eqb_eq in E; by subst|].
      rewrite IH; [| lia |].
      * simpl length. by replace (S idx + length pre) with (idx + S (length pre)) by lia.
      * destruct Hnodefault as [Hlen|Hall]; [left; simpl in Hlen; lia|].
        right. intros c Hc. apply Hall. by right.
    + destruct Hnodefault as [Hlen|Hall].
      * simpl in Hlen. replace (idx =? len - 1)%nat with false; [done|].
        symmetry. apply Nat.eqb_neq. lia.
      * rewrite (Hall node); [apply andb_false_r | by left].
Qed.

(** C6.  The switch expression is evaluated first, once, and converted
    to a string [s].  The cases are then evaluated in the order of the
    source, each converted to a string: the body of the first case whose
    string is [s] is visited and its result returned, the cases after it
    are not evaluated.  A DEFAULT is used when it is the last node and no
    case before it yielded [s].  When every node is a case and none
    yields [s], the result is [undefined]. *)
Theorem switch_first_match_or_default
    (switchNode : lp.SwitchCaseRuleContext) (cases : list lp.SwitchCaseRuleContext)
    (st st1 : State) (s : string) :
  stringOf "Switch" switchNode st = (Returns s, st1) →
  (∀ pre c post st2 st3 body,
     cases = (pre ++ c :: post)%list →
     misses s pre st1 st2 →
     lp.DEFAULT (lp.switchCaseStat c) = false ∨ post ≠ [] →
     stringOf "Case" c st2 = (Returns s, st3) →
     lp.scr_normalTemplateBody c = Some body →
     visitSwitchCaseBody this evaluateTemplate (switchNode :: cases) st
     = visitBody body st3)
  ∧ (∀ pre d st2,
       cases = (pre ++ [d])%list →
       lp.DEFAULT (lp.switchCaseStat d) = true →
       misses s pre st1 st2 →
       visitSwitchCaseBody this evaluateTemplate (switchNode :: cases) st
       = match lp.scr_normalTemplateBody d with
         | Some body => visitBody body st2
         | None => (Returns VUndefined, st2)
         end)
  ∧ (∀ st2,
       (∀ c, c ∈ cases → lp.DEFAULT (lp.switchCaseStat c) = false) →
       misses s cases st1 st2 →
       visitSwitchCaseBody this evaluateTemplate (switchNode :: cases) st
       = (Returns VUndefined, st2)).
Proof.
  intros Hswitch.
  assert (Hstart : visitSwitchCaseBody this evaluateTemplate (switchNode :: cases) st
                   = loop (S (length cases)) 1 s cases st1).
  { unfold visitSwitchCaseBody. unfold statementString in Hswitch.
    destruct (lp.sc_EXPRESSION (lp.switchCaseStat switchNode)) as [|expr exprs]; [done|].
    destruct (evalExpression this evaluateTemplate (lp.text expr)
                (Some (lp.sc_text (lp.switchCaseStat switchNode)))
                ("Switch" +:+ " '" +:+ lp.text expr +:+ "': ") st) as [[v| |] st'] eqn:Ev;
      unfold bind in Hswitch; rewrite Ev in Hswitch; [|done..].
    change ("Switch '" +:+ lp.text expr +:+ "': ")
      with ("Switch" +:+ " '" +:+ lp.text expr +:+ "': ").
    erewrite bind_Returns by exact Ev.
    erewrite bind_Returns by exact Hswitch.
    reflexivity. }
  rewrite Hstart. split; [|split].
  - intros pre c post st2 st3 body -> Hmiss Hnotdefault Hc Hbody.
    rewrite (switchCaseLoop_misses _ 1 s pre (c :: post) st1 st2); [|lia| |done].
    + rewrite (switchCaseLoop_case _ _ s c post st2 s st3); [|lia| |done].
      * by rewrite String.eqb_refl, Hbody.
      * destruct Hnotdefault as [->|Hpost]; [apply andb_false_r|].
        replace (_ =? _)%nat with false; [done|].
        symmetry. apply Nat.eqb_neq. rewrite length_app. simpl.
        destruct post; [done|]. simpl. lia.
    + left. rewrite length_app. simpl. lia.
  - intros pre d st2 -> Hdefault Hmiss.
    rewrite (switchCaseLoop_misses _ 1 s pre [d] st1 st2); [|lia| |done].
    + apply switchCaseLoop_default; [lia | | done].
      rewrite length_app. simpl. lia.
    + left. rewrite length_app. simpl. lia.
  - intros st2 Hall Hmiss.
    rewrite <- (app_nil_r cases) at 2.
    rewrite (switchCaseLoop_misses _ 1 s cases [] st1 st2); [done|lia| |done].
    by right.
Qed.

End SwitchFacts.

(** ** Line breaks *)

(** A character that does not start a line break is copied. *)
Lemma doubleNewLines_other c rest :
  Ascii.eqb c Str.lf = false →
  Ascii.eqb c Str.cr = false ∨ (∀ r, rest ≠ String Str.lf r) →
  Str.doubleNewLines (String c rest) = String c (Str.doubleNewLines rest).
Proof.
  intros Hlf Hcr. cbn [Str.doubleNewLines]. rewrite Hlf.
  destruct (Ascii.eqb c Str.cr) eqn:E; [|reflexivity].
  destruct Hcr as [?|Hrest]; [discriminate|].
  destruct rest as [|c' r]; [reflexivity|].
  destruct (Ascii.eqb c' Str.lf) eqn:E'; [|reflexivity].
  apply Ascii.eqb_eq in E'. subst c'. by destruct (Hrest r).
Qed.

(** Doubling the line breaks doubles the line feeds; doing it twice gives
    four line feeds for one. *)
Lemma countNewLines_doubleNewLines s :
  Str.countNewLines (Str.doubleNewLines s) = 2 * Str.countNewLines s.
Proof.
  assert (Hbound : ∀ n s, String.length s < n →
            Str.countNewLines (Str.doubleNewLines s) = 2 * Str.countNewLines s);
    [|apply (Hbound (S (String.length s))); lia].
  clear s. induction n as [|n IH]; intros s Hlen; [lia|].
  destruct s as [|c s]; [reflexivity|]. simpl in Hlen.
  destruct (Ascii.eqb c Str.lf) eqn:Elf.
  - cbn [Str.doubleNewLines Str.countNewLines]. rewrite Elf.
    cbn [Str.countNewLines]. rewrite Ascii.eqb_refl, IH by lia. lia.
  - destruct (Ascii.eqb c Str.cr) eqn:Ecr; [destruct s as [|c' s] |].
    + rewrite doubleNewLines_other; [|done|by right].
      cbn [Str.countNewLines]. rewrite Elf. reflexivity.
    + destruct (Ascii.eqb c' Str.lf) eqn:Elf'.
      * apply Ascii.eqb_eq in Ecr, Elf'. subst c c'. simpl in Hlen.
        simpl. rewrite IH by lia. lia.
      * rewrite doubleNewLines_other; [|done|].
        -- cbn [Str.countNewLines]. rewrite Elf, IH by lia.
           cbn [Str.countNewLines]. rewrite Elf'. cbv iota. lia.
        -- right. intros r [= -> _]. by rewrite Ascii.eqb_refl in Elf'.
    + rewrite doubleNewLines_other; [|done|by left].
      cbn [Str.countNewLines]. rewrite Elf, IH by lia. cbv iota. lia.
Qed.

Lemma countNewLines_doubled_twice s :
  Str.countNewLines (Str.doubleNewLines (Str.doubleNewLines s)) = 4 * Str.countNewLines s.
Proof. rewrite !countNewLines_doubleNewLines. lia. Qed.

Section MarkdownFacts.

Context `{TemplateErrors} `{TemplateExtensions} `{Host}.

(** Under the Markdown style, a template whose body yields the string [s]
    comes out of [evaluate] with its line breaks doubled twice, and so with
    four line feeds for each line feed of [s]. *)
Lemma evaluate_doubles_twice (fuel : nat) (this : Templates) (n : string)
    (reExecute : bool) (pure : string) (template : Template) (scope : value)
    (opt : option EvaluationOptions) (s : string) (st' : State) :
  checkErrors this = None →
  LineBreakStyle (evalOptions this opt) = Markdown →
  parseTemplateName n = inr (reExecute, pure) →
  templateMap (newEvaluator (allTemplates this) (expressionParser this)
                 (evalOptions this opt)) !! pure = Some template →
  visit (newEvaluator (allTemplates this) (expressionParser this) (evalOptions this opt))
    (evaluateTemplate fuel
       (newEvaluator (allTemplates this) (expressionParser this) (evalOptions this opt)))
    (templateBodyParseTree template) (entered initialState pure (inl scope))
  = (Returns (VString s), st') →
  evaluate (S fuel) this n scope opt
  = Returns (VString (Str.doubleNewLines (Str.doubleNewLines s)))
  ∧ Str.countNewLines (Str.doubleNewLines (Str.doubleNewLines s))
    = 4 * Str.countNewLines s.
Proof.
  intros Hcheck Hstyle Hname Hmap Hbody.
  split; [|apply countNewLines_doubled_twice].
  unfold evaluate. rewrite Hcheck.
  set (evaluator := newEvaluator _ _ _) in *.
  assert (Hrun : evaluateTemplate (S fuel) evaluator n (inl scope) initialState
                 = (Returns (normalizeLineBreaks (lgOptions evaluator) (VString s)),
                    snd (pop st'))).
  { cbn [evaluateTemplate]. rewrite Hname. erewrite bind_Returns by reflexivity.
    cbv beta iota. rewrite (inTemplateMap_own _ _ _ Hmap). cbn [negb].
    erewrite bind_Returns by reflexivity.
    change (someNamed (evaluationTargetStack initialState) pure) with false. cbv iota.
    erewrite bind_Returns by reflexivity.
    erewrite bind_Returns by reflexivity.
    unfold initialState. cbn [last evaluationTargetStack].
    erewrite bind_Returns by reflexivity. cbv iota.
    erewrite bind_Returns by reflexivity.
    rewrite Hmap. erewrite bind_Returns by exact Hbody.
    erewrite bind_Returns by reflexivity.
    erewrite bind_Returns by reflexivity.
    reflexivity. }
  rewrite Hrun. unfold normalizeLineBreaks. simpl lgOptions. by rewrite Hstyle.
Qed.

End MarkdownFacts.

(** ** What every run of the evaluator keeps *)

Section KeepsFacts.

Context `{TemplateErrors} `{TemplateExtensions} `{Host}.

Variable this : Evaluator.
Variable I : State → Prop.
Hypothesis HI : Invariant this I.

Lemma keeps_ret {A} (a : A) : keeps I (ret a).
Proof. intros st r st' Hst [= _ <-]. exact Hst. Qed.

Lemma keeps_throw {A} (e : exn) : keeps I (@throw A e).
Proof. intros st r st' Hst [= _ <-]. exact Hst. Qed.

Lemma keeps_lift {A} (x : exn + A) : keeps I (lift x).
Proof. destruct x; [apply keeps_throw | apply keeps_ret]. Qed.

Lemma keeps_unmodelled {A} : keeps I (@unmodelled A).
Proof. intros st r st' Hst [= _ <-]. exact Hst. Qed.

Lemma keeps_followed {A} (x : option A) : keeps I (followed x).
Proof. destruct x; [apply keeps_ret | apply keeps_unmodelled]. Qed.

Lemma keeps_bind {A B} (m : M A) (k : A → M B) :
  keeps I m → (∀ a, keeps I (k a)) → keeps I (bind m k).
Proof.
  intros Hm Hk st r st' Hst Hrun. unfold bind in Hrun.
  destruct (m st) as [[a|e|] st1] eqn:E.
  - eapply Hk; [|exact Hrun]. eapply Hm; [exact Hst | exact E].
  - injection Hrun as _ <-. eapply Hm; [exact Hst | exact E].
  - injection Hrun as _ <-. eapply Hm; [exact Hst | exact E].
Qed.

Lemma keeps_tryCatch (m : M value) : keeps I m → keeps I (tryCatch m).
Proof.
  intros Hm st r st' Hst Hrun. unfold tryCatch in Hrun.
  destruct (m st) as [[a|e|] st1] eqn:E; injection Hrun as _ <-;
    (eapply Hm; [exact Hst | exact E]).
Qed.

Lemma keeps_snd {A} (m : M A) : (∀ st, I st → I (snd (m st))) → keeps I m.
Proof. intros Hm st r st' Hst Hrun. specialize (Hm st Hst). by rewrite Hrun in Hm. Qed.

Lemma keeps_getStack : keeps I getStack.
Proof. by apply keeps_snd. Qed.

Lemma keeps_mapGet r k : keeps I (mapGet r k).
Proof. by apply keeps_snd. Qed.

Lemma keeps_pop : keeps I pop.
Proof. apply keeps_snd, HI. Qed.

Lemma keeps_reverseInPlace : keeps I reverseInPlace.
Proof. apply keeps_snd, HI. Qed.

Lemma keeps_newMap : keeps I newMap.
Proof. apply keeps_snd, HI. Qed.

Lemma keeps_mapSet r k v : keeps I (mapSet r k v).
Proof. apply keeps_snd. intros st. apply HI. Qed.

Lemma keeps_randomBelow n : keeps I (randomBelow n).
Proof. apply keeps_snd. intros st. apply HI. Qed.

Lemma keeps_currentTargetField {A} (field : EvaluationTarget → A) what :
  keeps I (currentTargetField field what).
Proof.
  unfold currentTargetField, currentTarget.
  repeat (apply keeps_bind; [|intros ?]); try apply keeps_getStack; try apply keeps_ret.
  destruct a; [apply keeps_ret | apply keeps_throw].
Qed.

Lemma keeps_constructScope n args : keeps I (constructScope this n args).
Proof.
  unfold constructScope. apply keeps_bind; [apply keeps_lift | intros parsed].
  destruct (negb _); [apply keeps_throw|].
  apply keeps_bind; [apply keeps_currentTargetField | intros currentScope].
  destruct (length args =? 0)%nat; [apply keeps_ret|].
  destruct (option_map _ _); [|apply keeps_throw].
  apply keeps_bind; [apply keeps_followed | intros ?; apply keeps_ret].
Qed.

Create HintDb keeps.

#[local] Hint Resolve keeps_ret keeps_throw keeps_lift keeps_followed keeps_tryCatch keeps_getStack
  keeps_mapGet keeps_pop keeps_reverseInPlace keeps_newMap keeps_mapSet
  keeps_randomBelow keeps_currentTargetField keeps_constructScope : keeps.

(** One step in a computation: a bind, or a case distinction. *)
Ltac keeps_step :=
  lazymatch goal with
  | |- keeps _ (bind _ _) => apply keeps_bind; [|intros ?]
  | |- keeps _ (match ?x with _ => _ end) => destruct x
  | |- keeps _ visitUndefined => apply keeps_throw
  end.

Ltac keeps_auto := repeat keeps_step; eauto with keeps.

(** The visitors, for a method [evaluateTemplate] that keeps the property. *)
Variable evaluateTemplate : string → ScopeArgument → M value.
Hypothesis Hev : ∀ n scope, keeps I (evaluateTemplate n scope).

Lemma keeps_lookup name f args :
  customizedEvaluatorLookup this evaluateTemplate name = inr (Some f) →
  keeps I (f args).
Proof.
  unfold customizedEvaluatorLookup. intros Hf.
  destruct (baseLookup this name) as [standard|]; [injection Hf as <-; apply keeps_lift|].
  destruct (parseTemplateName _) as [e|[reExecute templateName]]; [done|].
  repeat case_match; try done; injection Hf as <-.
  all: try unfold templateEvaluator; try unfold templateFunction;
    try unfold activityAttachment; try unfold isTemplate; keeps_auto.
Qed.

Lemma keeps_tryEvaluate e : keeps I (tryEvaluate this evaluateTemplate e).
Proof.
  induction e as [v error|type args next IH]; cbn [tryEvaluate]; [apply keeps_ret|].
  destruct (customizedEvaluatorLookup this evaluateTemplate type) as [e|[f|]] eqn:E;
    [apply keeps_throw | | apply keeps_throw].
  apply keeps_bind; [|intros r; apply IH].
  apply keeps_tryCatch. by eapply keeps_lookup.
Qed.

Lemma keeps_evalByAdaptiveExpression exp scope :
  keeps I (evalByAdaptiveExpression this evaluateTemplate exp scope).
Proof.
  unfold evalByAdaptiveExpression. destruct (parse exp); [apply keeps_throw|].
  apply keeps_tryEvaluate.
Qed.

#[local] Hint Resolve keeps_evalByAdaptiveExpression : keeps.

Lemma keeps_evalExpression exp context errorPrefix :
  keeps I (evalExpression this evaluateTemplate exp context errorPrefix).
Proof. unfold evalExpression. keeps_auto. Qed.

Lemma keeps_evalExpressionInCondition exp context errorPrefix :
  keeps I (evalExpressionInCondition this evaluateTemplate exp context errorPrefix).
Proof. unfold evalExpressionInCondition. keeps_auto. Qed.

#[local] Hint Resolve keeps_evalExpression keeps_evalExpressionInCondition : keeps.

Lemma keeps_evalCondition condition :
  keeps I (evalCondition this evaluateTemplate condition).
Proof. unfold evalCondition. keeps_auto. Qed.

Lemma keeps_normalTemplateStringPieces ctx prefixErrorMsg children result :
  keeps I (normalTemplateStringPieces this evaluateTemplate ctx prefixErrorMsg children result).
Proof.
  revert result. induction children as [|node children IH]; intros result;
    cbn [normalTemplateStringPieces]; keeps_auto.
Qed.

#[local] Hint Resolve keeps_evalCondition keeps_normalTemplateStringPieces : keeps.

Lemma keeps_visitNormalTemplateString ctx :
  keeps I (visitNormalTemplateString this evaluateTemplate ctx).
Proof. unfold visitNormalTemplateString. keeps_auto. Qed.

#[local] Hint Resolve keeps_visitNormalTemplateString : keeps.

Lemma keeps_visitNormalTemplateBody ctx :
  keeps I (visitNormalTemplateBody this evaluateTemplate ctx).
Proof. unfold visitNormalTemplateBody. keeps_auto. Qed.

#[local] Hint Resolve keeps_visitNormalTemplateBody : keeps.

Lemma keeps_visitIfElseBody ifRules :
  keeps I (visitIfElseBody this evaluateTemplate ifRules).
Proof. induction ifRules as [|ifRule rest IH]; cbn [visitIfElseBody]; keeps_auto. Qed.

Lemma keeps_switchCaseLoop len idx s nodes :
  keeps I (switchCaseLoop this evaluateTemplate len idx s nodes).
Proof.
  revert idx. induction nodes as [|caseNode rest IH]; intros idx;
    cbn [switchCaseLoop]; keeps_auto.
Qed.

#[local] Hint Resolve keeps_visitIfElseBody keeps_switchCaseLoop : keeps.

Lemma keeps_visitSwitchCaseBody nodes :
  keeps I (visitSwitchCaseBody this evaluateTemplate nodes).
Proof. unfold visitSwitchCaseBody. keeps_auto. Qed.

Lemma keeps_structureValueItem ctx children itemStringResult :
  keeps I (structureValueItem this evaluateTemplate ctx children itemStringResult).
Proof.
  revert itemStringResult. induction children as [|node children IH];
    intros itemStringResult; cbn [structureValueItem]; keeps_auto.
Qed.

#[local] Hint Resolve keeps_visitSwitchCaseBody keeps_structureValueItem : keeps.

Lemma keeps_structureValueItems ctx values result :
  keeps I (structureValueItems this evaluateTemplate ctx values result).
Proof.
  revert result. induction values as [|item values IH]; intros result;
    cbn [structureValueItems]; keeps_auto.
Qed.

#[local] Hint Resolve keeps_structureValueItems : keeps.

Lemma keeps_visitStructureValue ctx :
  keeps I (visitStructureValue this evaluateTemplate ctx).
Proof. unfold visitStructureValue. keeps_auto. Qed.

#[local] Hint Resolve keeps_visitStructureValue : keeps.

Lemma keeps_structuredBodyLines typeName result bodys :
  keeps I (structuredBodyLines this evaluateTemplate typeName result bodys).
Proof.
  revert result. induction bodys as [|body bodys IH]; intros result;
    cbn [structuredBodyLines]; [apply keeps_ret|].
  apply keeps_bind; [|intros ?; apply IH].
  unfold structuredBodyLine. keeps_auto.
Qed.

#[local] Hint Resolve keeps_structuredBodyLines : keeps.

Lemma keeps_visit tree : keeps I (visit this evaluateTemplate tree).
Proof. unfold visit, visitStructuredTemplateBody. keeps_auto. Qed.

End KeepsFacts.

Section EvaluateTemplateKeeps.

Context `{TemplateErrors} `{TemplateExtensions} `{Host}.

Variable this : Evaluator.
Variable I : State → Prop.
Hypothesis HI : Invariant this I.

(** [evaluateTemplate] keeps every property that the operations on the
    state keep, whatever the expressions of the templates do. *)
Lemma evaluateTemplate_keeps fuel input scope :
  keeps I (evaluateTemplate fuel this input scope).
Proof.
  revert input scope. induction fuel as [|fuel IH]; intros input scope.
  { intros st r st' Hst [= _ <-]. exact Hst. }
  cbn [evaluateTemplate].
  apply keeps_bind; [by apply keeps_lift | intros [reExecute n]].
  destruct (inTemplateMap this n) eqn:Hmap; cbn [negb]; [|by apply keeps_throw].
  intros st r st' Hst Hrun.
  unfold bind at 1 in Hrun. cbn [getStack] in Hrun.
  destruct (someNamed (evaluationTargetStack st) n) eqn:Hloop.
  - revert Hrun. apply (keeps_bind I); [by apply (keeps_reverseInPlace this) | | exact Hst].
    intros reversed. by apply keeps_throw.
  - unfold bind at 1 in Hrun. cbn [newMap] in Hrun.
    unfold bind at 1 in Hrun. cbn [getStack evaluationTargetStack] in Hrun.
    assert (Hallocated : I (snd (newMap st))) by by apply HI.
    cbn [newMap snd] in Hallocated.
    set (allocatedState := {| evaluationTargetStack := evaluationTargetStack st;
                              mapStore := <[allocated st:=∅]> (mapStore st);
                              allocated := S (allocated st);
                              randomCalls := randomCalls st |}) in *.
    unfold bind at 1 in Hrun.
    assert (Hcached : ∃ cached,
              match last (evaluationTargetStack st) with
              | Some previous =>
                  if negb reExecute
                  then mapGet (evaluatedChildren previous)
                         (getId n (toCustomizedMemory scope))
                  else ret None
              | None => ret None
              end allocatedState = (Returns cached, allocatedState)).
    { destruct (last (evaluationTargetStack st)); [destruct (negb reExecute)|];
        by eexists. }
    destruct Hcached as [cached Hcached]. rewrite Hcached in Hrun.
    destruct cached as [v|].
    + injection Hrun as _ <-. exact Hallocated.
    + unfold bind at 1 in Hrun.
      change (push _ allocatedState) with (Returns tt, entered st n scope) in Hrun.
      cbv iota in Hrun. revert Hrun.
      assert (Hentered : I (entered st n scope)) by (by apply HI).
      apply (keeps_bind I); [ | | exact Hentered].
      { destruct (templateMap this !! n);
          [by apply (keeps_visit this) | by apply keeps_throw]. }
      intros result. apply keeps_bind; [|intros ?].
      * destruct (last (evaluationTargetStack st));
          [by apply (keeps_mapSet this) | by apply keeps_ret].
      * apply keeps_bind; [by apply (keeps_pop this) | intros ?; by apply keeps_ret].
Qed.

End EvaluateTemplateKeeps.

(** ** The frames of the stack *)

Section StackFacts.

Context `{TemplateErrors} `{TemplateExtensions} `{Host}.

Lemma someNamed_false stack n :
  someNamed stack n = false → n ∉ map templateName stack.
Proof.
  unfold someNamed. intros Hno Hin.
  apply list_elem_of_In, in_map_iff in Hin as (u & Hname & Hu).
  assert (Hyes : existsb (fun u => String.eqb (templateName u) n) stack = true).
  { apply existsb_exists. exists u. split; [done|]. by apply String.eqb_eq. }
  congruence.
Qed.

Lemma removelast_prefix {A} (l : list A) : ∃ k, l = (removelast l ++ k)%list.
Proof.
  destruct l as [|a l]; [by exists []|].
  exists [List.last (a :: l) a]. by apply app_removelast_last.
Qed.

Lemma elem_of_rev {A} (l : list A) x : x ∈ rev l → x ∈ l.
Proof. rewrite !list_elem_of_In. apply in_rev. Qed.

Lemma NoDup_map_rev {A B} (f : A → B) (l : list A) :
  NoDup (map f l) → NoDup (map f (rev l)).
Proof.
  rewrite map_rev. rewrite !NoDup_ListNoDup. apply List.NoDup_rev.
Qed.

Lemma wellFormed_Invariant (this : Evaluator) : Invariant this (wellFormed this).
Proof.
  split.
  - intros st (Hnames & Hknown & Hmaps & Hallocated). unfold wellFormed. cbn.
    destruct (removelast_prefix (evaluationTargetStack st)) as [k Hk].
    assert (Hin : ∀ u, u ∈ removelast (evaluationTargetStack st) →
                       u ∈ evaluationTargetStack st).
    { intros u Hu. rewrite Hk. apply elem_of_app. by left. }
    rewrite Hk, map_app in Hnames, Hmaps.
    apply NoDup_app in Hnames as [Hnames _]. apply NoDup_app in Hmaps as [Hmaps _].
    split; [done | split; [auto | split; [done | auto]]].
  - intros st (Hnames & Hknown & Hmaps & Hallocated). unfold wellFormed. cbn.
    split; [by apply NoDup_map_rev | split; [|split; [by apply NoDup_map_rev|]]].
    + intros u Hu%elem_of_rev. by apply Hknown.
    + intros u Hu%elem_of_rev. by apply Hallocated.
  - intros st (Hnames & Hknown & Hmaps & Hallocated). unfold wellFormed. cbn.
    split; [done | split; [done | split; [done|]]].
    intros u Hu. specialize (Hallocated u Hu). lia.
  - intros st r k v Hst. exact Hst.
  - intros st Hst. exact Hst.
  - intros st n scope (Hnames & Hknown & Hmaps & Hallocated) Hloop Hmap.
    unfold wellFormed, entered. cbn. rewrite !map_app. cbn.
    split; [|split; [|split]].
    + apply NoDup_app. split; [done|]. split; [|apply NoDup_singleton].
      intros x Hx ->%list_elem_of_singleton. by apply someNamed_false in Hloop.
    + intros u [Hu| ->%list_elem_of_singleton]%elem_of_app; [auto | done].
    + apply NoDup_app. split; [done|]. split; [|apply NoDup_singleton].
      intros x Hx ->%list_elem_of_singleton.
      apply list_elem_of_In, in_map_iff in Hx as (u & Hu & Hin).
      apply list_elem_of_In in Hin. specialize (Hallocated u Hin). lia.
    + intros u [Hu| ->%list_elem_of_singleton]%elem_of_app; cbn; [|lia].
      specialize (Hallocated u Hu). lia.
Qed.

(** The stack is never deeper than the number of names that pass the test
    [name in this.templateMap]: the names of the templates and the names
    that a plain object inherits. *)
Lemma wellFormed_depth (this : Evaluator) (st : State) :
  wellFormed this st →
  (length (evaluationTargetStack st)
   ≤ size (templateMap this) + length Js.prototypeNames)%nat.
Proof.
  intros (Hnames & Hknown & _).
  rewrite <- (length_map templateName), <- size_dom.
  unfold size, set_size, compose.
  rewrite <- length_app.
  apply submseteq_length, NoDup_submseteq; [done|].
  intros n Hn. apply elem_of_app.
  apply list_elem_of_In, in_map_iff in Hn as (u & <- & Hu).
  apply list_elem_of_In, Hknown in Hu. unfold inTemplateMap in Hu.
  apply orb_true_iff in Hu as [Hown%bool_decide_eq_true|Hinh%bool_decide_eq_true].
  - left. by apply elem_of_elements, elem_of_dom.
  - by right.
Qed.

(** X1.  The names of the frames of the stack stay different from one another
    and names that pass the test [name in this.templateMap] (the name of a
    template, or a name that a plain object inherits, such as [toString]),
    and their maps stay different from one another: a run of
    [evaluateTemplate] from a state where this holds ends, however it ends,
    in a state where it holds.  So the stack is never deeper than the number
    of templates plus the number of inherited names. *)
Theorem evaluateTemplate_wellFormed (fuel : nat) (this : Evaluator) (input : string)
    (scope : ScopeArgument) (st : State) :
  wellFormed this st →
  wellFormed this (snd (evaluateTemplate fuel this input scope st))
  ∧ (length (evaluationTargetStack (snd (evaluateTemplate fuel this input scope st)))
     ≤ size (templateMap this) + length Js.prototypeNames)%nat.
Proof.
  intros Hst.
  assert (Hend : wellFormed this (snd (evaluateTemplate fuel this input scope st))).
  { destruct (evaluateTemplate fuel this input scope st) as [r st'] eqn:Hrun.
    eapply (evaluateTemplate_keeps this (wellFormed this));
      [apply wellFormed_Invariant | exact Hst | exact Hrun]. }
  split; [exact Hend | by apply wellFormed_depth].
Qed.

(** X2.  A run of [evaluateTemplate] allocates and draws, it never takes back:
    the counter of allocated maps and the number of random draws do not
    decrease, and a map allocated before the run keeps every key it has. *)
Theorem evaluateTemplate_never_takes_back (fuel : nat) (this : Evaluator)
    (input : string) (scope : ScopeArgument) (st : State) :
  (allocated st ≤ allocated (snd (evaluateTemplate fuel this input scope st)))%nat
  ∧ (randomCalls st ≤ randomCalls (snd (evaluateTemplate fuel this input scope st)))%nat
  ∧ (∀ r k, r < allocated st → is_Some (mapOf st r !! k) →
       is_Some (mapOf (snd (evaluateTemplate fuel this input scope st)) r !! k)).
Proof.
  set (I := fun s : State =>
         (allocated st ≤ allocated s)%nat ∧ (randomCalls st ≤ randomCalls s)%nat
         ∧ (∀ r k, r < allocated st → is_Some (mapOf st r !! k) →
                   is_Some (mapOf s r !! k))).
  assert (HI : Invariant this I).
  { split; unfold I.
    - intros s Hs. exact Hs.
    - intros s Hs. exact Hs.
    - intros s (Ha & Hr & Hm). cbn. repeat split; [lia | done |].
      intros r k Hlt Hk. unfold mapOf. cbn.
      rewrite lookup_insert_ne by lia. by apply Hm.
    - intros s r k v (Ha & Hr & Hm). cbn. repeat split; [done..|].
      intros r' k' Hlt Hk. unfold mapOf at 1. cbn.
      destruct (decide (r = r')) as [->|Hne].
      + rewrite lookup_insert_eq. cbn.
        destruct (decide (k = k')) as [->|Hne]; [by rewrite lookup_insert_eq|].
        rewrite lookup_insert_ne by done. by apply Hm.
      + rewrite lookup_insert_ne by done. by apply Hm.
    - intros s (Ha & Hr & Hm). cbn. repeat split; [done | lia | done].
    - intros s n sc (Ha & Hr & Hm) _ _. unfold entered. cbn.
      repeat split; [lia | done |].
      intros r k Hlt Hk. unfold mapOf. cbn.
      rewrite lookup_insert_ne by lia. by apply Hm. }
  assert (Hst : I st) by (unfold I; auto).
  destruct (evaluateTemplate fuel this input scope st) as [r st'] eqn:Hrun.
  apply (evaluateTemplate_keeps this I HI fuel input scope st r st' Hst Hrun).
Qed.

End StackFacts.

(** ** Names, messages and expressions *)

Module NameFacts.

Lemma endsWith_length s p :
  Str.endsWith s p = true → (String.length p <= String.length s)%nat.
Proof.
  induction s as [|c s IH]; cbn [Str.endsWith].
  - rewrite orb_false_r. intros <-%String.eqb_eq. done.
  - intros [<-%String.eqb_eq|Hrest%IH]%orb_true_iff; cbn [String.length]; lia.
Qed.

Lemma endsWith_split s p :
  Str.endsWith s p = true →
  s = Str.substr0 (String.length s - String.length p) s +:+ p.
Proof.
  induction s as [|c s IH].
  - cbn [Str.endsWith]. rewrite orb_false_r. intros <-%String.eqb_eq. reflexivity.
  - cbn [Str.endsWith]. intros [<-%String.eqb_eq|Hrest]%orb_true_iff.
    + rewrite Nat.sub_diag. reflexivity.
    + pose proof (endsWith_length _ _ Hrest) as Hlen.
      cbn [String.length].
      replace (S (String.length s) - String.length p)
        with (S (String.length s - String.length p)) by lia.
      change (String c s
              = String c (Str.substr0 (String.length s - String.length p) s +:+ p)).
      f_equal. by apply IH.
Qed.

End NameFacts.

(** X3.  A name is empty and refused, or it is read as a pure name and a mark:
    the mark is set exactly for a name that ends with [!], and the pure
    name followed by [!], when the mark is set, is the name read. *)
Theorem parseTemplateName_reads (input : string) :
  (input = "" ∧ parseTemplateName input = inl (Error "template name is empty."))
  ∨ (input ≠ "" ∧
     ∃ n, parseTemplateName input = inr (Str.endsWith input ReExecuteSuffix, n)
          ∧ input = (if Str.endsWith input ReExecuteSuffix
                     then n +:+ ReExecuteSuffix else n)).
Proof.
  unfold parseTemplateName.
  destruct (String.eqb input "") eqn:Hempty.
  - left. by apply String.eqb_eq in Hempty.
  - right. split; [by apply String.eqb_neq|].
    destruct (Str.endsWith input ReExecuteSuffix) eqn:Hmark.
    + eexists. split; [reflexivity|]. by apply NameFacts.endsWith_split.
    + by eexists.
Qed.

(** X4.  Messages are put together with one space: two messages that are
    not empty give the first, one space, and the second.  The empty
    message is neutral, and the order of grouping does not matter. *)
Theorem concatErrorMsg_monoid (a b c : string) :
  concatErrorMsg "" a = a
  ∧ concatErrorMsg a "" = a
  ∧ (a ≠ "" → b ≠ "" → concatErrorMsg a b = a +:+ " " +:+ b)
  ∧ concatErrorMsg (concatErrorMsg a b) c = concatErrorMsg a (concatErrorMsg b c).
Proof.
  assert (Happ : ∀ x y z : string, (x +:+ y) +:+ z = x +:+ (y +:+ z)).
  { intros x y z. induction x as [|ch x IH]; [done|].
    change (String ch ((x +:+ y) +:+ z) = String ch (x +:+ (y +:+ z))).
    by f_equal. }
  split; [reflexivity|]. split; [|split].
  - unfold concatErrorMsg. by destruct a.
  - intros Ha Hb. unfold concatErrorMsg.
    by rewrite (proj2 (String.eqb_neq _ _) Ha), (proj2 (String.eqb_neq _ _) Hb).
  - destruct a as [|a0 a], b as [|b0 b], c as [|c0 c]; try reflexivity.
    unfold concatErrorMsg.
    change (String a0 a +:+ " " +:+ String b0 b =? "") with false.
    change (String b0 b +:+ " " +:+ String c0 c =? "") with false.
    exact (Happ (String a0 a) (" " +:+ String b0 b) (" " +:+ String c0 c)).
Qed.

(** ** Expressions, conditions and template strings *)

Section ExpressionFacts.

Context `{TemplateErrors} `{TemplateExtensions} `{Host}.

Variable this : Evaluator.
Variable evaluateTemplate : string → ScopeArgument → M value.

Lemma evalExpression_defined exp context errorPrefix st v st' :
  evalExpression this evaluateTemplate exp context errorPrefix st = (Returns v, st') →
  v ≠ VUndefined.
Proof.
  unfold evalExpression. intros Hrun.
  apply bind_inv in Hrun as (sc & st1 & _ & Hrun).
  apply bind_inv in Hrun as ([result error] & st2 & _ & Hrun).
  cbv beta iota in Hrun.
  destruct (given error || _) eqn:Efail.
  - apply bind_inv in Hrun as (n & st3 & _ & Hrun).
    apply bind_inv in Hrun as (stack & st4 & _ & Hrun).
    apply bind_inv in Hrun as (u & st5 & _ & Hrun). discriminate.
  - apply orb_false_iff in Efail as [_ Estrict].
    destruct result; cbn in Hrun, Estrict; try (injection Hrun as <- _; discriminate).
    rewrite Estrict in Hrun. injection Hrun as <- _. discriminate.
Qed.

Lemma normalTemplateStringPieces_defined ctx prefixErrorMsg children result st out st' :
  Forall (λ u, u ≠ VUndefined) result →
  normalTemplateStringPieces this evaluateTemplate ctx prefixErrorMsg children result st
  = (Returns out, st') →
  Forall (λ u, u ≠ VUndefined) out.
Proof.
  revert result st. induction children as [|node rest IH]; intros result st Hres Hrun.
  - injection Hrun as <- _. done.
  - cbn [normalTemplateStringPieces] in Hrun.
    destruct (lp.symbol_type node);
      try (by eapply IH; [|exact Hrun];
              first [ exact Hres | apply Forall_app; split; [exact Hres|];
                                   by apply Forall_singleton ]).
    apply bind_inv in Hrun as (v & st1 & Hv & Hrun).
    eapply IH; [|exact Hrun]. apply Forall_app. split; [exact Hres|].
    apply Forall_singleton. by eapply evalExpression_defined.
Qed.

Lemma visitNormalTemplateString_defined ctx st v st' :
  visitNormalTemplateString this evaluateTemplate ctx st = (Returns v, st') →
  v ≠ VUndefined.
Proof.
  unfold visitNormalTemplateString. intros Hrun.
  apply bind_inv in Hrun as (out & st1 & Hout & Hrun).
  apply normalTemplateStringPieces_defined in Hout; [|by apply Forall_nil].
  destruct out as [|u [|u' out]]; try (injection Hrun as <- _; discriminate).
  apply Forall_cons in Hout as [Hu _].
  destruct (Js.isString u); injection Hrun as <- _; [discriminate | exact Hu].
Qed.

(** X5.  A normal template body that returns does not return [undefined]: an
    expression whose value is [undefined] throws in strict mode and is the
    string [null] otherwise, and every other piece of a template string is
    a string. *)
Theorem visitNormalTemplateBody_never_undefined ctx st v st' :
  visitNormalTemplateBody this evaluateTemplate ctx st = (Returns v, st') →
  v ≠ VUndefined.
Proof.
  unfold visitNormalTemplateBody. intros Hrun.
  apply bind_inv in Hrun as (i & st1 & _ & Hrun).
  destruct (lp.templateString ctx !! i) as [str|]; [|discriminate].
  destruct (lp.normalTemplateString str) as [s|]; [|discriminate].
  by eapply visitNormalTemplateString_defined.
Qed.

(** X27.  An expression that ends with an error, or with [undefined] in
    strict mode, makes [evalExpression] throw, after one frame is taken
    off the stack.  The message has the error of the expression in front
    (or the message of a null expression), followed by the message for
    the text at hand; the template it names is that of the frame on top
    of the stack when the expression has been evaluated. *)
Theorem evalExpression_error_names_the_top_frame exp context errorPrefix
    st t result error st1 t1 :
  last (evaluationTargetStack st) = Some t →
  evalByAdaptiveExpression this evaluateTemplate (trimExpression exp) (scope t) st
  = (Returns (result, error), st1) →
  given error = true ∨ (result = VUndefined ∧ strictMode (lgOptions this) = true) →
  last (evaluationTargetStack st1) = Some t1 →
  evalExpression this evaluateTemplate exp context errorPrefix st
  = (Throws (checkExpressionResult (trimExpression exp) error result
               (templateName t1) context errorPrefix),
     snd (pop st1))
  ∧ evaluationTargetStack (snd (pop st1)) = removelast (evaluationTargetStack st1)
  ∧ message (checkExpressionResult (trimExpression exp) error result
               (templateName t1) context errorPrefix)
    = concatErrorMsg
        (if given error then default "" error else nullExpression (trimExpression exp))
        (match context with
         | Some text => errorExpression text (templateName t1) errorPrefix
         | None => ""
         end).
Proof.
  intros Hlast Hrun Hcase Hlast1. repeat apply conj.
  - unfold evalExpression.
    erewrite bind_Returns by (by apply currentTargetField_Some).
    erewrite bind_Returns by exact Hrun. cbv beta iota.
    assert (given error
            || (match result with VUndefined => true | _ => false end)
               && strictMode (lgOptions this) = true) as ->.
    { destruct Hcase as [-> | [-> ->]]; [done | apply orb_true_r]. }
    erewrite bind_Returns by (by apply currentTargetField_Some).
    erewrite bind_Returns by reflexivity.
    destruct (evaluationTargetStack st1) as [|u stack] eqn:Hstack; [discriminate|].
    cbn [length Nat.ltb Nat.leb]. erewrite bind_Returns by reflexivity. reflexivity.
  - reflexivity.
  - unfold checkExpressionResult. cbn [message].
    destruct Hcase as [-> | [-> _]].
    + by destruct context.
    + destruct (given error); by destruct context.
Qed.

(** *** Conditions *)

Lemma evalExpressionInCondition_strict exp context errorPrefix st b st' :
  strictMode (lgOptions this) = true →
  evalExpressionInCondition this evaluateTemplate exp context errorPrefix st
  = (Returns b, st') →
  b = true.
Proof.
  unfold evalExpressionInCondition. intros Hstrict Hrun.
  apply bind_inv in Hrun as (sc & st1 & _ & Hrun).
  apply bind_inv in Hrun as ([result error] & st2 & _ & Hrun).
  cbv beta iota in Hrun. rewrite Hstrict in Hrun. cbn [andb] in Hrun.
  destruct (given error || negb (Js.truthy result)).
  - apply bind_inv in Hrun as (n & st3 & _ & Hrun).
    apply bind_inv in Hrun as (stack & st4 & _ & Hrun).
    apply bind_inv in Hrun as (u & st5 & _ & Hrun). discriminate.
  - by injection Hrun as <- _.
Qed.

Lemma evalCondition_strict condition st b st' :
  strictMode (lgOptions this) = true →
  evalCondition this evaluateTemplate condition st = (Returns b, st') →
  b = true.
Proof.
  unfold evalCondition. intros Hstrict Hrun.
  destruct (lp.ic_EXPRESSION condition) as [|expression rest].
  - by injection Hrun as <- _.
  - by eapply evalExpressionInCondition_strict.
Qed.

(** X6.  In strict mode a condition is never found false: it holds or it
    throws.  So, of the rules of a conditional body, only the body of the
    first rule that has one is ever visited: when the conditional body
    returns, it returns what this body returns. *)
Theorem strict_mode_first_rule_or_error ifRule rest body st v st' :
  strictMode (lgOptions this) = true →
  lp.icr_normalTemplateBody ifRule = Some body →
  visitIfElseBody this evaluateTemplate (ifRule :: rest) st = (Returns v, st') →
  ∃ st1,
    evalCondition this evaluateTemplate (lp.ifCondition ifRule) st = (Returns true, st1)
    ∧ visitNormalTemplateBody this evaluateTemplate body st1 = (Returns v, st').
Proof.
  intros Hstrict Hbody Hrun. cbn [visitIfElseBody] in Hrun.
  apply bind_inv in Hrun as (c & st1 & Hc & Hrun).
  assert (c = true) as -> by (by eapply evalCondition_strict).
  rewrite Hbody in Hrun. by exists st1.
Qed.

(** X7.  The rules of a conditional body are tried in order.  The body of the
    first rule whose condition holds and that has a body is visited, in
    the state the conditions have left, and its outcome is the outcome of
    the conditional body; when no rule applies, the conditional body
    returns [undefined]. *)
Theorem visitIfElseBody_first_applicable_rule before st st1 :
  noRuleApplies this evaluateTemplate before st st1 →
  visitIfElseBody this evaluateTemplate before st = (Returns VUndefined, st1)
  ∧ ∀ ifRule body after st2,
      evalCondition this evaluateTemplate (lp.ifCondition ifRule) st1
      = (Returns true, st2) →
      lp.icr_normalTemplateBody ifRule = Some body →
      visitIfElseBody this evaluateTemplate (before ++ ifRule :: after)%list st
      = visitNormalTemplateBody this evaluateTemplate body st2.
Proof.
  induction 1 as [st|rule rest st st1 st2 c Hc Hno Hrest [IHnone IHsome]].
  - split; [reflexivity|]. intros ifRule body after st2 Hc Hbody.
    cbn [app visitIfElseBody]. erewrite bind_Returns by exact Hc. by rewrite Hbody.
  - assert (Hskip : ∀ rules,
              visitIfElseBody this evaluateTemplate (rule :: rules) st
              = visitIfElseBody this evaluateTemplate rules st1).
    { intros rules. cbn [visitIfElseBody]. erewrite bind_Returns by exact Hc.
      destruct Hno as [->| ->]; [done | by destruct c]. }
    split.
    + by rewrite Hskip.
    + intros ifRule body after st3 Hc' Hbody.
      change ((rule :: rest) ++ ifRule :: after)%list
        with (rule :: (rest ++ ifRule :: after))%list.
      rewrite Hskip. by apply IHsome.
Qed.

(** *** Template strings without expression *)

Lemma normalTemplateStringPieces_text ctx prefixErrorMsg children result st :
  textOnly children →
  normalTemplateStringPieces this evaluateTemplate ctx prefixErrorMsg children result st
  = (Returns (result ++ map VString (literalPieces children))%list, st).
Proof.
  revert result. induction children as [|node rest IH]; intros result Htext.
  - cbn. by rewrite app_nil_r.
  - assert (Hrest : textOnly rest) by (intros u Hu; apply Htext; by right).
    assert (Hnode : lp.symbol_type node ≠ lp.EXPRESSION) by (apply Htext; by left).
    cbn [normalTemplateStringPieces literalPieces].
    destruct (lp.symbol_type node); try done;
      rewrite IH by done; cbn [map]; by rewrite <- ?app_assoc.
Qed.

Lemma join_pieces (l : list string) :
  Str.join "" (map pieceToString (map VString l)) = Str.join "" l.
Proof. rewrite map_map. cbn. by rewrite map_id. Qed.

Lemma visitNormalTemplateString_text ctx st :
  textOnly (lp.nts_children ctx) →
  visitNormalTemplateString this evaluateTemplate ctx st
  = (Returns (VString (Str.join "" (literalPieces (lp.nts_children ctx)))), st).
Proof.
  intros Htext. unfold visitNormalTemplateString.
  erewrite bind_Returns by (by apply normalTemplateStringPieces_text).
  cbn [app]. destruct (literalPieces (lp.nts_children ctx)) as [|s [|s' l]]; try reflexivity.
  cbv beta iota. by rewrite join_pieces.
Qed.

(** X8.  A template string without expression is a constant: it returns
    the texts of its tokens put together, the escapes read, the dash and
    the marks of a multi-line text left out, and it leaves the state as it
    is. *)
Theorem visitNormalTemplateString_text_only ctx st :
  textOnly (lp.nts_children ctx) →
  visitNormalTemplateString this evaluateTemplate ctx st
  = (Returns (VString (Str.join "" (literalPieces (lp.nts_children ctx)))), st).
Proof.
  intros Htext. unfold visitNormalTemplateString.
  erewrite bind_Returns by (by apply normalTemplateStringPieces_text).
  cbn [app]. destruct (literalPieces (lp.nts_children ctx)) as [|s [|s' l]]; try reflexivity.
  cbv beta iota. by rewrite join_pieces.
Qed.

(** X9.  A body whose candidates are template strings without expression
    returns the text of one of its candidates, after one random draw, and
    changes nothing else; a body without candidate throws. *)
Theorem visitNormalTemplateBody_text_candidates ctx st :
  (∀ str, str ∈ lp.templateString ctx →
          ∃ s, lp.normalTemplateString str = Some s ∧ textOnly (lp.nts_children s)) →
  let st' := {| evaluationTargetStack := evaluationTargetStack st;
                mapStore := mapStore st; allocated := allocated st;
                randomCalls := S (randomCalls st) |} in
  (lp.templateString ctx = [] →
   visitNormalTemplateBody this evaluateTemplate ctx st
   = (Throws (TypeError "Cannot read property 'normalTemplateString' of undefined"), st'))
  ∧ (lp.templateString ctx ≠ [] →
     ∃ str s,
       str ∈ lp.templateString ctx
       ∧ lp.normalTemplateString str = Some s
       ∧ visitNormalTemplateBody this evaluateTemplate ctx st
         = (Returns (VString (Str.join "" (literalPieces (lp.nts_children s)))), st')).
Proof.
  intros Hall st'. unfold visitNormalTemplateBody. split.
  - intros ->. erewrite bind_Returns by reflexivity. reflexivity.
  - intros Hne. erewrite bind_Returns by reflexivity. fold st'.
    set (i := if (length (lp.templateString ctx) =? 0)%nat then _ else _).
    assert (Hi : (i < length (lp.templateString ctx))%nat).
    { unfold i. destruct (lp.templateString ctx) as [|a l]; [done|].
      cbn [length Nat.eqb]. apply Nat.mod_upper_bound. done. }
    apply lookup_lt_is_Some_2 in Hi as [str Hstr]. rewrite Hstr.
    assert (Hin : str ∈ lp.templateString ctx) by (by eapply list_elem_of_lookup_2).
    destruct (Hall str Hin) as (s & Hs & Htext).
    exists str, s. split; [done|]. split; [done|]. rewrite Hs.
    by apply visitNormalTemplateString_text.
Qed.

End ExpressionFacts.

(** ** The functions an expression can call *)

Module LookupFacts.

Lemma substring_all s : String.substring 0 (String.length s) s = s.
Proof. induction s as [|c s IH]; [done|]. cbn. by rewrite IH. Qed.

Lemma substringFrom_lg n : Str.substringFrom 3 ("lg." +:+ n) = n.
Proof.
  unfold Str.substringFrom.
  change (String.length ("lg." +:+ n) - 3) with (String.length n - 0).
  rewrite Nat.sub_0_r. apply substring_all.
Qed.

End LookupFacts.

Section LookupOrder.

Context `{TemplateErrors} `{TemplateExtensions} `{Host}.

Variable this : Evaluator.
Variable evaluateTemplate : string → ScopeArgument → M value.

(** X10.  The order in which a name is looked up.  A standard function of the
    expression language comes first, also before a template of this name.
    A name that is no standard function is a template when its pure name,
    the prefix [lg.] taken off, is the name of one: so a template hides
    the functions [template], [ActivityAttachment] and [isTemplate], and
    the prefix [lg.] reaches a template whose name a standard function
    has.  An empty name that is no standard function throws. *)
Theorem customizedEvaluatorLookup_order (name : string) :
  (∀ standardFunction,
     baseLookup this name = Some standardFunction →
     customizedEvaluatorLookup this evaluateTemplate name
     = inr (Some (λ args, lift (standardFunction args))))
  ∧ (∀ reExecute n,
       baseLookup this name = None →
       Str.startsWith name "lg." = false →
       parseTemplateName name = inr (reExecute, n) →
       is_Some (templateMap this !! n) →
       customizedEvaluatorLookup this evaluateTemplate name
       = inr (Some (templateEvaluator this evaluateTemplate name)))
  ∧ (∀ reExecute n,
       baseLookup this ("lg." +:+ name) = None →
       parseTemplateName name = inr (reExecute, n) →
       is_Some (templateMap this !! n) →
       customizedEvaluatorLookup this evaluateTemplate ("lg." +:+ name)
       = inr (Some (templateEvaluator this evaluateTemplate name)))
  ∧ (baseLookup this name = None →
     name = "" ∨ name = "lg." →
     customizedEvaluatorLookup this evaluateTemplate name
     = inl (Error "template name is empty.")).
Proof.
  unfold customizedEvaluatorLookup. repeat apply conj.
  - by intros f ->.
  - intros reExecute n -> -> -> Hmap. unfold inTemplateMap.
    by rewrite bool_decide_true.
  - intros reExecute n -> Hname Hmap. unfold inTemplateMap.
    change (Str.startsWith ("lg." +:+ name) "lg.") with (String.prefix "" name).
    assert (String.prefix "" name = true) as -> by (by destruct name).
    rewrite LookupFacts.substringFrom_lg, Hname. by rewrite bool_decide_true.
  - by intros -> [-> | ->].
Qed.

End LookupOrder.

(** ** The templates an evaluator knows *)

Section TemplateMapFacts.

Context `{TemplateErrors} `{TemplateExtensions} `{Host}.

Lemma foldl_insert_lookup (ts : list Template) (m : gmap string Template) n :
  foldl (λ m t, <[name t := t]> m) m ts !! n
  = match last (filter (λ t, name t = n) ts) with
    | Some t => Some t
    | None => m !! n
    end.
Proof.
  revert m. induction ts as [|t ts IH]; intros m; [done|].
  cbn [foldl]. rewrite IH. destruct (decide (name t = n)) as [Heq|Hne].
  - rewrite filter_cons_True by done. rewrite last_cons.
    destruct (last (filter _ ts)); [done|]. by rewrite <- Heq, lookup_insert_eq.
  - rewrite filter_cons_False by done.
    destruct (last (filter _ ts)); [done|]. by rewrite lookup_insert_ne.
Qed.

Lemma keyBy_lookup ts n : keyBy ts !! n = last (filter (λ t, name t = n) ts).
Proof.
  unfold keyBy. rewrite foldl_insert_lookup.
  by destruct (last (filter _ ts)).
Qed.

Lemma keyBy_None ts n : keyBy ts !! n = None ↔ ∀ t, t ∈ ts → name t ≠ n.
Proof.
  rewrite keyBy_lookup, last_None. split.
  - intros Hnil t Hin Hn.
    assert (Ht : t ∈ filter (λ t, name t = n) ts) by (by apply list_elem_of_filter).
    rewrite Hnil in Ht. by apply elem_of_nil in Ht.
  - intros Hall. destruct (filter _ ts) as [|t l] eqn:E; [done|].
    assert (Ht : t ∈ filter (λ t, name t = n) ts) by (rewrite E; by left).
    apply list_elem_of_filter in Ht as [Hn Hin]. by destruct (Hall t Hin).
Qed.

(** X11.  An evaluator made for a list of templates finds, under a name, the
    last template of the list that has this name, and nothing under a
    name that no template of the list has.  [isTemplate] answers with the
    test [name in this.templateMap] for the name it is given as it is, and
    leaves the state as it is: it says yes when a template has the name,
    and also when the name is one that a plain object inherits, such as
    [toString] or [constructor]. *)
Theorem newEvaluator_finds_the_last_of_a_name
    (ts : list Template) (p : ExpressionParser) (opt : EvaluationOptions)
    (n : string) :
  templateMap (newEvaluator ts p opt) !! n = last (filter (λ t, name t = n) ts)
  ∧ (templateMap (newEvaluator ts p opt) !! n = None ↔ ∀ t, t ∈ ts → name t ≠ n)
  ∧ (∀ st rest b,
       isTemplate (newEvaluator ts p opt) (VString n :: rest) st = (Returns (VBool b), st)
       ↔ (b = true ↔ (∃ t, t ∈ ts ∧ name t = n) ∨ Js.inherited n = true)).
Proof.
  cbn [templateMap newEvaluator]. split; [apply keyBy_lookup|].
  split; [apply keyBy_None|].
  intros st rest b. unfold isTemplate, inTemplateMap. cbn.
  assert (Hown : is_Some (keyBy ts !! n) ↔ ∃ t, t ∈ ts ∧ name t = n).
  { destruct (keyBy ts !! n) as [t|] eqn:E.
    - split; [intros _ | by eexists].
      rewrite keyBy_lookup in E. apply last_Some in E as [l E].
      assert (Ht : t ∈ filter (λ t, name t = n) ts)
        by (rewrite E; apply elem_of_app; right; by left).
      apply list_elem_of_filter in Ht as [Hn Hin]. by exists t.
    - split; [by intros [? ?]|]. intros (t & Hin & Hn).
      by destruct (proj1 (keyBy_None ts n) E t Hin). }
  assert (Hin : bool_decide (is_Some (keyBy ts !! n)) || Js.inherited n = true
                ↔ (∃ t, t ∈ ts ∧ name t = n) ∨ Js.inherited n = true).
  { rewrite orb_true_iff, bool_decide_eq_true. by rewrite Hown. }
  destruct (bool_decide (is_Some (keyBy ts !! n)) || Js.inherited n).
  - split.
    + by intros [= <-].
    + intros Hb. destruct b; [done|].
      by pose proof (proj2 Hb (proj1 Hin eq_refl)).
  - split.
    + by intros [= <-].
    + intros Hb. destruct b; [|done].
      by pose proof (proj2 Hin (proj1 Hb eq_refl)).
Qed.

(** X12.  [evaluate] for a name that no template of the collection and of its
    references has, the mark [!] left aside, throws the error of a
    template that does not exist, with the pure name, unless the name is
    one that a plain object inherits, such as [toString]: such a name
    passes the test [name in this.templateMap], and the evaluation throws
    a [TypeError] when it visits a body that is undefined.  For the empty
    name [evaluate] throws the error of an empty name. *)
Theorem evaluate_of_unknown_name (fuel : nat) (this : Templates) (scope : value)
    (opt : option EvaluationOptions) :
  checkErrors this = None →
  evaluate (S fuel) this "" scope opt = Throws (Error "template name is empty.")
  ∧ ∀ input reExecute n,
      parseTemplateName input = inr (reExecute, n) →
      (∀ t, t ∈ allTemplates this → name t ≠ n) →
      evaluate (S fuel) this input scope opt
      = if Js.inherited n
        then Throws (TypeError "Cannot read property 'accept' of undefined")
        else Throws (Error (templateNotExist n)).
Proof.
  intros Hcheck. unfold evaluate. rewrite Hcheck. split; [reflexivity|].
  intros input reExecute n Hname Hno.
  cbn [evaluateTemplate]. rewrite Hname. erewrite bind_Returns by reflexivity.
  cbv beta iota. unfold inTemplateMap. cbn [templateMap newEvaluator].
  rewrite (proj2 (keyBy_None _ _) Hno).
  rewrite bool_decide_false by (by intros [? ?]).
  destruct (Js.inherited n); cbn [orb negb]; reflexivity.
Qed.

(** X13.  A reference to a template passes the validation exactly when the
    template exists and the reference has no argument or as many
    arguments as the template has parameters. *)
Theorem checkTemplateReference_passes `{ValidationErrors} (this : Evaluator)
    (templateName : string) (children : list Expression) :
  checkTemplateReference this templateName children = None
  ↔ ∃ template,
      templateMap this !! templateName = Some template
      ∧ (children = [] ∨ length (parameters template) = length children).
Proof.
  unfold checkTemplateReference, inTemplateMap.
  destruct (templateMap this !! templateName) as [t|].
  - rewrite bool_decide_true by done. cbn [orb negb].
    destruct (length children =? 0)%nat eqn:E0; cbn [negb andb].
    + apply Nat.eqb_eq in E0. split; [|done]. intros _. exists t. split; [done|].
      left. by destruct children.
    + apply Nat.eqb_neq in E0.
      destruct (length (parameters t) =? length children)%nat eqn:E; cbn [negb].
      * apply Nat.eqb_eq in E. split; [|done]. intros _. exists t. by split; [|right].
      * apply Nat.eqb_neq in E. split; [done|].
        intros (t' & [= <-] & [-> | Hlen]); done.
  - destruct (negb _); (split; [done|]); by intros (t & ? & _).
Qed.

End TemplateMapFacts.

(** ** References to objects in a structured template *)

Module MergeFacts.

Lemma mergeKeys_get (result o : Js.object) (ks : list string) (k : string) :
  Js.get (mergeKeys result o ks) k
  = match Js.get result k with
    | Some v => Some v
    | None => if bool_decide (k ∈ ks) && negb (Js.inherited k)
              then Js.get o k else None
    end.
Proof.
  revert result. induction ks as [|key ks IH]; intros result; cbn [mergeKeys].
  - by destruct (Js.get result k).
  - destruct (Js.hasOwnProperty o key && negb (Js.has result key)) eqn:E.
    + apply andb_true_iff in E as [Ho Hr]. apply negb_true_iff in Hr.
      apply JsFacts.has_false in Hr as [Hr Hinh].
      unfold Js.hasOwnProperty in Ho. rewrite IH.
      destruct (decide (key = k)) as [->|Hne].
      * rewrite JsFacts.get_set_eq, Hr, Hinh. unfold Js.read.
        rewrite bool_decide_true by (by left). cbn [andb negb].
        by destruct (Js.get o k).
      * rewrite JsFacts.get_set_ne by done.
        destruct (Js.get result k); [done|].
        destruct (decide (k ∈ ks)) as [Hin|Hnin].
        -- rewrite !bool_decide_true; [done | by right | done].
        -- rewrite !bool_decide_false; [done | | done].
           intros [?|?]%elem_of_cons; [by subst | done].
    + rewrite IH. destruct (Js.get result k) eqn:Er; [done|].
      destruct (decide (k ∈ ks)) as [Hin|Hnin].
      * rewrite !bool_decide_true; [done | by right | done].
      * rewrite bool_decide_false by done.
        destruct (decide (key = k)) as [->|Hne].
        -- rewrite bool_decide_true by (by left). cbn [andb].
           apply andb_false_iff in E as [Ho|Hr].
           ++ unfold Js.hasOwnProperty in Ho.
              destruct (Js.get o k); [done|]. by destruct (negb _).
           ++ apply negb_false_iff in Hr. unfold Js.has, Js.hasOwnProperty in Hr.
              rewrite Er in Hr. cbn [orb] in Hr. by rewrite Hr.
        -- rewrite bool_decide_false; [done|].
           intros [?|?]%elem_of_cons; [by subst | done].
Qed.

Lemma get_keys (o : Js.object) k : k ∉ Js.keys o → Js.get o k = None.
Proof.
  unfold Js.keys. induction o as [|[k' v] o IH]; [done|]. cbn. intros Hnin.
  destruct (String.eqb k' k) eqn:E.
  - apply String.eqb_eq in E. subst. destruct Hnin. by left.
  - apply IH. intros Hin. apply Hnin. by right.
Qed.

End MergeFacts.

(** X14.  The merge of a referenced object into the result of a structured
    template is a union that prefers the result: an object whose [lgType]
    reads as the name of the structure gives the properties that the
    result does not answer for under [in], and takes none away.  The
    result answers for the names that a plain object inherits, so that a
    property of the object under such a name ([constructor], [toString],
    ...) is never taken over.  An object of this structure with a property
    [hasOwnProperty] of its own stops the evaluation with a [TypeError].
    An object without [lgType] or of another structure, and a value that
    is no object, give nothing. *)
Theorem mergeReference_is_a_union (result : Js.object) (typeName : string)
    (propertyObject : value) :
  (∀ o, propertyObject = VObject o →
        Js.has o LGType = true →
        Js.toString (Js.read o LGType) = inr typeName →
        Js.hasOwnProperty o "hasOwnProperty" = false →
        ∃ result',
          mergeReference result typeName propertyObject = inr result'
          ∧ ∀ k, Js.get result' k
                 = match Js.get result k with
                   | Some v => Some v
                   | None => if Js.inherited k then None else Js.get o k
                   end)
  ∧ (∀ o, propertyObject = VObject o →
          Js.has o LGType = true →
          Js.toString (Js.read o LGType) = inr typeName →
          Js.hasOwnProperty o "hasOwnProperty" = true →
          mergeReference result typeName propertyObject
          = inl (TypeError "propertyObject.hasOwnProperty is not a function"))
  ∧ (∀ o, propertyObject = VObject o →
          Js.has o LGType = false
          ∨ (∃ s, Js.toString (Js.read o LGType) = inr s ∧ s ≠ typeName) →
          mergeReference result typeName propertyObject = inr result)
  ∧ (Js.isObjectType propertyObject = false →
     mergeReference result typeName propertyObject = inr result).
Proof.
  repeat apply conj.
  - intros o -> Hhas Htag Hown. unfold mergeReference.
    rewrite Hhas, Htag, String.eqb_refl, Hown.
    eexists. split; [reflexivity|]. intros k. rewrite MergeFacts.mergeKeys_get.
    destruct (Js.get result k); [done|].
    destruct (Js.inherited k); [by rewrite andb_false_r|].
    case_bool_decide as Hk; [done|]. by rewrite MergeFacts.get_keys.
  - intros o -> Hhas Htag Hown. unfold mergeReference.
    by rewrite Hhas, Htag, String.eqb_refl, Hown.
  - intros o -> [Hhas|(s & Htag & Hne)]; unfold mergeReference.
    + by rewrite Hhas.
    + destruct (Js.has o LGType); [|done]. rewrite Htag.
      by rewrite (proj2 (String.eqb_neq _ _) Hne).
  - by destruct propertyObject.
Qed.

(** ** More of the collection *)

Module SeqFacts.

Lemma uniqueFrom_elem_of {A} (ref : A → nat) seen (l : list A) x :
  x ∈ uniqueFrom ref seen l → x ∈ l ∧ ref x ∉ seen.
Proof.
  revert seen. induction l as [|a l IH]; intros seen; cbn [uniqueFrom].
  - by intros ?%elem_of_nil.
  - case_bool_decide as Hseen.
    + intros [Hin Hns]%IH. split; [by right | done].
    + intros [->|[Hin Hns]%IH]%elem_of_cons; [split; [by left | done]|].
      split; [by right|]. intros Hs. apply Hns. by right.
Qed.

Lemma uniqueFrom_NoDup {A} (ref : A → nat) seen (l : list A) :
  NoDup (map ref (uniqueFrom ref seen l)).
Proof.
  revert seen. induction l as [|a l IH]; intros seen; cbn [uniqueFrom].
  - apply NoDup_nil_2.
  - case_bool_decide as Hseen; [apply IH|].
    cbn [map]. apply NoDup_cons. split; [|apply IH].
    intros (y & Hy & Hin)%list_elem_of_fmap.
    apply uniqueFrom_elem_of in Hin as [_ Hns]. apply Hns. rewrite <- Hy. by left.
Qed.

Lemma uniqueFrom_covers {A} (ref : A → nat) seen (l : list A) x :
  x ∈ l → ref x ∉ seen → ∃ y, y ∈ uniqueFrom ref seen l ∧ ref y = ref x.
Proof.
  revert seen. induction l as [|a l IH]; intros seen Hin Hns; cbn [uniqueFrom].
  - by apply elem_of_nil in Hin.
  - apply elem_of_cons in Hin as [->|Hin].
    + rewrite bool_decide_false by done. exists a. split; [by left | done].
    + case_bool_decide as Hseen; [by apply IH|].
      destruct (decide (ref x = ref a)) as [Heq|Hne].
      * exists a. split; [by left | done].
      * destruct (IH (ref a :: seen) Hin) as (y & Hy & Hry).
        -- by intros [?|?]%elem_of_cons.
        -- exists y. split; [by right | done].
Qed.

Lemma uniqueFrom_prefix {A} (ref : A → nat) seen (l1 l2 : list A) :
  NoDup (map ref l1) → (∀ x, x ∈ l1 → ref x ∉ seen) →
  ∃ rest, uniqueFrom ref seen (l1 ++ l2) = (l1 ++ rest)%list.
Proof.
  revert seen. induction l1 as [|a l1 IH]; intros seen Hnd Hns.
  - by eexists.
  - cbn [app uniqueFrom map] in *. apply NoDup_cons in Hnd as [Ha Hnd].
    rewrite bool_decide_false by (apply Hns; by left).
    destruct (IH (ref a :: seen) Hnd) as [rest Hrest].
    + intros x Hx [Heq|Hs]%elem_of_cons.
      * apply Ha. rewrite <- Heq. by apply list_elem_of_fmap_2.
      * apply (Hns x); [by right | done].
    + exists rest. by rewrite Hrest.
Qed.

Lemma foldl_app_prefix {A B} (f : B → list A) (init : list A) (l : list B) :
  ∃ rest, foldl (λ result r, (result ++ f r)%list) init l = (init ++ rest)%list.
Proof.
  revert init. induction l as [|b l IH]; intros init; cbn [foldl].
  - exists []. by rewrite app_nil_r.
  - destruct (IH (init ++ f b)%list) as [rest ->].
    exists (f b ++ rest)%list. by rewrite app_assoc.
Qed.

End SeqFacts.

Section MoreCollectionFacts.

Context `{TemplateErrors} `{TemplateExtensions} `{Host}.

(** X15.  [allTemplates] holds every template object once.  Its templates are
    templates of the collection or of one of its references, and each of
    these is in it, as the object it is.  When the templates of the
    collection are distinct objects, they come first, in their order. *)
Theorem allTemplates_holds_each_once (this : Templates) :
  NoDup (map template_ref (allTemplates this))
  ∧ (∀ t, t ∈ allTemplates this →
          t ∈ items this ∨ ∃ r, r ∈ references this ∧ t ∈ items r)
  ∧ (∀ t, t ∈ items this ∨ (∃ r, r ∈ references this ∧ t ∈ items r) →
          ∃ t', t' ∈ allTemplates this ∧ template_ref t' = template_ref t)
  ∧ (NoDup (map template_ref (items this)) →
     ∃ rest, allTemplates this = (items this ++ rest)%list).
Proof.
  unfold allTemplates. repeat apply conj.
  - apply SeqFacts.uniqueFrom_NoDup.
  - intros t [Hin _]%SeqFacts.uniqueFrom_elem_of. by apply elem_of_foldl_app in Hin.
  - intros t Hin. apply SeqFacts.uniqueFrom_covers.
    + by apply elem_of_foldl_app.
    + by intros ?%elem_of_nil.
  - intros Hnd.
    destruct (SeqFacts.foldl_app_prefix items (items this) (references this)) as [more ->].
    apply SeqFacts.uniqueFrom_prefix; [done|]. by intros x _ ?%elem_of_nil.
Qed.

Lemma initialize_is_the_argument (this templates : Templates) :
  initialize this templates = templates.
Proof. by destruct templates. Qed.

(** X16.  An edit is all or nothing.  When [updateTemplate], [addTemplate] or
    [deleteTemplate] throws, the collection is as it was.  When it does
    not throw, the collection is as it was or it is, in every field, what
    the parser makes of a new content, under the id and with the import
    resolver of the collection. *)
Theorem edits_are_all_or_nothing (this : Templates) (templateName newTemplateName : string)
    (parameters : option (list string)) (templateBody : string) :
  let settled (r : option exn * Templates) :=
    match fst r with
    | Some _ => snd r = this
    | None =>
        snd r = this
        ∨ ∃ newContent, snd r = parseText newContent (id this) (importResolver this)
    end in
  settled (updateTemplate this templateName newTemplateName parameters templateBody)
  ∧ settled (addTemplate this templateName parameters templateBody)
  ∧ settled (deleteTemplate this templateName).
Proof.
  intros settled. unfold settled, updateTemplate, addTemplate, deleteTemplate.
  destruct (findTemplate this templateName) as [t|]; cbn [fst snd].
  - repeat apply conj; [|done|].
    all: destruct (replaceRangeContent _ _ _ _) as [e|newContent]; cbn [fst snd];
      [done | right; eexists; apply initialize_is_the_argument].
  - repeat apply conj; [by left | | by left].
    right. eexists. apply initialize_is_the_argument.
Qed.

End MoreCollectionFacts.

(** *** Lines *)

Module LineFacts.

Lemma append_assoc (x y z : string) : (x +:+ y) +:+ z = x +:+ (y +:+ z).
Proof.
  induction x as [|ch x IH]; [done|].
  change (String ch ((x +:+ y) +:+ z) = String ch (x +:+ (y +:+ z))). by f_equal.
Qed.

Lemma join_cons sep p (rest : list string) :
  rest ≠ [] → Str.join sep (p :: rest) = p +:+ sep +:+ Str.join sep rest.
Proof. by destruct rest. Qed.

Lemma join_joined sep (mid post : list string) :
  mid ≠ [] → Str.join sep (Str.join sep mid :: post) = Str.join sep (mid ++ post)%list.
Proof.
  induction mid as [|m mid IH]; [done|]. intros _.
  destruct mid as [|m' mid]; [done|].
  change ((m :: m' :: mid) ++ post)%list with (m :: ((m' :: mid) ++ post))%list.
  rewrite (join_cons sep m ((m' :: mid) ++ post)%list) by done.
  rewrite <- IH by done. rewrite (join_cons sep m (m' :: mid)) by done.
  destruct post as [|p post]; [done|].
  rewrite !(join_cons sep _ (p :: post)) by done.
  by rewrite !append_assoc.
Qed.

Lemma join_after sep (pre l1 l2 : list string) :
  l1 ≠ [] → l2 ≠ [] → Str.join sep l1 = Str.join sep l2 →
  Str.join sep (pre ++ l1)%list = Str.join sep (pre ++ l2)%list.
Proof.
  intros H1 H2 Heq. induction pre as [|p pre IH]; [done|].
  cbn [app]. rewrite !join_cons; [by rewrite IH | |].
  - destruct pre; [done | done].
  - destruct pre; [done | done].
Qed.

Lemma trimLeft_dash s : Str.trimLeft ("- " +:+ s) = "- " +:+ s.
Proof. reflexivity. Qed.

Lemma convertLine_no_mark u : Str.startsWith (Str.trimLeft (convertLine u)) "#" = false.
Proof.
  unfold convertLine. destruct (Str.startsWith (Str.trimLeft u) "#") eqn:E; [|done].
  rewrite trimLeft_dash. reflexivity.
Qed.

End LineFacts.

Section LineEdits.

Context `{TemplateErrors} `{TemplateExtensions} `{Host}.

(** X17.  [replaceRangeContent] throws exactly when the range is not within
    the lines of the text.  Within them, the lines before and after the
    range stay and the replacement stands for the lines of the range; to
    replace a range by its own lines gives the lines of the text, joined
    by the line break of the collection. *)
Theorem replaceRangeContent_in_range (originString : string) (startLine stopLine : Z) :
  let originList := readLine originString in
  ((startLine < 0 ∨ stopLine < startLine ∨ Z.of_nat (length originList) ≤ stopLine)%Z →
     ∀ replaceString,
       replaceRangeContent originString startLine stopLine replaceString
       = inl (Error "index out of range."))
  ∧ ((0 ≤ startLine ∧ startLine ≤ stopLine ∧ stopLine < Z.of_nat (length originList))%Z →
     (∀ replaceString,
        replaceRangeContent originString startLine stopLine replaceString
        = inr (Str.join newLine
                 (take (Z.to_nat startLine) originList
                  ++ [default "" replaceString]
                  ++ drop (Z.to_nat (stopLine + 1)) originList)%list))
     ∧ replaceRangeContent originString startLine stopLine
         (Some (Str.join newLine
                  (take (Z.to_nat (stopLine + 1 - startLine))
                     (drop (Z.to_nat startLine) originList))))
       = inr (Str.join newLine originList)).
Proof.
  intros originList. unfold replaceRangeContent. fold originList. split.
  - intros Hout replaceString.
    destruct (_ || _ || _) eqn:E; [done|].
    apply orb_false_iff in E as [E E3]. apply orb_false_iff in E as [E1 E2]. lia.
  - intros Hin.
    assert ((startLine <? 0)%Z || (stopLine <? startLine)%Z
            || (Z.of_nat (length originList) <=? stopLine)%Z = false) as ->.
    { apply orb_false_iff. split; [apply orb_false_iff; split|]; lia. }
    split; [done|]. f_equal. cbn [default].
    set (a := Z.to_nat startLine). set (n := Z.to_nat (stopLine + 1 - startLine)).
    replace (Z.to_nat (stopLine + 1)) with (a + n)%nat by (unfold a, n; lia).
    assert (Hn : (0 < n)%nat) by (unfold n; lia).
    assert (Hlen : (a + n ≤ length originList)%nat) by (unfold a, n; lia).
    assert (Hmid : take n (drop a originList) ≠ []).
    { intros Hnil. apply (f_equal length) in Hnil.
      rewrite length_take, length_drop in Hnil. cbn in Hnil. lia. }
    transitivity (Str.join newLine
                    (take a originList
                     ++ (take n (drop a originList) ++ drop (a + n) originList))%list).
    + apply LineFacts.join_after; [done | by destruct (take n _) | ].
      by apply LineFacts.join_joined.
    + f_equal. rewrite <- drop_drop, take_drop. by rewrite take_drop.
Qed.

(** X18.  No line of a converted template body starts a template: a line whose
    first character that is no white space is [#] is made a text line,
    the other lines stay, and the empty body stays empty. *)
Theorem convertTemplateBody_has_no_template_line (templateBody : string) :
  convertTemplateBody "" = ""
  ∧ (templateBody ≠ "" →
     ∃ destList,
       convertTemplateBody templateBody = Str.join newLine destList
       ∧ length destList = length (readLine templateBody)
       ∧ (∀ u, u ∈ destList → Str.startsWith (Str.trimLeft u) "#" = false)
       ∧ (∀ i u, readLine templateBody !! i = Some u →
                 Str.startsWith (Str.trimLeft u) "#" = false →
                 destList !! i = Some u)).
Proof.
  split; [reflexivity|]. intros Hne. unfold convertTemplateBody.
  rewrite (proj2 (String.eqb_neq _ _) Hne).
  exists (map convertLine (readLine templateBody)). repeat apply conj.
  - reflexivity.
  - by rewrite length_map.
  - intros u (v & -> & _)%list_elem_of_fmap. apply LineFacts.convertLine_no_mark.
  - intros i u Hi Hu. rewrite list_lookup_fmap, Hi. cbn. unfold convertLine.
    by rewrite Hu.
Qed.

End LineEdits.

(** *** Options *)

Module OptionFacts.

Lemma extractOptionStep_cases nameOfKey result anOption :
  (∃ v, extractOptionStep nameOfKey None anOption = Some v
        ∧ extractOptionStep nameOfKey result anOption = Some v)
  ∨ (extractOptionStep nameOfKey None anOption = None
     ∧ extractOptionStep nameOfKey result anOption = result).
Proof.
  unfold extractOptionStep. destruct (negb _); [|by right].
  destruct (indexOf _ _); [|by right].
  destruct (String.eqb _ _); [left; by eexists | by right].
Qed.

Lemma foldl_extractOptionStep nameOfKey init options :
  foldl (extractOptionStep nameOfKey) init options
  = match foldl (extractOptionStep nameOfKey) None options with
    | Some v => Some v
    | None => init
    end.
Proof.
  revert init. induction options as [|o options IH]; intros init; [done|].
  cbn [foldl]. rewrite IH. rewrite (IH (extractOptionStep nameOfKey None o)).
  destruct (foldl _ None options); [done|].
  by destruct (extractOptionStep_cases nameOfKey init o) as [(v & -> & ->)|[-> ->]].
Qed.

Lemma indexOf_append k v :
  indexOf "="%char k = None →
  indexOf "="%char (k +:+ "=" +:+ v) = Some (String.length k).
Proof.
  induction k as [|c k IH]; [done|]. intros Hk. cbn [indexOf] in Hk.
  destruct (Ascii.eqb c "=") eqn:E; [done|].
  destruct (indexOf "=" k) eqn:Ek; [done|].
  change (indexOf "=" (String c (k +:+ "=" +:+ v)) = Some (S (String.length k))).
  cbn [indexOf]. rewrite E. by rewrite IH.
Qed.

Lemma substringFrom_append k v :
  Str.substringFrom (String.length k + 1) (k +:+ "=" +:+ v) = v.
Proof.
  unfold Str.substringFrom.
  assert (String.length (k +:+ "=" +:+ v) - (String.length k + 1) = String.length v)
    as ->.
  { rewrite StrSuffix.length_append.
    change (String.length ("=" +:+ v)) with (S (String.length v)). lia. }
  induction k as [|c k IH]; [apply LookupFacts.substring_all | exact IH].
Qed.

Lemma extractOptionByKey_app nameOfKey (options moreOptions : list string) :
  extractOptionByKey nameOfKey (options ++ moreOptions)
  = match extractOptionByKey nameOfKey moreOptions with
    | Some value => Some value
    | None => extractOptionByKey nameOfKey options
    end.
Proof.
  unfold extractOptionByKey. rewrite foldl_app. apply foldl_extractOptionStep.
Qed.

End OptionFacts.

(** X19.  Of the options of a file that give a value to a key, the last one
    counts: the value of a list of options followed by another is the
    value of the second list, when it has one, and of the first otherwise.
    The empty key has no value, and a list without option has none. *)
Theorem extractOptionByKey_last_option_counts (nameOfKey : string)
    (options moreOptions : list string) :
  extractOptionByKey nameOfKey (options ++ moreOptions)
  = match extractOptionByKey nameOfKey moreOptions with
    | Some value => Some value
    | None => extractOptionByKey nameOfKey options
    end
  ∧ extractOptionByKey "" options = None
  ∧ extractOptionByKey nameOfKey [] = None.
Proof.
  split; [apply OptionFacts.extractOptionByKey_app|]. split; [|done].
  unfold extractOptionByKey. induction options as [|o options IH]; [done | exact IH].
Qed.

(** X20.  An option line [key = value] gives the key its value, white space
    around the key and around the value left out and the key read in
    lower case, whatever the options before it are; the value is what
    follows the first [=] of the line. *)
Theorem extractOptionByKey_reads_an_option (nameOfKey key value : string)
    (options : list string) :
  nameOfKey ≠ "" →
  indexOf "="%char key = None →
  Str.toLowerCase (Str.trim key) = nameOfKey →
  extractOptionByKey nameOfKey (options ++ [key +:+ "=" +:+ value])
  = Some (Str.trim value).
Proof.
  intros Hne Hkey Hname. unfold extractOptionByKey. rewrite foldl_app. cbn [foldl].
  unfold extractOptionStep at 1.
  rewrite (proj2 (String.eqb_neq _ _) Hne). cbn [negb].
  rewrite OptionFacts.indexOf_append by done. cbv beta iota zeta.
  rewrite StrSuffix.substr0_append, Hname, String.eqb_refl.
  by rewrite OptionFacts.substringFrom_append.
Qed.

(** X21.  The table of the exported templates is read from the last option
    [@exports] of the file: it is empty without such an option, and the
    entries of a value, before white space is taken off them, are its
    parts between commas. *)
Theorem getGlobalFunctionTable_reads_the_last_exports (options moreOptions : list string) :
  (extractOptionByKey exportsKey moreOptions = None →
   getGlobalFunctionTable (options ++ moreOptions) = getGlobalFunctionTable options)
  ∧ (∀ value,
       extractOptionByKey exportsKey moreOptions = Some value →
       getGlobalFunctionTable (options ++ moreOptions) = getGlobalFunctionTable moreOptions
       ∧ (value ≠ "" →
          getGlobalFunctionTable moreOptions = map Str.trim (split ","%char value)
          ∧ Str.join "," (split ","%char value) = value))
  ∧ getGlobalFunctionTable [] = [].
Proof.
  unfold getGlobalFunctionTable.
  rewrite (OptionFacts.extractOptionByKey_app exportsKey options moreOptions).
  split; [by intros ->|]. split; [|done].
  intros value ->. split; [done|]. intros Hne.
  rewrite (proj2 (String.eqb_neq _ _) Hne). split; [done|].
  clear. induction value as [|c value IH]; [done|]. cbn [split].
  assert (Hsplit : split "," value ≠ []).
  { clear. destruct value as [|c' v]; [done|]. cbn [split].
    destruct (Ascii.eqb c' ","); [done|]. by destruct (split "," v). }
  destruct (Ascii.eqb c ",") eqn:E.
  - apply Ascii.eqb_eq in E. subst c.
    rewrite LineFacts.join_cons by done. by rewrite IH.
  - destruct (split "," value) as [|first others]; [done|].
    destruct others as [|second others].
    + cbn in IH |- *. by rewrite IH.
    + rewrite LineFacts.join_cons in IH |- * by done.
      change (String c first +:+ "," +:+ Str.join "," (second :: others))
        with (String c (first +:+ "," +:+ Str.join "," (second :: others))).
      by rewrite IH.
Qed.

(** *** Inline texts and iteration *)

Section InlineFacts.

Context `{TemplateErrors} `{TemplateExtensions} `{Host} `{TemplatesParserWithRef}.

(** X22.  [evaluateText] refuses an undefined inline string before
    anything else, also in a collection with errors; the empty string is
    not refused.  A collection whose diagnostics hold an error throws it
    for every inline string.  Otherwise the result is that of [evaluate],
    for the template [__temp__] of the collection that the parser makes of
    the wrapped text, with the options merged. *)
Theorem evaluateText_checks_first (fuel : nat) (this : Templates) (scope : value)
    (opt : option EvaluationOptions) :
  evaluateText fuel this None scope opt = Throws (Error "inline string is empty")
  ∧ ((∃ d, d ∈ allDiagnostics this ∧ severity d = SeverityError) →
     ∃ e, checkErrors this = Some e
          ∧ ∀ inlineStr, evaluateText fuel this (Some inlineStr) scope opt = Throws e)
  ∧ ((∀ d, d ∈ allDiagnostics this → severity d ≠ SeverityError) →
     ∀ inlineStr,
       evaluateText fuel this (Some inlineStr) scope opt
       = evaluate fuel (parseTextWithRef (wrapInline inlineStr) this) "__temp__" scope
           (Some (evalOptions this opt)))
  ∧ wrapInline "" = "#__temp__ " +:+ newLine +:+ " - ``````".
Proof.
  unfold evaluateText. repeat apply conj; try reflexivity.
  - intros Herror. apply checkErrors_Some in Herror as [e He]. exists e.
    split; [done|]. intros inlineStr. by rewrite He.
  - intros Hnone inlineStr. by rewrite (checkErrors_None this Hnone).
Qed.

End InlineFacts.

Module IterationFacts.

Lemma items_push (this : Templates) (args : list Template) :
  items (Templates_push this args) = (items this ++ args)%list.
Proof.
  revert this. induction args as [|t args IH]; intros this; cbn [Templates_push foldl].
  - by rewrite app_nil_r.
  - unfold Templates_push in IH. rewrite IH. cbn [items]. by rewrite <- app_assoc.
Qed.

Lemma forOf_drop (this : Templates) (fuel index : nat) :
  length (items this) - index < fuel →
  forOf fuel this index = map Some (drop index (items this)).
Proof.
  revert index. induction fuel as [|fuel IH]; intros index Hfuel; [lia|].
  cbn [forOf]. unfold iterator_next.
  destruct (index <? length (items this))%nat eqn:E; cbn [iterator_done iterator_value].
  - apply Nat.ltb_lt in E. apply lookup_lt_is_Some_2 in E as Hsome.
    destruct Hsome as [t Ht]. rewrite Ht, IH by lia.
    by rewrite (drop_S _ _ _ Ht).
  - apply Nat.ltb_ge in E. by rewrite drop_ge.
Qed.

End IterationFacts.

(** X23.  A loop over the collection is given the templates of the collection
    itself, in their order, and not those of its references.  An iterator
    that has given [index] templates gives the others, and then those
    that [push] has added meanwhile; [push] changes nothing but the
    templates. *)
Theorem iteration_gives_the_templates (this : Templates) (args : list Template)
    (index : nat) :
  forOf (S (length (items this))) this 0 = map Some (toArray this)
  ∧ ((index ≤ length (items this))%nat →
     forOf (S (length (items this) + length args)) (Templates_push this args) index
     = map Some (drop index (items this) ++ args)%list)
  ∧ content (Templates_push this args) = content this
  ∧ references (Templates_push this args) = references this
  ∧ diagnostics (Templates_push this args) = diagnostics this
  ∧ options (Templates_push this args) = options this.
Proof.
  split; [|split].
  - rewrite IterationFacts.forOf_drop by lia. reflexivity.
  - intros Hindex. rewrite IterationFacts.forOf_drop.
    + rewrite IterationFacts.items_push. by rewrite drop_app_le.
    + rewrite IterationFacts.items_push, length_app. lia.
  - revert this. induction args as [|t args IH]; intros this; [done|].
    cbn [Templates_push foldl]. unfold Templates_push in IH.
    destruct (IH {| items := (items this ++ [t])%list; imports := imports this;
                    diagnostics := diagnostics this; references := references this;
                    content := content this; id := id this;
                    expressionParser := expressionParser this;
                    importResolver := importResolver this; options := options this |})
      as (-> & -> & -> & ->).
    done.
Qed.

(** *** Registered functions *)

Section RegistrationFacts.

Context `{TemplateErrors} `{TemplateExtensions} `{Host} `{PathModule}.

Lemma addGlobalFunctions_registered fuel this functions curTemplates globalFuncs :
  curTemplates ∈ this :: references this →
  (∀ templateName, templateName ∈ globalFuncs →
                   templateName ∈ getGlobalFunctionTable (options curTemplates)) →
  ∀ table e table',
    (∀ name, registered fuel this functions table name) →
    addGlobalFunctions fuel this curTemplates globalFuncs table = (e, table') →
    ∀ name, registered fuel this functions table' name.
Proof.
  intros Hcur. induction globalFuncs as [|templateName rest IH];
    intros Hexported table e table' Htable Hrun.
  - injection Hrun as _ <-. exact Htable.
  - assert (Hrest : ∀ n, n ∈ rest → n ∈ getGlobalFunctionTable (options curTemplates))
      by (intros n Hn; apply Hexported; by right).
    cbn [addGlobalFunctions] in Hrun.
    destruct (findTemplate curTemplates templateName) as [t|] eqn:Hfind;
      [|by eapply IH].
    destruct (Templates_namespace curTemplates) as [err|namespace] eqn:Hns.
    + injection Hrun as _ <-. exact Htable.
    + eapply IH; [done | | exact Hrun]. intros name.
      destruct (decide (name = namespace +:+ "." +:+ templateName)) as [->|Hne].
      * right. exists curTemplates, templateName, namespace.
        split; [done|]. split; [apply Hexported; by left|].
        split; [by eexists|]. split; [done|]. split; [done|].
        by rewrite lookup_insert_eq.
      * destruct (Htable name) as [Hsame|(c & tn & ns & ? & ? & ? & ? & ? & Hheld)].
        -- left. by rewrite lookup_insert_ne.
        -- right. exists c, tn, ns. by rewrite lookup_insert_ne.
Qed.

Lemma injectInto_registered fuel this functions totalTemplates :
  (∀ curTemplates, curTemplates ∈ totalTemplates →
                   curTemplates ∈ this :: references this) →
  ∀ table e table',
    (∀ name, registered fuel this functions table name) →
    injectInto fuel this totalTemplates table = (e, table') →
    ∀ name, registered fuel this functions table' name.
Proof.
  induction totalTemplates as [|curTemplates rest IH];
    intros Hall table e table' Htable Hrun.
  - injection Hrun as _ <-. exact Htable.
  - cbn [injectInto] in Hrun.
    destruct (addGlobalFunctions fuel this curTemplates _ table) as [[err|] table1] eqn:Hadd.
    + injection Hrun as _ <-.
      eapply addGlobalFunctions_registered; [apply Hall; by left | done | done | exact Hadd].
    + eapply IH; [intros c Hc; apply Hall; by right | | exact Hrun].
      eapply addGlobalFunctions_registered; [apply Hall; by left | done | done | exact Hadd].
Qed.

Lemma injectInto_nothing fuel this functions totalTemplates :
  (∀ curTemplates, curTemplates ∈ totalTemplates →
                   extractOptionByKey exportsKey (options curTemplates) = None) →
  injectInto fuel this totalTemplates functions = (None, functions).
Proof.
  induction totalTemplates as [|curTemplates rest IH]; intros Hall; [done|].
  cbn [injectInto]. unfold getGlobalFunctionTable.
  rewrite (Hall curTemplates) by (by left). cbn [addGlobalFunctions].
  apply IH. intros c Hc. apply Hall. by right.
Qed.

(** X28.  The functions that a collection registers.  However the
    registration ends, the table holds under a name what it held before,
    or the function of a name that a file (the collection or one of its
    references) exports and that is a template of this file, under the
    name made of the namespace of the file, a dot and the name of the
    template: an exported name that is no template of its file is passed
    over.  When no file has an option [@exports], nothing is registered
    and nothing is thrown, whatever the ids and the namespaces are. *)
Theorem injectToExpressionFunction_registers_exports (fuel : nat) (this : Templates)
    (functions : FunctionTable) :
  (∀ e table,
     injectToExpressionFunction fuel this functions = (e, table) →
     ∀ name, registered fuel this functions table name)
  ∧ ((∀ curTemplates, curTemplates ∈ this :: references this →
        extractOptionByKey exportsKey (options curTemplates) = None) →
     injectToExpressionFunction fuel this functions = (None, functions)).
Proof.
  unfold injectToExpressionFunction. split.
  - intros e table Hrun.
    eapply injectInto_registered; [done | | exact Hrun]. intros name. by left.
  - apply injectInto_nothing.
Qed.

End RegistrationFacts.

(** ** Runs on concrete templates

    The statements above at concrete inputs, and the inputs at which the
    code departs from what the specification says. *)

Import Example Samples.

Lemma edit_of_missing_or_existing_name_witness :
  (updateTemplate (collection [calling 1 "A" "B"] []) "C" "D" None "- hi"
     = (None, collection [calling 1 "A" "B"] [])
   ∧ deleteTemplate (collection [calling 1 "A" "B"] []) "C"
     = (None, collection [calling 1 "A" "B"] []))
  ∧ addTemplate (collection [calling 1 "A" "B"] []) "A" None "- hi"
    = (Some (Error (templateExist "A")), collection [calling 1 "A" "B"] []).
Proof.
  split.
  - destruct (edit_of_missing_or_existing_name (collection [calling 1 "A" "B"] []) "C")
      as [Hmissing _].
    destruct Hmissing as [Hupdate Hdelete].
    + intros t Hin. apply list_elem_of_singleton in Hin. subst t. simpl. discriminate.
    + split; [apply Hupdate | apply Hdelete].
  - destruct (edit_of_missing_or_existing_name (collection [calling 1 "A" "B"] []) "A")
      as [_ Hexisting].
    apply Hexisting. exists (calling 1 "A" "B"). split; [by left | reflexivity].
Defined.

Lemma checkErrors_guards_the_operations_witness :
  evaluate 3 (importing [failed]) "A" VUndefined None = Throws (Error "duplicate template")
  ∧ checkErrors (importing [warned]) = None.
Proof.
  split.
  - destruct (checkErrors_guards_the_operations (importing [failed])) as [Hfail _].
    destruct Hfail as (e & He & Hevaluate & _).
    + exists failed. split; [vm_compute; set_solver | reflexivity].
    + rewrite Hevaluate. vm_compute in He. by injection He as <-.
  - destruct (checkErrors_guards_the_operations (importing [warned])) as [_ Hpass].
    apply Hpass. intros d Hin. vm_compute in Hin.
    apply list_elem_of_singleton in Hin. subst d. discriminate.
Defined.

Lemma constructScope_layers_witness :
  ∃ newScope,
    constructScope greeting "greet" [VString "Ana"]
      (running ["caller"] (scopeOf [("user", VString "u")] [("x", VNumber 1)]))
    = (Returns {| globalMemory := Some (wrap (VObject [("user", VString "u")]));
                  localMemory := Some (wrap (VObject newScope)) |},
       running ["caller"] (scopeOf [("user", VString "u")] [("x", VNumber 1)]))
    ∧ Js.get newScope "name" = Some (VString "Ana")
    ∧ Js.get newScope "x" = None.
Proof.
  destruct (constructScope_layers greeting (evaluateTemplate 1 greeting)
              "greet" [VString "Ana"]
              (running ["caller"] (scopeOf [("user", VString "u")] [("x", VNumber 1)]))
              false "greet" greet
              {| templateName := "caller";
                 scope := scopeOf [("user", VString "u")] [("x", VNumber 1)];
                 evaluatedChildren := 0 |})
    as [_ Hargs]; [reflexivity | reflexivity | | reflexivity |].
  { intros Hin. apply list_elem_of_singleton in Hin. discriminate. }
  destruct Hargs as (newScope & Hrun & _ & Hbound & Honly & _); [discriminate|].
  exists newScope. split; [exact Hrun | split].
  - apply (Hbound 0%nat "name"); [reflexivity|]. intros j Hj. destruct j as [|j]; [lia | discriminate].
  - destruct (Js.get newScope "x") eqn:E; [|reflexivity].
    assert (Hx : "x" ∈ parameters greet) by (apply Honly; by eexists).
    apply list_elem_of_singleton in Hx. discriminate.
Defined.



Lemma loop_detected_chain_witness :
  ∃ chain st',
    evaluateTemplate 1 looping "A" (inr topScope) insideB
    = (Throws (Error ("Loop detected: " +:+ Str.join " => " chain)), st')
    ∧ chain ≡ₚ ["A"; "B"]
    ∧ "A" ∈ chain
    ∧ NoDup chain.
Proof.
  destruct (loop_detected_chain 0 looping "A" (inr topScope) insideB
              false "A" (calling 1 "A" "B") eq_refl eq_refl eq_refl)
    as (chain & st' & Hrun & Hperm & Hin & Hnodup).
  exists chain, st'. split; [exact Hrun|]. split; [exact Hperm|]. split; [exact Hin|].
  apply Hnodup. cbn. apply NoDup_cons.
  split; [intros Hin'; apply list_elem_of_singleton in Hin'; discriminate|].
  apply NoDup_singleton.
Defined.

(** The claim of the specification at [A] calling [B] calling [A]: the
    chain would start with [A]; it starts with [B]. *)
Lemma loop_chain_counterexample :
  ¬ (∃ chain st',
       evaluateTemplate 1 looping "A" (inr topScope) insideB
       = (Throws (Error (loopDetected +:+ " " +:+ Str.join " => " chain)), st')
       ∧ head chain = Some "A" ∧ last chain = Some "A").
Proof.
  intros (chain & st' & Hrun & Hhead & _).
  destruct chain as [|first chain]; [discriminate|]. injection Hhead as ->.
  assert (Hactual : fst (evaluateTemplate 1 looping "A" (inr topScope) insideB)
                    = Throws (Error "Loop detected: B => A")) by reflexivity.
  rewrite Hrun in Hactual. destruct chain; simpl in Hactual; discriminate.
Qed.

(** The whole run, from [evaluate]: the message names [A] for the
    expression of [B] and [B] for the expression of [A], the stack being
    reversed when the names are read. *)
Lemma loop_detected_from_evaluate :
  evaluate 3 (collection [calling 1 "A" "B"; calling 2 "B" "A"] []) "A" VUndefined None
  = Throws (Error ("Loop detected: B => A"
                   +:+ " [A]  Error occurred when evaluating '-${A()}'."
                   +:+ " [B]  Error occurred when evaluating '-${B()}'.")).
Proof. reflexivity. Qed.

(** C2, on the code.  The evaluation starts with [A], which calls [B],
    which calls [A]: the stack holds [A] and [B].  The call of [A] throws
    the loop error and leaves the stack reversed, [B] under [A].  When [A]
    calls [B] in a condition and [B] calls [A] in a condition, the error is
    dropped and the call of [B] returns: it was entered with the frame of
    [A] on the stack and it leaves the frame of [B] there. *)
Theorem stack_reversed_by_loop_detection :
  (evaluationTargetStack insideB = [frame "A" 0; frame "B" 1]
   ∧ fst (evaluateTemplate 1 looping "A" (inr topScope) insideB)
     = Throws (Error "Loop detected: B => A")
   ∧ evaluationTargetStack (snd (evaluateTemplate 1 looping "A" (inr topScope) insideB))
     = [frame "B" 1; frame "A" 0])
  ∧ (evaluationTargetStack insideA = [frame "A" 0]
     ∧ fst (evaluateTemplate 2 askingEachOther "B" (inr topScope) insideA)
       = Returns (VString "q")
     ∧ evaluationTargetStack
         (snd (evaluateTemplate 2 askingEachOther "B" (inr topScope) insideA))
       = [frame "B" 1]).
Proof. repeat split; reflexivity. Qed.

(** What follows from it for the detection of loops: [A] calls itself when
    [B] holds, and [evaluate] returns a value. *)
Lemma loop_not_detected_after_reversal :
  evaluate 4 (collection [recalling; asking 2 "B" "A" "p" "q"] []) "A" VUndefined None
  = Returns (VString "y").
Proof. reflexivity. Qed.

(** C3, on the code.  Under the Markdown style the template of two lines
    comes out of [evaluate] with four line feeds between them, one
    doubling by [evaluateTemplate] and one by [evaluate]; without the style
    it has one. *)
Theorem markdown_line_breaks_doubled_twice :
  evaluate 2 (collection [twoLines] ["@lineBreakStyle = markdown"]) "N" VUndefined None
  = Returns (VString ("a" +:+ nl +:+ nl +:+ nl +:+ nl +:+ "b"))
  ∧ evaluate 2 (collection [twoLines] []) "N" VUndefined None
    = Returns (VString ("a" +:+ nl +:+ "b")).
Proof. split; reflexivity. Qed.

(** C5, on the code.  The evaluation starts with [A], which calls [B]; the
    frame of [A] has the map [0] and the frame of [B] the map [1].  The
    body of [B] asks [C], then [A], then [C] once more, in the same scope.
    The first call of [C] visits the body of [C] and stores the result in
    the map of [B], its caller.  The call of [A] throws the loop error,
    which the condition drops, and leaves the stack reversed: the frame of
    [A] is on top.  The second call of [C] is made by [B] again, whose map
    holds the result for this fingerprint: the body of [C] is visited once
    more all the same (one more draw, one more map), and the result is
    stored in the map of [A].  The three calls are the calls that the body
    of [B] makes, and so it goes when [evaluate] is called for [A]: four
    draws (for [A], twice for [C], for the last rule of [B]) and four maps
    (for [A], for [B], twice for [C]). *)
Theorem memoization_misses_the_caller :
  let call := evaluateTemplate 2 askingTwice in
  let first := call "C" (inr unsetScope) enteredB in
  let loop := call "A" (inr unsetScope) (snd first) in
  let second := call "C" (inr unsetScope) (snd loop) in
  let fingerprint := getId "C" unsetScope in
  (map (λ u, (templateName u, evaluatedChildren u)) (evaluationTargetStack enteredB)
   = [("A", 0%nat); ("B", 1%nat)]
   ∧ mapOf enteredB 1 !! fingerprint = None)
  ∧ (fst first = Returns (VBool false)
     ∧ randomCalls (snd first) = S (randomCalls enteredB)
     ∧ mapOf (snd first) 1 !! fingerprint = Some (VBool false))
  ∧ (fst loop = Throws (Error "Loop detected: B => A")
     ∧ map templateName (evaluationTargetStack (snd loop)) = ["B"; "A"]
     ∧ randomCalls (snd loop) = randomCalls (snd first)
     ∧ mapOf (snd loop) 1 !! fingerprint = Some (VBool false)
     ∧ mapOf (snd loop) 0 !! fingerprint = None)
  ∧ (fst second = Returns (VBool false)
     ∧ randomCalls (snd second) = S (randomCalls (snd loop))
     ∧ allocated (snd second) = S (allocated (snd loop))
     ∧ mapOf (snd second) 0 !! fingerprint = Some (VBool false))
  ∧ visitIfElseBody askingTwice call
      [ifRule (Some "${C()}") [token lp.TEXT "first"];
       elseIfRule "${A()}" [token lp.TEXT "loop"];
       elseIfRule "${C()}" [token lp.TEXT "second"];
       ifRule None [token lp.TEXT "none"]] enteredB
    = visitNormalTemplateBody askingTwice call (normalBody [[token lp.TEXT "none"]])
        (snd second)
  ∧ (fst (evaluateTemplate 4 askingTwice "A" (inl unset) initialState)
     = Returns (VString "none")
     ∧ randomCalls (snd (evaluateTemplate 4 askingTwice "A" (inl unset) initialState))
       = 4%nat
     ∧ allocated (snd (evaluateTemplate 4 askingTwice "A" (inl unset) initialState))
       = 4%nat
     ∧ mapOf (snd (evaluateTemplate 4 askingTwice "A" (inl unset) initialState)) 0
       !! fingerprint = Some (VBool false)).
Proof. repeat split; vm_compute; reflexivity. Qed.

(** C7, on the code.  [T] calls [A] with the argument [n], and [A(y)]
    calls [B] with the argument [m]: the scope of [B(x)] is its parameter
    [x] over the scope that [evaluate] was given, in which there is no
    [y].  When neither [A] nor [B] asks anything, [${y}] in [B] is not
    defined and comes out as [null].  When [A] asks [T] and [B] asks [A],
    each of these calls throws the loop error, which the condition drops,
    and leaves the stack reversed: the expression [${y}] of [B] is read in
    the scope of the frame on top, which is that of [A], and [B] yields
    the [5] that its caller was given for [y].  And a template that a file
    exports, called as a function, throws whatever its arguments: its
    scope is made from the frame on top of an empty stack. *)
Theorem callee_reads_the_parameter_of_its_caller :
  evaluate 4 (collection passing []) "T" numbers None = Returns (VString "null")
  ∧ evaluate 4 (collection borrowing []) "T" numbers None = Returns (VNumber 5)
  ∧ globalTemplateFunction 1 (collection [greet] []) "greet" [VString "Ana"]
    = Throws (TypeError "Cannot read property 'scope' of undefined")
  ∧ globalTemplateFunction 1 (collection [greet] []) "greet" []
    = Throws (TypeError "Cannot read property 'scope' of undefined").
Proof. repeat split; vm_compute; reflexivity. Qed.

(** C10, on the code.  A structured template with the lines [Title = x]
    and [__proto__ = y]: the value of the first line is stored under
    [title], and the value of the second line is stored nowhere.  The
    result is a plain object, and the assignment to its [__proto__] is no
    assignment to a property. *)
Theorem proto_key_is_not_stored :
  ∃ o,
    evaluate 1 (collection [template 1 "P" [] (lp.StructuredBodyContext protoCard)] [])
      "P" VUndefined None
    = Returns (VObject o)
    ∧ Js.keys o = [LGType; "title"]
    ∧ Js.get o LGType = Some (VString "Card")
    ∧ Js.get o "title" = Some (VString "x")
    ∧ Js.get o "Title" = None
    ∧ Js.get o "__proto__" = None.
Proof.
  exists [(LGType, VString "Card"); ("title", VString "x")].
  repeat split; vm_compute; reflexivity.
Qed.

Lemma evaluateTemplate_memoization_witness :
  fst (evaluateTemplate 1 looping "B" (inr noScope) remembering) = Returns (VString "kept")
  ∧ parseTemplateName "B!" = inr (true, "B").
Proof.
  destruct (evaluateTemplate_memoization 0 looping "B" (inr noScope) remembering
              false "B" (calling 2 "B" "A") (target "A" 0))
    as (Hcached & _ & Hmarker);
    [reflexivity | reflexivity | reflexivity | reflexivity | simpl; lia |].
  split.
  - destruct (Hcached (VString "kept") eq_refl) as (st' & Hrun & _); [reflexivity|].
    by rewrite Hrun.
  - apply (Hmarker "B").
Defined.

Lemma switch_first_match_or_default_witness :
  visitSwitchCaseBody looping (evaluateTemplate 0 looping) switching (running ["S"] letters)
  = (Returns (VString "second"),
     {| evaluationTargetStack := evaluationTargetStack (running ["S"] letters);
        mapStore := ∅; allocated := 1; randomCalls := 1 |}).
Proof.
  destruct (switch_first_match_or_default looping (evaluateTemplate 0 looping)
              (switchRule false "SWITCH:" (Some "${x}") [])
              [switchRule false "CASE:" (Some "${p}") [token lp.TEXT "first"];
               switchRule false "CASE:" (Some "${q}") [token lp.TEXT "second"];
               switchRule true "DEFAULT:" None [token lp.TEXT "other"]]
              (running ["S"] letters) (running ["S"] letters) "b")
    as [Hfirst _]; [reflexivity|].
  unfold switching.
  rewrite (Hfirst [switchRule false "CASE:" (Some "${p}") [token lp.TEXT "first"]]
             (switchRule false "CASE:" (Some "${q}") [token lp.TEXT "second"])
             [switchRule true "DEFAULT:" None [token lp.TEXT "other"]]
             (running ["S"] letters) (running ["S"] letters)
             (normalBody [[token lp.TEXT "second"]])).
  - reflexivity.
  - reflexivity.
  - eapply noneMatches_cons; [reflexivity | discriminate | apply noneMatches_nil].
  - by left.
  - reflexivity.
  - reflexivity.
Defined.

(** ** More runs on concrete templates *)

Lemma evaluateTemplate_wellFormed_witness :
  wellFormed looping initialState
  ∧ wellFormed looping
      (snd (evaluateTemplate 1 looping "toString" (inl VUndefined) initialState))
  ∧ map templateName
      (evaluationTargetStack
         (snd (evaluateTemplate 1 looping "toString" (inl VUndefined) initialState)))
    = ["toString"]
  ∧ (length (evaluationTargetStack
               (snd (evaluateTemplate 1 looping "toString" (inl VUndefined)
                       initialState)))
     ≤ size (templateMap looping) + length Js.prototypeNames)%nat.
Proof.
  assert (Hinitial : wellFormed looping initialState).
  { unfold wellFormed. cbn. repeat apply conj.
    - apply NoDup_nil_2.
    - intros u Hu. by apply elem_of_nil in Hu.
    - apply NoDup_nil_2.
    - intros u Hu. by apply elem_of_nil in Hu. }
  destruct (evaluateTemplate_wellFormed 1 looping "toString" (inl VUndefined)
              initialState Hinitial) as [Hend Hdepth].
  split; [exact Hinitial|]. split; [exact Hend|]. split; [reflexivity | exact Hdepth].
Defined.

Lemma visitNormalTemplateBody_never_undefined_witness :
  visitNormalTemplateBody greeting (evaluateTemplate 0 greeting)
    (normalBody [[token lp.EXPRESSION "${name}"]]) (running ["greet"] noScope)
  = (Returns (VString "null"),
     {| evaluationTargetStack := evaluationTargetStack (running ["greet"] noScope);
        mapStore := ∅; allocated := 1; randomCalls := 1 |})
  ∧ VString "null" ≠ VUndefined.
Proof.
  assert (Hrun : visitNormalTemplateBody greeting (evaluateTemplate 0 greeting)
                   (normalBody [[token lp.EXPRESSION "${name}"]])
                   (running ["greet"] noScope)
                 = (Returns (VString "null"),
                    {| evaluationTargetStack :=
                         evaluationTargetStack (running ["greet"] noScope);
                       mapStore := ∅; allocated := 1; randomCalls := 1 |}))
    by reflexivity.
  split; [exact Hrun|].
  exact (visitNormalTemplateBody_never_undefined greeting (evaluateTemplate 0 greeting)
           _ _ _ _ Hrun).
Defined.

Lemma strict_mode_first_rule_or_error_witness :
  ∃ st1,
    evalCondition choosing (evaluateTemplate 0 choosing)
      (lp.ifCondition (ifRule (Some "${flag}") [token lp.TEXT "yes"]))
      (running ["A"] (flagged true))
    = (Returns true, st1)
    ∧ fst (visitNormalTemplateBody choosing (evaluateTemplate 0 choosing)
             (normalBody [[token lp.TEXT "yes"]]) st1)
      = Returns (VString "yes").
Proof.
  destruct (strict_mode_first_rule_or_error choosing (evaluateTemplate 0 choosing)
              (ifRule (Some "${flag}") [token lp.TEXT "yes"])
              [ifRule None [token lp.TEXT "no"]]
              (normalBody [[token lp.TEXT "yes"]])
              (running ["A"] (flagged true)) (VString "yes")
              {| evaluationTargetStack := evaluationTargetStack (running ["A"] (flagged true));
                 mapStore := ∅; allocated := 1; randomCalls := 1 |})
    as (st1 & Hcondition & Hbody); [reflexivity | reflexivity | reflexivity |].
  exists st1. split; [exact Hcondition|]. by rewrite Hbody.
Defined.

Lemma visitIfElseBody_first_applicable_rule_witness :
  visitIfElseBody greeting (evaluateTemplate 0 greeting)
    [ifRule (Some "${p}") [token lp.TEXT "first"];
     ifRule (Some "${q}") [token lp.TEXT "second"];
     ifRule None [token lp.TEXT "other"]]
    (running ["greet"] (scopeOf [("p", VBool false); ("q", VBool true)] []))
  = visitNormalTemplateBody greeting (evaluateTemplate 0 greeting)
      (normalBody [[token lp.TEXT "second"]])
      (running ["greet"] (scopeOf [("p", VBool false); ("q", VBool true)] [])).
Proof.
  destruct (visitIfElseBody_first_applicable_rule greeting (evaluateTemplate 0 greeting)
              [ifRule (Some "${p}") [token lp.TEXT "first"]]
              (running ["greet"] (scopeOf [("p", VBool false); ("q", VBool true)] []))
              (running ["greet"] (scopeOf [("p", VBool false); ("q", VBool true)] [])))
    as [_ Happlies].
  - eapply noRuleApplies_cons; [reflexivity | by left | apply noRuleApplies_nil].
  - apply (Happlies (ifRule (Some "${q}") [token lp.TEXT "second"])
             (normalBody [[token lp.TEXT "second"]])
             [ifRule None [token lp.TEXT "other"]]
             (running ["greet"] (scopeOf [("p", VBool false); ("q", VBool true)] [])));
      reflexivity.
Defined.

Lemma visitNormalTemplateString_text_only_witness :
  visitNormalTemplateString greeting (evaluateTemplate 0 greeting)
    {| lp.nts_children :=
         [token lp.DASH "-"; token lp.TEXT "Hi"; token lp.ESCAPE_CHARACTER "\!"];
       lp.nts_text := "-Hi\!" |}
    initialState
  = (Returns (VString "Hi!"), initialState).
Proof.
  assert (Htext : textOnly [token lp.DASH "-"; token lp.TEXT "Hi";
                            token lp.ESCAPE_CHARACTER "\!"]).
  { intros node Hnode.
    repeat (apply elem_of_cons in Hnode as [->|Hnode]; [discriminate|]).
    by apply elem_of_nil in Hnode. }
  exact (visitNormalTemplateString_text_only greeting (evaluateTemplate 0 greeting)
           {| lp.nts_children :=
                [token lp.DASH "-"; token lp.TEXT "Hi"; token lp.ESCAPE_CHARACTER "\!"];
              lp.nts_text := "-Hi\!" |}
           initialState Htext).
Defined.

Lemma visitNormalTemplateBody_text_candidates_witness :
  ∃ str s,
    str ∈ lp.templateString hello
    ∧ lp.normalTemplateString str = Some s
    ∧ visitNormalTemplateBody greeting (evaluateTemplate 0 greeting) hello initialState
      = (Returns (VString (Str.join "" (literalPieces (lp.nts_children s)))),
         {| evaluationTargetStack := []; mapStore := ∅; allocated := 0;
            randomCalls := 1 |}).
Proof.
  destruct (visitNormalTemplateBody_text_candidates greeting (evaluateTemplate 0 greeting)
              hello initialState) as [_ Hsome].
  - intros str Hstr. cbn in Hstr.
    repeat (apply elem_of_cons in Hstr as [->|Hstr];
            [eexists; split; [reflexivity|];
             intros node Hnode; cbn in Hnode;
             repeat (apply elem_of_cons in Hnode as [->|Hnode]; [discriminate|]);
             by apply elem_of_nil in Hnode|]).
    by apply elem_of_nil in Hstr.
  - apply Hsome. discriminate.
Defined.

Lemma evaluate_of_unknown_name_witness :
  evaluate 1 (collection [calling 1 "A" "B"] []) "C!" VUndefined None
  = Throws (Error "No such template 'C'")
  ∧ evaluate 1 (collection [calling 1 "A" "B"] []) "toString" VUndefined None
    = Throws (TypeError "Cannot read property 'accept' of undefined").
Proof.
  destruct (evaluate_of_unknown_name 0 (collection [calling 1 "A" "B"] []) VUndefined None)
    as [_ Hunknown]; [reflexivity|].
  assert (Hno : ∀ n, n ≠ "A" →
            ∀ t, t ∈ allTemplates (collection [calling 1 "A" "B"] []) → name t ≠ n).
  { intros n Hn t Ht. vm_compute in Ht. apply list_elem_of_singleton in Ht.
    subst t. intros Heq. apply Hn. symmetry. exact Heq. }
  split.
  - apply (Hunknown "C!" true "C"); [reflexivity|]. apply Hno. discriminate.
  - apply (Hunknown "toString" false "toString"); [reflexivity|]. apply Hno. discriminate.
Defined.

Lemma extractOptionByKey_reads_an_option_witness :
  extractOptionByKey "@strict" ["@strict = false"; " @Strict = true "] = Some "true".
Proof.
  apply (extractOptionByKey_reads_an_option "@strict" " @Strict " " true "
           ["@strict = false"]); [discriminate | reflexivity | reflexivity].
Defined.

Lemma globalTemplateFunction_throws_witness :
  globalTemplateFunction 1 (collection [greet] []) "greet" [VString "Ana"]
  = Throws (TypeError "Cannot read property 'scope' of undefined").
Proof.
  apply (globalTemplateFunction_throws 1 (collection [greet] []) "greet" [VString "Ana"]
           false "greet" greet); reflexivity.
Defined.

Lemma evaluate_doubles_twice_witness :
  evaluate 1 (collection [twoLines] ["@lineBreakStyle = markdown"]) "N" VUndefined None
  = Returns (VString ("a" +:+ nl +:+ nl +:+ nl +:+ nl +:+ "b")).
Proof.
  destruct (evaluate_doubles_twice 0 (collection [twoLines] ["@lineBreakStyle = markdown"])
              "N" false "N" twoLines VUndefined None ("a" +:+ nl +:+ "b")
              {| evaluationTargetStack := evaluationTargetStack (entered initialState "N" (inl VUndefined));
                 mapStore := mapStore (entered initialState "N" (inl VUndefined));
                 allocated := 1; randomCalls := 1 |})
    as [Hrun _]; [reflexivity..|].
  exact Hrun.
Defined.

Lemma elem_of_allDiagnostics_witness :
  failed ∈ allDiagnostics (importing [failed]).
Proof.
  apply (elem_of_allDiagnostics (importing [failed]) failed).
  - intros a b Ha Hb. cbn in Ha, Hb.
    apply elem_of_cons in Ha as [->|Ha]; apply elem_of_cons in Hb as [->|Hb].
    + done.
    + apply list_elem_of_singleton in Hb. subst b. discriminate.
    + apply list_elem_of_singleton in Ha. subst a. discriminate.
    + apply list_elem_of_singleton in Ha. apply list_elem_of_singleton in Hb. by subst.
  - right. eexists. split; [by left | by left].
Defined.

Lemma customizedEvaluatorLookup_order_witness :
  customizedEvaluatorLookup greeting (evaluateTemplate 0 greeting) "lg.greet!"
  = inr (Some (templateEvaluator greeting (evaluateTemplate 0 greeting) "greet!")).
Proof.
  destruct (customizedEvaluatorLookup_order greeting (evaluateTemplate 0 greeting) "greet!")
    as (_ & _ & Hprefix & _).
  apply (Hprefix true "greet"); [reflexivity | reflexivity | by eexists].
Defined.

Lemma newEvaluator_finds_the_last_of_a_name_witness :
  templateMap (newEvaluator twice emptyParser plain) !! "A"
  = Some (template 2 "A" ["x"] (lp.NormalBodyContext (normalBody [[token lp.TEXT "new"]])))
  ∧ templateMap (newEvaluator twice emptyParser plain) !! "B" = None
  ∧ isTemplate (newEvaluator twice emptyParser plain) [VString "toString"] initialState
    = (Returns (VBool true), initialState).
Proof.
  split; [|split].
  - destruct (newEvaluator_finds_the_last_of_a_name twice emptyParser plain "A")
      as [Hlast _].
    rewrite Hlast. reflexivity.
  - destruct (newEvaluator_finds_the_last_of_a_name twice emptyParser plain "B")
      as (_ & Hnone & _).
    apply Hnone. intros t Ht.
    repeat (apply elem_of_cons in Ht as [->|Ht]; [discriminate|]).
    by apply elem_of_nil in Ht.
  - destruct (newEvaluator_finds_the_last_of_a_name twice emptyParser plain "toString")
      as (_ & _ & Hin).
    apply Hin. split; [intros _; right; reflexivity | reflexivity].
Defined.

Lemma checkTemplateReference_passes_witness :
  checkTemplateReference greeting "greet" [] = None
  ∧ checkTemplateReference greeting "greet" [Done VNull None] = None
  ∧ checkTemplateReference greeting "greet" [Done VNull None; Done VNull None] ≠ None.
Proof.
  split; [|split].
  - apply (checkTemplateReference_passes greeting "greet" []).
    exists greet. split; [reflexivity | by left].
  - apply (checkTemplateReference_passes greeting "greet" [Done VNull None]).
    exists greet. split; [reflexivity | by right].
  - intros Hpass.
    apply (checkTemplateReference_passes greeting "greet"
             [Done VNull None; Done VNull None]) in Hpass
      as (t & Ht & [Hnil|Hlen]); [discriminate|].
    injection Ht as <-. discriminate.
Defined.

Lemma mergeReference_is_a_union_witness :
  ∃ result',
    mergeReference [(LGType, VString "Card"); ("title", VString "x")] "Card"
      (VObject [(LGType, VString "Card"); ("title", VString "y"); ("text", VString "z");
                ("constructor", VString "c")])
    = inr result'
    ∧ Js.get result' "title" = Some (VString "x")
    ∧ Js.get result' "text" = Some (VString "z")
    ∧ Js.get result' "constructor" = None.
Proof.
  destruct (mergeReference_is_a_union
              [(LGType, VString "Card"); ("title", VString "x")] "Card"
              (VObject [(LGType, VString "Card"); ("title", VString "y");
                        ("text", VString "z"); ("constructor", VString "c")]))
    as [Hmerge _].
  destruct (Hmerge _ eq_refl eq_refl eq_refl eq_refl) as (result' & Hrun & Hget).
  exists result'. split; [exact Hrun|].
  split; [apply (Hget "title") | split; [apply (Hget "text") | apply (Hget "constructor")]].
Defined.

Lemma allTemplates_holds_each_once_witness :
  ∃ rest,
    allTemplates (importing [failed]) = (items (importing [failed]) ++ rest)%list.
Proof.
  destruct (allTemplates_holds_each_once (importing [failed])) as (_ & _ & _ & Hfirst).
  apply Hfirst. apply NoDup_singleton.
Defined.

Lemma replaceRangeContent_in_range_witness :
  replaceRangeContent threeLines 1 1 (Some "- b")
  = inr ("# A" +:+ newLine +:+ "- b" +:+ newLine +:+ "# B")
  ∧ replaceRangeContent threeLines 1 3 (Some "- b") = inl (Error "index out of range.").
Proof.
  destruct (replaceRangeContent_in_range threeLines 1 1) as [_ Hin].
  destruct (replaceRangeContent_in_range threeLines 1 3) as [Hout _].
  split.
  - destruct Hin as [Hany _]; [vm_compute; intuition discriminate|].
    rewrite Hany. reflexivity.
  - apply Hout. right. right. vm_compute. discriminate.
Defined.

Lemma convertTemplateBody_has_no_template_line_witness :
  ∃ destList,
    convertTemplateBody ("hi" +:+ nl +:+ " # B") = Str.join newLine destList
    ∧ destList !! 0%nat = Some "hi"
    ∧ ∀ u, u ∈ destList → Str.startsWith (Str.trimLeft u) "#" = false.
Proof.
  destruct (convertTemplateBody_has_no_template_line ("hi" +:+ nl +:+ " # B"))
    as [_ Hlines].
  destruct Hlines as (destList & Hrun & _ & Hnone & Hkept); [discriminate|].
  exists destList. split; [exact Hrun|]. split; [|exact Hnone].
  apply (Hkept 0%nat "hi"); reflexivity.
Defined.

Lemma getGlobalFunctionTable_reads_the_last_exports_witness :
  getGlobalFunctionTable ["@exports = a"; "@exports = b, c"] = ["b"; "c"].
Proof.
  destruct (getGlobalFunctionTable_reads_the_last_exports
              ["@exports = a"] ["@exports = b, c"]) as (_ & Hlast & _).
  destruct (Hlast "b, c" eq_refl) as [Hboth Hvalue].
  destruct Hvalue as [Htable _]; [discriminate|].
  change ["@exports = a"; "@exports = b, c"]
    with (["@exports = a"] ++ ["@exports = b, c"])%list.
  rewrite Hboth, Htable. reflexivity.
Defined.

Lemma evaluateText_checks_first_witness :
  evaluateText 2 (importing [failed]) None VUndefined None
  = Throws (Error "inline string is empty")
  ∧ evaluateText 2 (importing [failed]) (Some "Hi") VUndefined None
    = Throws (Error "duplicate template")
  ∧ evaluateText 2 (importing [warned]) (Some "Hi") VUndefined None
    = evaluate 2 (inlineTemplates (wrapInline "Hi") (importing [warned])) "__temp__"
        VUndefined (Some (evalOptions (importing [warned]) None)).
Proof.
  destruct (evaluateText_checks_first 2 (importing [failed]) VUndefined None)
    as (Hundefined & Herror & _).
  destruct (evaluateText_checks_first 2 (importing [warned]) VUndefined None)
    as (_ & _ & Hpass & _).
  split; [exact Hundefined|]. split.
  - destruct Herror as (e & He & Hthrows).
    + exists failed. split; [vm_compute; right; left | reflexivity].
    + rewrite Hthrows. vm_compute in He. by injection He as <-.
  - apply Hpass. intros d Hd. vm_compute in Hd.
    apply list_elem_of_singleton in Hd. subst d. discriminate.
Defined.

Lemma iteration_gives_the_templates_witness :
  forOf 4 (Templates_push (collection [greet] []) [twoLines]) 1 = [Some twoLines].
Proof.
  destruct (iteration_gives_the_templates (collection [greet] []) [twoLines] 1)
    as (_ & Hpushed & _).
  assert (Hfuel : forOf 4 (Templates_push (collection [greet] []) [twoLines]) 1
                  = forOf (S (length (items (collection [greet] [])) + length [twoLines]))
                      (Templates_push (collection [greet] []) [twoLines]) 1)
    by reflexivity.
  rewrite Hfuel, Hpushed; [reflexivity | cbn; lia].
Defined.

Lemma evalExpression_error_names_the_top_frame_witness :
  fst (evalExpression looping (evaluateTemplate 1 looping) "${A()}" (Some "-${A()}") ""
         insideB)
  = Throws (Error ("Loop detected: B => A"
                   +:+ " [A]  Error occurred when evaluating '-${A()}'."))
  ∧ evaluationTargetStack
      (snd (evalExpression looping (evaluateTemplate 1 looping) "${A()}"
              (Some "-${A()}") "" insideB))
    = [frame "B" 1].
Proof.
  destruct (evalExpression_error_names_the_top_frame looping (evaluateTemplate 1 looping)
              "${A()}" (Some "-${A()}") "" insideB (frame "B" 1)
              VUndefined (Some "Loop detected: B => A")
              (snd (evaluateTemplate 1 looping "A" (inr topScope) insideB))
              (frame "A" 0))
    as (Hrun & _ & _); [reflexivity | reflexivity | by left | reflexivity |].
  rewrite Hrun. split; reflexivity.
Defined.

Lemma injectToExpressionFunction_registers_exports_witness :
  ∃ table,
    injectToExpressionFunction 1 exporting ∅ = (None, table)
    ∧ registered 1 exporting ∅ table "my.greet"
    ∧ table !! "my.greet" = Some (globalTemplateFunction 1 exporting "greet")
    ∧ table !! "my.other" = None.
Proof.
  destruct (injectToExpressionFunction_registers_exports 1 exporting ∅) as [Hregistered _].
  eexists. split; [reflexivity|].
  split; [apply (Hregistered None); reflexivity|]. split; reflexivity.
Defined.
